(** * Resilient element-readiness and interaction engine

    A shallow embedding of the page objects of the Airbnb end-to-end
    suite ([pages/airbnb/home_page.py], [pages/airbnb/search_results_page.py])
    and the properties their specification states about them: the calendar
    availability scanner, the element probe, the viewport guard, the
    page-readiness detector and the two listing operations.

    The browser is an external collaborator.  It is modelled as an
    arbitrary deterministic state machine (class [Browser]): every
    Playwright call takes the current world, answers with a value or an
    exception and yields the next world.  The page objects are written in a
    small monad that threads the world, records every call together with
    its answer in an event log, and carries Python's three ways of leaving a
    block: falling through, [return] and [raise].  The theorems speak about
    the result of a call and the log it leaves, as a test with an
    instrumented driver would.

    The report sinks ([logger], [allure.attach]) are taken to succeed; they
    only add to the log.

    Layout: Python values and control flow; [datetime]; the page objects;
    readers of the log and a scripted browser; then the facts, component by
    component. *)

From Stdlib Require Import ZArith List String Ascii Bool Lia Arith DecimalString.
From Stdlib Require DecimalPos.
Import ListNotations.
Local Open Scope string_scope.
Local Open Scope list_scope.
Local Open Scope Z_scope.

Set Implicit Arguments.

(** ** Python values used by the page objects *)

(** Exceptions.  All of them derive from [Exception]. *)
Inductive exn : Type :=
| ValueError (msg : string)
| AssertionError
| IndexError
| OverflowError
| PlaywrightError (msg : string).

Definition is_AssertionError (e : exn) : bool :=
  match e with AssertionError => true | _ => false end.

(** What a call into the driver answers. *)
Inductive result (A : Type) : Type :=
| Ok (a : A)
| Raised (e : exn).
Arguments Ok {A} a.
Arguments Raised {A} e.

(** [{"width": w, "height": h}] *)
Record viewport : Type := Viewport { width : Z; height : Z }.

Definition viewport_eqb (a b : viewport) : bool :=
  (width a =? width b) && (height a =? height b).

(** [current_viewport != self.expected_viewport]; [page.viewport_size] is
    [None] when no viewport is emulated. *)
Definition viewport_neq (current : option viewport) (expected : viewport) : bool :=
  match current with
  | Some v => negb (viewport_eqb v expected)
  | None => true
  end.

(** The two automation surfaces: [self.page] and the listing-detail tab
    [popup_card_details_page.value]. *)
Inductive surface : Type := primary | popup.

(** [page.locator(sel)], [loc.first], [loc.all()[i]] *)
Inductive locator : Type :=
| Locator (s : surface) (selector : string)
| First (l : locator)
| Nth (l : locator) (i : nat).

Inductive log_level : Type := INFO | WARNING | ERROR.
Inductive attachment_type : Type := PNG | TEXT.

(** ** The event log

    One entry per call that leaves the page object, with the answer it
    got. *)
Inductive event : Type :=
| ESetViewportSize (v : viewport) (r : result unit)
| EBringToFront (r : result unit)
| EWaitForTimeout (ms : Z) (r : result unit)
| EWaitForLoadState (state : string) (timeout : Z) (r : result unit)
| EWaitForSelector (selector : string) (timeout : Z) (r : result unit)
| EScreenshot (full_page : bool) (r : result unit)
| EGoto (url : string) (timeout : Z) (r : result unit)
| EUrl (s : surface) (r : result string)
| EIsVisible (l : locator) (timeout : Z) (r : result bool)
| ECount (l : locator) (r : result nat)
| EGetAttribute (l : locator) (name : string) (r : result (option string))
| EClick (l : locator) (r : result unit)
| EInnerText (l : locator) (r : result string)
| EAll (l : locator) (r : result nat)
| ELog (lvl : log_level) (msg : string)
| EAttach (name : string) (kind : attachment_type).

Definition trace : Type := list event.

(** ** The automation surface driver *)

Class Browser (world : Type) : Type := {
  (** [page.viewport_size], an attribute read *)
  viewport_size : world -> option viewport;
  set_viewport_size : viewport -> world -> result unit * world;
  (** [page.context.pages[0].bring_to_front()] *)
  bring_to_front : world -> result unit * world;
  wait_for_timeout : Z -> world -> result unit * world;
  wait_for_load_state : string -> Z -> world -> result unit * world;
  wait_for_selector : string -> Z -> world -> result unit * world;
  (** [page.screenshot(full_page=b)]; the bytes only travel to the report *)
  screenshot : bool -> world -> result unit * world;
  goto : string -> Z -> world -> result unit * world;
  (** [page.url]; the page objects guard it with [try] *)
  url : surface -> world -> result string * world;
  is_visible : locator -> Z -> world -> result bool * world;
  count : locator -> world -> result nat * world;
  get_attribute : locator -> string -> world -> result (option string) * world;
  click : locator -> world -> result unit * world;
  inner_text : locator -> world -> result string * world;
  (** [loc.all()]: how many elements match; the list is [Nth loc 0 ..] *)
  all : locator -> world -> result nat * world
}.

(** ** Control flow *)

(** How a block ends: it falls through with a value, the enclosing function
    returns, or an exception is on its way up. *)
Inductive outcome (R A : Type) : Type :=
| Normal (a : A)
| Return (v : R)
| Raise (e : exn).
Arguments Normal {R A} a.
Arguments Return {R A} v.
Arguments Raise {R A} e.

(** How a loop body ends when it falls through. *)
Inductive ctl (S : Type) : Type :=
| KeepGoing (s : S)
| BreakWith (s : S).
Arguments KeepGoing {S} s.
Arguments BreakWith {S} s.

Section Monad.
Context {world : Type}.

Definition M (R A : Type) : Type := world -> outcome R A * world * trace.

Definition ret {R A} (a : A) : M R A := fun w => (Normal a, w, []).

Definition bind {R A B} (m : M R A) (f : A -> M R B) : M R B :=
  fun w =>
    match m w with
    | (Normal a, w1, t1) =>
        match f a w1 with (o, w2, t2) => (o, w2, t1 ++ t2) end
    | (Return v, w1, t1) => (Return v, w1, t1)
    | (Raise e, w1, t1) => (Raise e, w1, t1)
    end.

Definition return_ {R A} (v : R) : M R A := fun w => (Return v, w, []).
Definition raise {R A} (e : exn) : M R A := fun w => (Raise e, w, []).

(** [try: body  except Exception as e: handler e] *)
Definition try_except {R A} (body : M R A) (handler : exn -> M R A) : M R A :=
  fun w =>
    match body w with
    | (Raise e, w1, t1) =>
        match handler e w1 with (o, w2, t2) => (o, w2, t1 ++ t2) end
    | r => r
    end.

(** [try: body  except AssertionError as e: handler e] *)
Definition try_except_AssertionError {R A}
           (body : M R A) (handler : exn -> M R A) : M R A :=
  fun w =>
    match body w with
    | (Raise e, w1, t1) =>
        if is_AssertionError e
        then match handler e w1 with (o, w2, t2) => (o, w2, t1 ++ t2) end
        else (Raise e, w1, t1)
    | r => r
    end.

(** [for x in xs: body], with the loop's local variables in [s] *)
Fixpoint for_each {R X S} (xs : list X) (s : S)
         (body : X -> S -> M R (ctl S)) : M R S :=
  match xs with
  | [] => ret s
  | x :: xs' =>
      fun w =>
        match body x s w with
        | (Normal (KeepGoing s1), w1, t1) =>
            match for_each xs' s1 body w1 with
            | (o, w2, t2) => (o, w2, t1 ++ t2)
            end
        | (Normal (BreakWith s1), w1, t1) => (Normal s1, w1, t1)
        | (Return v, w1, t1) => (Return v, w1, t1)
        | (Raise e, w1, t1) => (Raise e, w1, t1)
        end
  end.

(** A call from outside: [return v] and falling off the end both hand a
    value back, an exception propagates. *)
Definition call_function {R} (body : M R R) : world -> result R * world * trace :=
  fun w =>
    match body w with
    | (Normal v, w1, t) => (Ok v, w1, t)
    | (Return v, w1, t) => (Ok v, w1, t)
    | (Raise e, w1, t) => (Raised e, w1, t)
    end.

(** A driver call: ask the world, log call and answer. *)
Definition driver {R A} (f : world -> result A * world)
           (ev : result A -> event) : M R A :=
  fun w =>
    match f w with
    | (Ok a, w1) => (Normal a, w1, [ev (Ok a)])
    | (Raised e, w1) => (Raise e, w1, [ev (Raised e)])
    end.

(** Reading an attribute of the page object. *)
Definition read {R A} (f : world -> A) : M R A := fun w => (Normal (f w), w, []).

(** The diagnostics sinks ([logger], [allure.attach]) only add to the log *)
Definition emit {R} (e : event) : M R unit := fun w => (Normal tt, w, [e]).

Definition py_assert {R} (b : bool) : M R unit :=
  if b then ret tt else raise AssertionError.
End Monad.

Declare Scope py_scope.
Delimit Scope py_scope with py.
Notation "x <- m ;; k" := (bind m (fun x => k))
  (at level 61, m at next level, right associativity) : py_scope.
Notation "m ;; k" := (bind m (fun _ => k))
  (at level 61, right associativity) : py_scope.
Local Open Scope py_scope.

(** ** [datetime]

    The scanner works on [datetime] values ([datetime.strptime] of its two
    string arguments, time of day zero).  The arithmetic is the standard
    library's: comparison is field by field, differences and sums go through
    the proleptic Gregorian ordinal. *)
Module PyDatetime.

Record datetime : Type := Datetime { year : Z; month : Z; day : Z }.

Definition MINYEAR : Z := 1.
Definition MAXYEAR : Z := 9999.
Definition _MAXORDINAL : Z := 3652059.

Definition _is_leap (y : Z) : bool :=
  (y mod 4 =? 0) && (negb (y mod 100 =? 0) || (y mod 400 =? 0)).

Definition days_in_year (y : Z) : Z := if _is_leap y then 366 else 365.

Definition _days_before_year (y : Z) : Z :=
  let y := y - 1 in
  y * 365 + y / 4 - y / 100 + y / 400.

(** [_DAYS_IN_MONTH = [-1, 31, 28, 31, 30, 31, 30, 31, 31, 30, 31, 30, 31]] *)
Definition _DAYS_IN_MONTH (m : Z) : Z :=
  match m with
  | 1 => 31 | 2 => 28 | 3 => 31 | 4 => 30 | 5 => 31 | 6 => 30
  | 7 => 31 | 8 => 31 | 9 => 30 | 10 => 31 | 11 => 30 | 12 => 31
  | _ => -1
  end.

(** [_DAYS_BEFORE_MONTH], the running sum of [_DAYS_IN_MONTH] *)
Definition _DAYS_BEFORE_MONTH (m : Z) : Z :=
  match m with
  | 1 => 0 | 2 => 31 | 3 => 59 | 4 => 90 | 5 => 120 | 6 => 151
  | 7 => 181 | 8 => 212 | 9 => 243 | 10 => 273 | 11 => 304 | 12 => 334
  | _ => -1
  end.

Definition _days_in_month (y m : Z) : Z :=
  if (m =? 2) && _is_leap y then 29 else _DAYS_IN_MONTH m.

Definition _days_before_month (y m : Z) : Z :=
  _DAYS_BEFORE_MONTH m + (if (2 <? m) && _is_leap y then 1 else 0).

Definition _ymd2ord (y m d : Z) : Z :=
  _days_before_year y + _days_before_month y m + d.

Definition _DI400Y : Z := 146097.
Definition _DI100Y : Z := 36524.
Definition _DI4Y : Z := 1461.

Definition _ord2ymd (n : Z) : datetime :=
  let n := n - 1 in
  let n400 := n / _DI400Y in
  let n := n mod _DI400Y in
  let y := n400 * 400 + 1 in
  let n100 := n / _DI100Y in
  let n := n mod _DI100Y in
  let n4 := n / _DI4Y in
  let n := n mod _DI4Y in
  let n1 := n / 365 in
  let n := n mod 365 in
  let y := y + n100 * 100 + n4 * 4 + n1 in
  if (n1 =? 4) || (n100 =? 4) then Datetime (y - 1) 12 31
  else
    let leapyear := (n1 =? 3) && (negb (n4 =? 24) || (n100 =? 3)) in
    let m := Z.shiftr (n + 50) 5 in
    let preceding :=
      _DAYS_BEFORE_MONTH m + (if (2 <? m) && leapyear then 1 else 0) in
    if n <? preceding
    then
      let m := m - 1 in
      let preceding :=
        preceding
        - (_DAYS_IN_MONTH m + (if (m =? 2) && leapyear then 1 else 0)) in
      Datetime y m (n - preceding + 1)
    else Datetime y m (n - preceding + 1).

Definition toordinal (d : datetime) : Z := _ymd2ord (year d) (month d) (day d).

(** What [strptime] can produce. *)
Definition valid (d : datetime) : Prop :=
  MINYEAR <= year d <= MAXYEAR /\ 1 <= month d <= 12 /\
  1 <= day d <= _days_in_month (year d) (month d).

(** [a > b]: the fields are compared in order. *)
Definition gtb (a b : datetime) : bool :=
  (year b <? year a)
  || ((year a =? year b)
      && ((month b <? month a)
          || ((month a =? month b) && (day b <? day a)))).

Definition lt (a b : datetime) : Prop :=
  year a < year b \/
  (year a = year b /\ (month a < month b \/ (month a = month b /\ day a < day b))).

Definition le (a b : datetime) : Prop := a = b \/ lt a b.

(** [(a - b).days] *)
Definition sub_days (a b : datetime) : Z := toordinal a - toordinal b.

(** [d + timedelta(days=k)] *)
Definition add_days (d : datetime) (k : Z) : result datetime :=
  let o := toordinal d + k in
  if (0 <? o) && (o <=? _MAXORDINAL) then Ok (_ord2ymd o) else Raised OverflowError.

(** Decimal digits, as [%d], [%m] and [%Y] print them. *)
Definition digit (n : Z) : ascii := ascii_of_nat (48 + Z.to_nat (n mod 10)).

Definition pad2 (n : Z) : string :=
  String (digit (n / 10)) (String (digit n) EmptyString).

(** [%Y] is printed on four digits. *)
Definition pad4 (n : Z) : string :=
  String (digit (n / 1000)) (String (digit (n / 100)) (pad2 n)).

(** [d.strftime("%d/%m/%Y")] *)
Definition strftime_dmY (d : datetime) : string :=
  (pad2 (day d) ++ "/" ++ pad2 (month d) ++ "/" ++ pad4 (year d))%string.

(** [d.strftime("%m/%d/%Y")] *)
Definition strftime_mdY (d : datetime) : string :=
  (pad2 (month d) ++ "/" ++ pad2 (day d) ++ "/" ++ pad4 (year d))%string.

End PyDatetime.
Import PyDatetime.

(** ** Python built-ins the page objects use *)

(** [range(n)] *)
Definition range (n : Z) : list Z := map Z.of_nat (seq 0 (Z.to_nat n)).

(** The double quote character of the attribute selectors. *)
Definition dquote : string := String (ascii_of_nat 34) EmptyString.

(** A selector written [[attr="value"]] in the source. *)
Definition attr_selector (attr value : string) : string :=
  ("[" ++ attr ++ "=" ++ dquote ++ value ++ dquote ++ "]")%string.

(** [s.split(sep)[0]]: what precedes the first [sep], all of [s] without one *)
Fixpoint split_first (sep s : string) : string :=
  match s with
  | EmptyString => EmptyString
  | String c s' =>
      if String.prefix sep s then EmptyString else String c (split_first sep s')
  end.

(** [sub in s] *)
Fixpoint contains (sub s : string) : bool :=
  if String.prefix sub s then true
  else match s with
       | EmptyString => false
       | String _ s' => contains sub s'
       end.

(** The characters [int] skips around the digits of an ASCII text: tab, line
    feed, vertical tab, form feed, carriage return and the space. *)
Definition is_space (c : ascii) : bool :=
  let n := nat_of_ascii c in
  ((9 <=? n) && (n <=? 13) || (n =? 32))%nat.

Fixpoint lstrip (cs : list ascii) : list ascii :=
  match cs with
  | c :: cs' => if is_space c then lstrip cs' else cs
  | [] => []
  end.

Definition strip (cs : list ascii) : list ascii := rev (lstrip (rev (lstrip cs))).

Definition digit_value (c : ascii) : option Z :=
  let n := Z.of_nat (nat_of_ascii c) in
  if (48 <=? n) && (n <=? 57) then Some (n - 48) else None.

(** Decimal digits, single underscores allowed between two digits. *)
Fixpoint digits_value (acc : Z) (after_digit : bool) (cs : list ascii) : option Z :=
  match cs with
  | [] => if after_digit then Some acc else None
  | c :: cs' =>
      match digit_value c with
      | Some v => digits_value (acc * 10 + v) true cs'
      | None =>
          if Ascii.eqb c "_"%char && after_digit
          then digits_value acc false cs'
          else None
      end
  end.

(** [int(s)] on text *)
Definition py_int (s : string) : result Z :=
  let cs := strip (list_ascii_of_string s) in
  let signed :=
    match cs with
    | c :: cs' =>
        if Ascii.eqb c "-"%char then option_map Z.opp (digits_value 0 false cs')
        else if Ascii.eqb c "+"%char then digits_value 0 false cs'
        else digits_value 0 false cs
    | [] => None
    end in
  match signed with
  | Some z => Ok z
  | None => Raised (ValueError "invalid literal for int() with base 10")
  end.

(** [str(n)] *)
Definition py_str (n : Z) : string := NilZero.string_of_int (Z.to_int n).

(** The operands of the last assertion of [reserve_and_validate]. *)
Inductive pyval : Type :=
| PyStr (s : string)
| PyBool (b : bool).

Definition truthy (v : pyval) : bool :=
  match v with
  | PyStr s => negb (String.eqb s EmptyString)
  | PyBool b => b
  end.

(** [a and b] *)
Definition py_and (a b : pyval) : pyval := if truthy a then b else a.

(** [utilities/constants.py] *)
Module CONST.
Definition BASE_URL : string := "https://www.airbnb.com/".
Definition ADULTS_COUNT : Z := 2.
Definition TOTAL_GUESTS_COUNT : Z := 2.
End CONST.

Section Calls.
Context {world : Type}.

(** Calling a method: its [return] ends the method, not the caller. *)
Definition invoke {R A} (body : M (world:=world) A A) : M R A :=
  fun w =>
    match body w with
    | (Normal v, w1, t) => (Normal v, w1, t)
    | (Return v, w1, t) => (Normal v, w1, t)
    | (Raise e, w1, t) => (Raise e, w1, t)
    end.

(** A pure computation that may raise. *)
Definition lift {R A} (r : result A) : M (world:=world) R A :=
  match r with
  | Ok a => ret a
  | Raised e => raise e
  end.
End Calls.

(** [s.lower()]; the texts the page objects handle are ASCII. *)
Definition lower_char (c : ascii) : ascii :=
  let n := nat_of_ascii c in
  if ((65 <=? n) && (n <=? 90))%nat then ascii_of_nat (n + 32) else c.

Fixpoint lower (s : string) : string :=
  match s with
  | EmptyString => EmptyString
  | String c s' => String (lower_char c) (lower s')
  end.

(** ** [datetime.strptime(s, "%Y-%m-%d")]

    [_strptime] turns the format into a regular expression, matches it at
    the start of the text, refuses what is left over, converts the three
    groups with [int] and builds the date, which checks the fields.  The
    messages of the [ValueError]s are kept as their templates. *)
Module PyStrptime.

(** The fragment of [re] the format needs. *)
Inductive regex : Type :=
| Lit (c : ascii)
| Class (lo hi : ascii)
| Digit
| Cat (a b : regex)
| Alt (a b : regex).

Definition in_class (lo hi c : ascii) : bool :=
  ((nat_of_ascii lo <=? nat_of_ascii c) && (nat_of_ascii c <=? nat_of_ascii hi))%nat.

Definition is_digit (c : ascii) : bool :=
  match digit_value c with Some _ => true | None => false end.

(** Backtracking match of [r] at the start of [s]; [k] is what has to
    match after it.  Alternatives are tried from left to right. *)
Fixpoint rmatch {A : Type} (r : regex) (s : string) (k : string -> option A)
  : option A :=
  match r with
  | Lit c =>
      match s with
      | String c' s' => if Ascii.eqb c c' then k s' else None
      | EmptyString => None
      end
  | Class lo hi =>
      match s with
      | String c' s' => if in_class lo hi c' then k s' else None
      | EmptyString => None
      end
  | Digit =>
      match s with
      | String c' s' => if is_digit c' then k s' else None
      | EmptyString => None
      end
  | Cat a b => rmatch a s (fun s' => rmatch b s' k)
  | Alt a b =>
      match rmatch a s k with
      | Some x => Some x
      | None => rmatch b s k
      end
  end.

(** A group: the text [r] matched is handed to [k] with the rest. *)
Definition group {A : Type} (r : regex) (s : string)
           (k : string -> string -> option A) : option A :=
  rmatch r s
    (fun rest => k (substring 0 (String.length s - String.length rest) s) rest).

(** [(?P<Y>\d\d\d\d)] *)
Definition re_Y : regex := Cat Digit (Cat Digit (Cat Digit Digit)).

(** [(?P<m>1[0-2]|0[1-9]|[1-9])] *)
Definition re_m : regex :=
  Alt (Cat (Lit "1") (Class "0" "2"))
      (Alt (Cat (Lit "0") (Class "1" "9"))
           (Class "1" "9")).

(** [(?P<d>3[0-1]|[1-2]\d|0[1-9]|[1-9]| [1-9])] *)
Definition re_d : regex :=
  Alt (Cat (Lit "3") (Class "0" "1"))
      (Alt (Cat (Class "1" "2") Digit)
           (Alt (Cat (Lit "0") (Class "1" "9"))
                (Alt (Class "1" "9")
                     (Cat (Lit " ") (Class "1" "9"))))).

(** [format_regex.match(data_string)]: the three groups and what follows
    the match. *)
Definition format_regex_match (data_string : string)
  : option (string * string * string * string) :=
  group re_Y data_string (fun Y s1 =>
  rmatch (Lit "-") s1 (fun s2 =>
  group re_m s2 (fun m s3 =>
  rmatch (Lit "-") s3 (fun s4 =>
  group re_d s4 (fun d rest =>
  Some (Y, m, d, rest)))))).

(** [datetime(year, month, day)] *)
Definition new_datetime (y m d : Z) : result datetime :=
  if negb ((MINYEAR <=? y) && (y <=? MAXYEAR))
  then Raised (ValueError "year %i is out of range")
  else if negb ((1 <=? m) && (m <=? 12))
  then Raised (ValueError "month must be in 1..12")
  else if negb ((1 <=? d) && (d <=? _days_in_month y m))
  then Raised (ValueError "day is out of range for month")
  else Ok (Datetime y m d).

Definition and_then {A B} (r : result A) (f : A -> result B) : result B :=
  match r with
  | Ok a => f a
  | Raised e => Raised e
  end.

Definition strptime_Ymd (data_string : string) : result datetime :=
  match format_regex_match data_string with
  | None => Raised (ValueError "time data %r does not match format %r")
  | Some (Y, m, d, rest) =>
      if negb (String.eqb rest EmptyString)
      then Raised (ValueError "unconverted data remains: %s")
      else
        and_then (py_int Y) (fun year =>
        and_then (py_int m) (fun month =>
        and_then (py_int d) (fun day =>
        new_datetime year month day)))
  end.

(** The text [YYYY-MM-DD] of three numbers, and of a date
    ([d.strftime("%Y-%m-%d")]). *)
Definition Ymd (y m d : Z) : string :=
  (pad4 y ++ "-" ++ pad2 m ++ "-" ++ pad2 d)%string.

Definition strftime_Ymd (d : datetime) : string := Ymd (year d) (month d) (day d).

End PyStrptime.
Import PyStrptime.

(** ** Collaborators outside the event log

    The page objects also call [page.title()], take screenshots into a file
    or of the listing tab, wait for the listing tab to load, and use two
    components of the suite, [SearchResults] and [SearchBar].  These calls
    answer with a value or an exception and move the world on like the
    others, but they are not entered in the event log: the theorems that
    depend on their answers name the answers themselves. *)
Class Collaborators (world : Type) : Type := {
  (** [page.title()] *)
  title : world -> result string * world;
  (** [page.screenshot(path=p)] *)
  screenshot_path : string -> world -> result unit * world;
  (** [new_page.wait_for_load_state(state, timeout=t)] *)
  popup_wait_for_load_state : string -> Z -> world -> result unit * world;
  (** [new_page.screenshot()] *)
  popup_screenshot : world -> result unit * world;
  (** [self.search_results.get_results_count()] *)
  search_results_get_results_count : world -> result Z * world;
  (** [self.search_bar.calc_dates(check_in, check_out)] *)
  search_bar_calc_dates : Z -> Z -> world -> result (string * string) * world;
  (** [self.search_results.convert_date_format(text)] *)
  search_results_convert_date_format : string -> world -> result string * world
}.

Section Unlogged.
Context {world : Type}.

(** A call that leaves no entry in the log. *)
Definition unlogged {R A} (f : world -> result A * world) : M (world:=world) R A :=
  fun w =>
    match f w with
    | (Ok a, w1) => (Normal a, w1, [])
    | (Raised e, w1) => (Raise e, w1, [])
    end.
End Unlogged.
(** ** [pages/airbnb/home_page.py]

    Log lines and report attachments are recorded by the text of their
    template; what the f-strings interpolate is left out of the log. *)
Module HomePage.
Section HomePage.
Context {world : Type} {B : Browser world}.

(** [self.expected_viewport] *)
Variable expected_viewport : viewport.

(** [self.logo] *)
Definition logo : locator := Locator primary "[data-testid='header-logo']".

Definition _ensure_full_screen : M unit unit :=
  current_viewport <- read viewport_size ;;
  if viewport_neq current_viewport expected_viewport
  then
    emit (ELog WARNING "[HomePage] Viewport changed! Resetting from {current_viewport} to {self.expected_viewport}") ;;
    emit (EAttach "HomePage Viewport Reset" TEXT) ;;
    driver (set_viewport_size expected_viewport) (ESetViewportSize expected_viewport) ;;
    driver bring_to_front EBringToFront ;;
    driver (wait_for_timeout 500) (EWaitForTimeout 500)
  else
    emit (ELog INFO "[HomePage] Viewport check OK: {current_viewport}").

(** Lines 80 to 88 of [navigate]: the loop over [selectors_to_try] with
    its flag [element_found]. *)
Definition probe_key_elements {R} (selectors_to_try : list locator) : M R bool :=
  let element_found := false in
  for_each selectors_to_try element_found
    (fun selector element_found =>
       try_except
         (v <- driver (is_visible selector 5000) (EIsVisible selector 5000) ;;
          if v
          then
            emit (ELog INFO "Found visible element on page") ;;
            let element_found := true in
            ret (BreakWith element_found)
          else ret (KeepGoing element_found))
         (fun e => ret (KeepGoing element_found))).

Definition selectors_to_try : list locator :=
  [ logo;
    Locator primary "header";
    Locator primary "[data-testid='little-search']";
    Locator primary "[role='banner']";
    Locator primary "div[role='main']";
    Locator primary "body > div" ].

Definition navigate : M unit unit :=
  try_except
    (invoke _ensure_full_screen ;;
     emit (ELog INFO "Navigating to Airbnb homepage...") ;;
     driver (goto CONST.BASE_URL 60000) (EGoto CONST.BASE_URL 60000) ;;
     current_url <- driver (url primary) (EUrl primary) ;;
     emit (ELog INFO "Navigated to: {current_url}") ;;
     try_except
       (emit (ELog INFO "Waiting for network idle...") ;;
        driver (wait_for_load_state "networkidle" 30000)
               (EWaitForLoadState "networkidle" 30000))
       (fun e => emit (ELog WARNING "Network idle timeout: {e}")) ;;
     try_except
       (emit (ELog INFO "Waiting for DOM content loaded...") ;;
        driver (wait_for_load_state "domcontentloaded" 15000)
               (EWaitForLoadState "domcontentloaded" 15000))
       (fun e => emit (ELog WARNING "DOM content loaded timeout: {e}")) ;;
     emit (ELog INFO "Checking for key elements on the page...") ;;
     element_found <- probe_key_elements selectors_to_try ;;
     (if negb element_found
      then emit (ELog WARNING "No key elements found on page, but continuing...")
      else ret tt) ;;
     invoke _ensure_full_screen ;;
     try_except
       (driver (screenshot true) (EScreenshot true) ;;
        emit (EAttach "Full Page Homepage" PNG) ;;
        emit (ELog INFO "Screenshot taken successfully"))
       (fun e => emit (ELog WARNING "Failed to take screenshot: {e}")))
    (fun e =>
       emit (ELog ERROR "Error navigating to Airbnb homepage: {e}") ;;
       try_except
         (driver (screenshot false) (EScreenshot false) ;;
          emit (EAttach "Navigation Error" PNG))
         (fun screenshot_error =>
            emit (ELog ERROR "Could not take screenshot after navigation error: {screenshot_error}")) ;;
       raise e).

(** [self.profile_menu], [self.language_selector] *)
Definition profile_menu : locator := Locator primary "[data-testid='header-profile']".
Definition language_selector : locator :=
  First (Locator primary "button[aria-label*='language']").

Definition homepage_indicators : list (locator * string) :=
  [ (logo, "logo");
    (Locator primary "[data-testid='little-search']", "search box");
    (Locator primary "header", "header") ].

Definition _verify_on_homepage : M bool bool :=
  try_except
    (u <- driver (url primary) (EUrl primary) ;;
     let current_url := lower u in
     (if negb (contains "airbnb.com" current_url)
      then
        emit (ELog WARNING "URL doesn't contain airbnb.com: {current_url}") ;;
        return_ false
      else ret tt) ;;
     for_each homepage_indicators tt
       (fun '(indicator, name) _ =>
          v <- driver (is_visible indicator 1000) (EIsVisible indicator 1000) ;;
          if v
          then
            emit (ELog INFO "Found homepage indicator: {name}") ;;
            return_ true
          else ret (KeepGoing tt)) ;;
     emit (ELog WARNING "No homepage indicators found") ;;
     return_ false)
    (fun e =>
       emit (ELog ERROR "Error verifying homepage: {e}") ;;
       return_ false).

Definition cookie_test_ids : list string :=
  [ "accept-btn"; "accept-cookies"; "cookie-policy-manage-button";
    "main-cookies-bar-agree" ].

Definition cookie_selectors : list string :=
  [ "button[aria-label*='Accept']"; "button[aria-label*='accept']";
    "button[aria-label*='Cookie']" ].

Definition close_test_ids : list string := [ "close"; "modal-close-button" ].

Definition close_selectors : list string :=
  [ "button[aria-label='Close']"; "button[aria-label='close']"; "button.close" ].

Definition _handle_popups : M unit unit :=
  for_each cookie_test_ids tt
    (fun test_id _ =>
       try_except
         (let cookie_button :=
            Locator primary ("[data-testid='" ++ test_id ++ "']")%string in
          v <- driver (is_visible cookie_button 1000) (EIsVisible cookie_button 1000) ;;
          if v
          then
            driver (click cookie_button) (EClick cookie_button) ;;
            driver (wait_for_timeout 1000) (EWaitForTimeout 1000) ;;
            ret (BreakWith tt)
          else ret (KeepGoing tt))
         (fun _ => ret (KeepGoing tt))) ;;
  for_each cookie_selectors tt
    (fun selector _ =>
       try_except
         (let cookie_button := First (Locator primary selector) in
          v <- driver (is_visible cookie_button 1000) (EIsVisible cookie_button 1000) ;;
          if v
          then
            driver (click cookie_button) (EClick cookie_button) ;;
            driver (wait_for_timeout 1000) (EWaitForTimeout 1000) ;;
            ret (BreakWith tt)
          else ret (KeepGoing tt))
         (fun _ => ret (KeepGoing tt))) ;;
  for_each close_test_ids tt
    (fun test_id _ =>
       try_except
         (let close_button :=
            Locator primary ("[data-testid='" ++ test_id ++ "']")%string in
          v <- driver (is_visible close_button 1000) (EIsVisible close_button 1000) ;;
          if v
          then
            driver (click close_button) (EClick close_button) ;;
            driver (wait_for_timeout 1000) (EWaitForTimeout 1000) ;;
            ret (BreakWith tt)
          else ret (KeepGoing tt))
         (fun _ => ret (KeepGoing tt))) ;;
  for_each close_selectors tt
    (fun selector _ =>
       try_except
         (let close_button := First (Locator primary selector) in
          v <- driver (is_visible close_button 1000) (EIsVisible close_button 1000) ;;
          if v
          then
            driver (click close_button) (EClick close_button) ;;
            driver (wait_for_timeout 1000) (EWaitForTimeout 1000) ;;
            ret (BreakWith tt)
          else ret (KeepGoing tt))
         (fun _ => ret (KeepGoing tt))).

Definition click_profile_menu : M unit unit :=
  driver (click profile_menu) (EClick profile_menu).

Definition click_language_selector : M unit unit :=
  driver (click language_selector) (EClick language_selector).

Definition click_logo : M unit unit :=
  driver (click logo) (EClick logo).

End HomePage.
End HomePage.

(** ** [pages/airbnb/search_results_page.py] *)
Module SearchResultsPage.
Section SearchResultsPage.
Context {world : Type} {B : Browser world}.

(** [self.expected_viewport] *)
Variable expected_viewport : viewport.

Definition _is_page_available : M bool bool :=
  try_except
    (driver (url primary) (EUrl primary) ;;
     return_ true)
    (fun _ => return_ false).

Definition _ensure_full_screen : M unit unit :=
  current_viewport <- read viewport_size ;;
  if viewport_neq current_viewport expected_viewport
  then
    emit (ELog WARNING "[SearchResultsPage] Viewport changed! Resetting from {current_viewport} to {self.expected_viewport}") ;;
    emit (EAttach "Results Page Viewport Reset" TEXT) ;;
    driver (set_viewport_size expected_viewport) (ESetViewportSize expected_viewport) ;;
    driver bring_to_front EBringToFront ;;
    driver (wait_for_timeout 500) (EWaitForTimeout 500)
  else
    emit (ELog INFO "[SearchResultsPage] Viewport check OK: {current_viewport}").

(** Lines 117 to 135 of [wait_for_page_load]: the loop over the
    [data-testid] indicators. *)
Definition probe_load_indicators (load_indicators : list string) : M unit unit :=
  for_each load_indicators tt
    (fun test_id _ =>
       available <- invoke _is_page_available ;;
       if negb available
       then
         emit (ELog ERROR "Page is no longer available while checking load indicators") ;;
         return_ tt
       else
         try_except
           (let element :=
              First (Locator primary ("[data-testid='" ++ test_id ++ "']")%string) in
            v <- driver (is_visible element 2000) (EIsVisible element 2000) ;;
            if v
            then
              emit (EAttach "Page Load Success" TEXT) ;;
              emit (ELog INFO "Found load indicator: {test_id}") ;;
              return_ tt
            else ret (KeepGoing tt))
           (fun e =>
              emit (ELog INFO "Indicator {test_id} not found: {e}") ;;
              ret (KeepGoing tt))).

(** Lines 147 to 164: the same loop over the generic selectors. *)
Definition probe_generic_selectors (generic_selectors : list string) : M unit unit :=
  for_each generic_selectors tt
    (fun selector _ =>
       available <- invoke _is_page_available ;;
       if negb available
       then
         emit (ELog ERROR "Page is no longer available while checking generic selectors") ;;
         return_ tt
       else
         try_except
           (let element := First (Locator primary selector) in
            v <- driver (is_visible element 2000) (EIsVisible element 2000) ;;
            if v
            then
              emit (EAttach "Page Load Success" TEXT) ;;
              emit (ELog INFO "Found load indicator: {selector}") ;;
              return_ tt
            else ret (KeepGoing tt))
           (fun e =>
              emit (ELog INFO "Selector {selector} not found: {e}") ;;
              ret (KeepGoing tt))).

Definition load_indicators : list string :=
  [ "card-container"; "listing-card"; "explore-footer"; "little-search" ].

Definition generic_selectors : list string :=
  [ "[itemprop='itemListElement']"; "main[id='site-content']";
    "div[role='main']"; "footer"; "h1"; "div.container" ].

Definition wait_for_page_load (timeout : Z) : M unit unit :=
  try_except
    (invoke _ensure_full_screen ;;
     try_except
       (driver (screenshot true) (EScreenshot true) ;;
        emit (EAttach "Before Results Page Load - Full Page" PNG))
       (fun screenshot_error =>
          emit (ELog WARNING "Failed to take initial screenshot: {screenshot_error}")) ;;
     available <- invoke _is_page_available ;;
     (if negb available
      then emit (ELog ERROR "Page is no longer available") ;; return_ tt
      else ret tt) ;;
     try_except
       (emit (ELog INFO "Waiting for DOM content loaded...") ;;
        driver (wait_for_load_state "domcontentloaded" (Z.min 15000 (timeout / 4)))
               (EWaitForLoadState "domcontentloaded" (Z.min 15000 (timeout / 4))) ;;
        emit (ELog INFO "DOM content loaded reached"))
       (fun dom_error =>
          emit (ELog WARNING "DOM content loaded timed out: {dom_error}") ;;
          emit (EAttach "Load State Timeout" TEXT)) ;;
     emit (ELog INFO "Waiting for JS execution...") ;;
     driver (wait_for_timeout 3000) (EWaitForTimeout 3000) ;;
     available <- invoke _is_page_available ;;
     (if negb available
      then emit (ELog ERROR "Page is no longer available after load states") ;; return_ tt
      else ret tt) ;;
     invoke _ensure_full_screen ;;
     try_except
       (driver (screenshot true) (EScreenshot true) ;;
        emit (EAttach "After Results Page Load - Full Page" PNG))
       (fun screenshot_error =>
          emit (ELog WARNING "Failed to take post-load screenshot: {screenshot_error}")) ;;
     probe_load_indicators load_indicators ;;
     probe_generic_selectors generic_selectors ;;
     available <- invoke _is_page_available ;;
     (if available
      then
        try_except
          (emit (ELog INFO "Waiting for any visible element...") ;;
           driver (wait_for_selector "body > *" 5000) (EWaitForSelector "body > *" 5000) ;;
           emit (ELog INFO "Found at least some content on the page"))
          (fun e => emit (ELog WARNING "No content found on page: {e}"))
      else ret tt) ;;
     try_except
       (driver (screenshot false) (EScreenshot false) ;;
        emit (EAttach "Page loaded without specific indicators" PNG))
       (fun screenshot_error =>
          emit (ELog WARNING "Failed to take final screenshot: {screenshot_error}")) ;;
     emit (ELog INFO "Page loaded without finding specific indicators"))
    (fun e =>
       emit (ELog ERROR "Error waiting for page to load: {e}") ;;
       try_except
         (emit (EAttach "Page load error" TEXT))
         (fun _ => ret tt)).

Definition guests_button : locator :=
  Locator popup (attr_selector "id" "GuestPicker-book_it-trigger").
Definition current_child_count_element : locator :=
  Locator popup
    (attr_selector "data-testid" "GuestPicker-book_it-form-children-stepper-a11y-value-label").
Definition reduce_child_count_element : locator :=
  Locator popup
    (attr_selector "data-testid" "GuestPicker-book_it-form-children-stepper-decrease-button").

Definition remove_kids_from__highest_rated_listing (new_child_count : Z)
  : M unit unit :=
  t <- driver (inner_text guests_button) (EInnerText guests_button) ;;
  current_guest_number <- lift (py_int (split_first "guests" t)) ;;
  let reduce_child_count := 1 in
  try_except_AssertionError
    (emit (ELog INFO "opening the guests details") ;;
     driver (click guests_button) (EClick guests_button) ;;
     t <- driver (inner_text current_child_count_element)
                 (EInnerText current_child_count_element) ;;
     current_child_num <- lift (py_int (split_first "child" t)) ;;
     reduce_child_count <-
       (if new_child_count <? current_child_num
        then
          let reduce_child_count := current_child_num - new_child_count in
          for_each (range reduce_child_count) tt
            (fun _ _ =>
               driver (click reduce_child_count_element)
                      (EClick reduce_child_count_element) ;;
               ret (KeepGoing tt)) ;;
          ret reduce_child_count
        else
          let increase_child_count := new_child_count - current_child_num in
          ret reduce_child_count) ;;
     t <- driver (inner_text current_child_count_element)
                 (EInnerText current_child_count_element) ;;
     current_child_num <- lift (py_int (split_first "child" t)) ;;
     t <- driver (inner_text guests_button) (EInnerText guests_button) ;;
     current_guest_number_after_update <- lift (py_int (split_first "guests" t)) ;;
     py_assert (new_child_count =? current_child_num) ;;
     emit (ELog INFO "child number updated successfully") ;;
     emit (ELog INFO "current guests number found: {current_child_num}") ;;
     py_assert (current_guest_number_after_update
                =? current_guest_number - reduce_child_count) ;;
     emit (ELog INFO "total guest number was updated correctly: {current_guest_number_after_update}") ;;
     driver (screenshot false) (EScreenshot false) ;;
     emit (EAttach "child number updated" PNG))
    (fun e =>
       emit (ELog INFO "updating the child number failed: {e}") ;;
       driver (screenshot false) (EScreenshot false) ;;
       emit (EAttach "failure updating child number error" PNG) ;;
       raise e).

Definition reserve_and_validate (adults_count : Z) : M unit unit :=
  let reserve_button_element :=
    Locator popup (attr_selector "data-testid" "homes-pdp-cta-btn") in
  n <- driver (all reserve_button_element) (EAll reserve_button_element) ;;
  url_before_reserve <- driver (url popup) (EUrl popup) ;;
  (if (1 <? n)%nat
   then driver (click (Nth reserve_button_element 1))
               (EClick (Nth reserve_button_element 1))
   else raise IndexError) ;;
  emit (ELog INFO "Reserved button was clicked") ;;
  url_after_reserve <- driver (url popup) (EUrl popup) ;;
  emit (ELog INFO "Current URL after clicking on reserve: {url_after_reserve}") ;;
  emit (ELog INFO "asserting the url after clicking on reserve was changed: {url_before_reserve}") ;;
  py_assert (negb (String.eqb url_before_reserve url_after_reserve)) ;;
  emit (ELog INFO "asserting the number of adults {adults_count} in the url") ;;
  py_assert
    (truthy (py_and (PyStr ("numberOfAdults=" ++ py_str adults_count)%string)
                    (PyBool (contains "book" url_after_reserve)))).

(** [f'[data-testid="calendar-day-{date_str}"]'] *)
Definition calendar_day_selector (date_str : string) : string :=
  attr_selector "data-testid" ("calendar-day-" ++ date_str)%string.

(** [blocked_attr == 'true'] *)
Definition is_true_attr (blocked_attr : option string) : bool :=
  match blocked_attr with
  | Some s => String.eqb s "true"
  | None => false
  end.

(** [is_date_range_blocked], from the two parsed dates on
    ([datetime.strptime] of the string arguments). *)
Definition is_date_range_blocked (start_date end_date : datetime)
  : M (bool * option string) (bool * option string) :=
  let start_calendar_date := strftime_mdY start_date in
  let end_calendar_date := strftime_mdY end_date in
  if gtb start_date end_date
  then raise (ValueError "Start date must be before end date")
  else
    let days_to_check := sub_days end_date start_date + 1 in
    for_each (range days_to_check) tt
      (fun day_offset _ =>
         current_date <- lift (add_days start_date day_offset) ;;
         let date_str := strftime_dmY current_date in
         let date_locator := Locator popup (calendar_day_selector date_str) in
         c <- driver (count date_locator) (ECount date_locator) ;;
         if (0 <? c)%nat
         then
           blocked_attr <-
             driver (get_attribute (First date_locator) "data-is-day-blocked")
                    (EGetAttribute (First date_locator) "data-is-day-blocked") ;;
           if is_true_attr blocked_attr
           then return_ (true, Some date_str)
           else ret (KeepGoing tt)
         else
           try_except
             (let start_date_locator :=
                Locator popup (calendar_day_selector start_calendar_date) in
              let end_date_locator :=
                Locator popup (calendar_day_selector end_calendar_date) in
              driver (click start_date_locator) (EClick start_date_locator) ;;
              driver (click end_date_locator) (EClick end_date_locator) ;;
              ret (KeepGoing tt))
             (fun e =>
                emit (ELog INFO "added new dates") ;;
                ret (KeepGoing tt))) ;;
    return_ (false, None).

(** The stepper's other button, located but never used. *)
Definition increase_child_count_element : locator :=
  Locator popup
    (attr_selector "data-testid" "GuestPicker-book_it-form-children-stepper-increase-button").

(** [is_date_range_blocked] whole: lines 601 to 603 parse the two
    arguments, the rest works on the dates. *)
Definition is_date_range_blocked_str (start_date_str end_date_str : string)
  : M (bool * option string) (bool * option string) :=
  start_date <- lift (strptime_Ymd start_date_str) ;;
  end_date <- lift (strptime_Ymd end_date_str) ;;
  is_date_range_blocked start_date end_date.

Definition check_in_button_element : locator :=
  Locator popup (attr_selector "data-testid" "change-dates-checkIn").
Definition close_cal : locator :=
  Locator popup (attr_selector "data-testid" "availability-calendar-save").

Definition check_availability (checkin_date checkout_date : string) : M bool bool :=
  emit (ELog INFO "Checking availability for {checkin_date} and {checkout_date}") ;;
  driver (click check_in_button_element) (EClick check_in_button_element) ;;
  r <- invoke (is_date_range_blocked_str checkin_date checkout_date) ;;
  let '(is_blocked, blocked_date) := r in
  if is_blocked
  then
    emit (ELog INFO "Cannot book this date range. Date {blocked_date} is blocked.") ;;
    driver (click close_cal) (EClick close_cal) ;;
    invoke (reserve_and_validate CONST.ADULTS_COUNT) ;;
    return_ false
  else
    emit (ELog INFO "Date range is available!") ;;
    invoke (reserve_and_validate CONST.ADULTS_COUNT) ;;
    return_ true.

End SearchResultsPage.

Section Collaborating.
Context {world : Type} {B : Browser world} {C : Collaborators world}.

Definition heading_selectors : list string :=
  [ "h1"; "[data-section-id='TITLE_DEFAULT']";
    "[data-plugin-in-point-id='EXPLORE_HEADER']" ].

Definition filter_test_ids : list string :=
  [ "little-search"; "structured-search-input-field-query" ].

Definition verify_search_results (destination : string) : M bool bool :=
  u <- driver (url primary) (EUrl primary) ;;
  let current_url := lower u in
  t <- unlogged title ;;
  let page_title := lower t in
  let destination_lower := lower destination in
  unlogged (screenshot_path "test-results/verify-search-results.png") ;;
  let url_contains_destination := contains destination_lower current_url in
  let title_contains_destination := contains destination_lower page_title in
  destination_in_content <-
    try_except
      (let destination_in_content := false in
       destination_in_content <-
         for_each [ "explore-header" ] destination_in_content
           (fun test_id destination_in_content =>
              try_except
                (let heading :=
                   Locator primary ("[data-testid='" ++ test_id ++ "']")%string in
                 v <- driver (is_visible heading 1000) (EIsVisible heading 1000) ;;
                 if v
                 then
                   txt <- driver (inner_text heading) (EInnerText heading) ;;
                   let heading_text := lower txt in
                   if contains destination_lower heading_text
                   then ret (BreakWith true)
                   else ret (KeepGoing destination_in_content)
                 else ret (KeepGoing destination_in_content))
                (fun _ => ret (KeepGoing destination_in_content))) ;;
       destination_in_content <-
         for_each heading_selectors destination_in_content
           (fun selector destination_in_content =>
              let heading := First (Locator primary selector) in
              v <- driver (is_visible heading 1000) (EIsVisible heading 1000) ;;
              if v
              then
                txt <- driver (inner_text heading) (EInnerText heading) ;;
                let heading_text := lower txt in
                if contains destination_lower heading_text
                then ret (BreakWith true)
                else ret (KeepGoing destination_in_content)
              else ret (KeepGoing destination_in_content)) ;;
       destination_in_content <-
         for_each filter_test_ids destination_in_content
           (fun test_id destination_in_content =>
              try_except
                (let filter_elem :=
                   Locator primary ("[data-testid='" ++ test_id ++ "']")%string in
                 v <- driver (is_visible filter_elem 1000) (EIsVisible filter_elem 1000) ;;
                 if v
                 then
                   txt <- driver (inner_text filter_elem) (EInnerText filter_elem) ;;
                   let filter_text := lower txt in
                   if contains destination_lower filter_text
                   then ret (BreakWith true)
                   else ret (KeepGoing destination_in_content)
                 else ret (KeepGoing destination_in_content))
                (fun _ => ret (KeepGoing destination_in_content))) ;;
       if negb destination_in_content
       then
         for_each [ "button[data-index='0']" ] destination_in_content
           (fun selector destination_in_content =>
              let filter_elem := First (Locator primary selector) in
              v <- driver (is_visible filter_elem 1000) (EIsVisible filter_elem 1000) ;;
              if v
              then
                txt <- driver (inner_text filter_elem) (EInnerText filter_elem) ;;
                let filter_text := lower txt in
                if contains destination_lower filter_text
                then ret (BreakWith true)
                else ret (KeepGoing destination_in_content)
              else ret (KeepGoing destination_in_content))
       else ret destination_in_content)
      (fun e =>
         let destination_in_content := false in
         emit (EAttach "Error checking destination in content" TEXT) ;;
         ret destination_in_content) ;;
  return_ (url_contains_destination || title_contains_destination
           || destination_in_content).

Definition get_results_count : M Z Z :=
  n <- unlogged search_results_get_results_count ;;
  return_ n.

Definition result_test_ids : list string :=
  [ "card-container"; "listing-card"; "explore-footer" ].

Definition result_selectors : list string :=
  [ "[itemprop='itemListElement']"; "div[role='main']"; "main[id='site-content']" ].

Definition empty_selectors : list string :=
  [ "div:has-text('No results found')"; "div:has-text('We couldn\'t find any')" ].

Definition homepage_test_ids : list string := [ "home-search-form"; "home-banner" ].

Definition homepage_selectors : list string := [ "header:has-text('Airbnb it')" ].

Definition is_search_successful : M bool bool :=
  unlogged (screenshot_path "test-results/check-search-success.png") ;;
  try_except
    (for_each result_test_ids tt
       (fun test_id _ =>
          try_except
            (let container :=
               Locator primary ("[data-testid='" ++ test_id ++ "']")%string in
             v <- driver (is_visible (First container) 2000)
                         (EIsVisible (First container) 2000) ;;
             if v then return_ true else ret (KeepGoing tt))
            (fun _ => ret (KeepGoing tt))) ;;
     for_each result_selectors tt
       (fun selector _ =>
          let container := First (Locator primary selector) in
          v <- driver (is_visible container 2000) (EIsVisible container 2000) ;;
          if v then return_ true else ret (KeepGoing tt)) ;;
     try_except
       (let empty_test_id := "no-results-section" in
        let empty_state :=
          Locator primary ("[data-testid='" ++ empty_test_id ++ "']")%string in
        v <- driver (is_visible empty_state 1000) (EIsVisible empty_state 1000) ;;
        if v then return_ false else ret tt)
       (fun _ => ret tt) ;;
     for_each empty_selectors tt
       (fun selector _ =>
          let empty_state := First (Locator primary selector) in
          v <- driver (is_visible empty_state 1000) (EIsVisible empty_state 1000) ;;
          if v then return_ false else ret (KeepGoing tt)) ;;
     for_each homepage_test_ids tt
       (fun test_id _ =>
          try_except
            (let indicator :=
               Locator primary ("[data-testid='" ++ test_id ++ "']")%string in
             v <- driver (is_visible indicator 1000) (EIsVisible indicator 1000) ;;
             if v then return_ false else ret (KeepGoing tt))
            (fun _ => ret (KeepGoing tt))) ;;
     for_each homepage_selectors tt
       (fun selector _ =>
          let indicator := First (Locator primary selector) in
          v <- driver (is_visible indicator 1000) (EIsVisible indicator 1000) ;;
          if v then return_ false else ret (KeepGoing tt)) ;;
     u <- driver (url primary) (EUrl primary) ;;
     let current_url := lower u in
     if contains "/s/" current_url || contains "search_type" current_url
     then return_ true
     else
       n <- invoke get_results_count ;;
       return_ (0 <? n))
    (fun e =>
       driver (screenshot false) (EScreenshot false) ;;
       emit (EAttach "Search success check error" PNG) ;;
       emit (EAttach "Error details" TEXT) ;;
       return_ false).

Definition validate_highest_rated_listing_details
           (adults_count child_count check_in_days_from_now check_out_days_from_now : Z)
  : M unit unit :=
  dates <- unlogged (search_bar_calc_dates check_in_days_from_now
                                           check_out_days_from_now) ;;
  let '(check_in_formatted, check_out_formatted) := dates in
  emit (ELog INFO "New page opened") ;;
  unlogged (popup_wait_for_load_state "networkidle" 30000) ;;
  emit (ELog INFO "New page loaded") ;;
  unlogged popup_screenshot ;;
  emit (EAttach "New listing page" PNG) ;;
  let check_in_element :=
    Locator popup (attr_selector "data-testid" "change-dates-checkIn") in
  let check_out_element :=
    Locator popup (attr_selector "data-testid" "change-dates-checkOut") in
  let guests_number_element :=
    Locator popup (attr_selector "id" "GuestPicker-book_it-trigger") in
  v <- driver (is_visible check_in_element 5000) (EIsVisible check_in_element 5000) ;;
  if v
  then
    check_in_text <- driver (inner_text check_in_element) (EInnerText check_in_element) ;;
    check_out_text <- driver (inner_text check_out_element)
                             (EInnerText check_out_element) ;;
    guests_number_text <- driver (inner_text guests_number_element)
                                 (EInnerText guests_number_element) ;;
    emit (ELog INFO "Check-in date found: {check_in_text}") ;;
    emit (ELog INFO "Check-out date found: {check_out_text}") ;;
    emit (ELog INFO "Guests number found: {guests_number_text}") ;;
    check_in_text <- unlogged (search_results_convert_date_format check_in_text) ;;
    check_out_text <- unlogged (search_results_convert_date_format check_out_text) ;;
    guests_number_text <- lift (py_int (split_first "guests" guests_number_text)) ;;
    try_except_AssertionError
      (emit (ELog INFO "asserting check-in date") ;;
       py_assert (String.eqb check_in_text check_in_formatted) ;;
       emit (ELog INFO "asserting check-out date") ;;
       py_assert (String.eqb check_out_text check_out_formatted) ;;
       emit (ELog INFO "asserting guests number") ;;
       py_assert (guests_number_text =? adults_count + child_count))
      (fun e =>
         emit (ELog ERROR "highest listing card details validation failed: {e}") ;;
         driver (screenshot false) (EScreenshot false) ;;
         emit (EAttach "highest listing card details validation error" PNG) ;;
         raise e)
  else ret tt.

Definition update_highest_rated_listing_date
           (check_in_days_from_now check_out_days_from_now new_delta_days : Z)
  : M unit unit :=
  dates <- unlogged (search_bar_calc_dates (check_in_days_from_now + new_delta_days)
                                           (check_out_days_from_now + new_delta_days)) ;;
  let '(check_in_formatted, check_out_formatted) := dates in
  emit (ELog INFO "delta {new_delta_days}") ;;
  invoke (check_availability check_in_formatted check_out_formatted) ;;
  ret tt.

End Collaborating.
End SearchResultsPage.
(** ** Reading the event log *)

(** The locators whose [count()] was asked, in order. *)
Definition probed (tr : trace) : list locator :=
  flat_map (fun e => match e with ECount l _ => [l] | _ => [] end) tr.

(** The visibility checks made, in order, with their answers. *)
Definition visibility_checks (tr : trace) : list (locator * result bool) :=
  flat_map (fun e => match e with EIsVisible l _ r => [(l, r)] | _ => [] end) tr.

Definition surface_eqb (a b : surface) : bool :=
  match a, b with
  | primary, primary => true
  | popup, popup => true
  | _, _ => false
  end.

Fixpoint locator_eqb (a b : locator) : bool :=
  match a, b with
  | Locator s sel, Locator s' sel' => surface_eqb s s' && String.eqb sel sel'
  | First l, First l' => locator_eqb l l'
  | Nth l i, Nth l' i' => locator_eqb l l' && Nat.eqb i i'
  | _, _ => false
  end.

(** The clicks attempted on [l], with their answers. *)
Definition clicks_on (l : locator) (tr : trace) : list (result unit) :=
  flat_map (fun e => match e with
                     | EClick l' r => if locator_eqb l l' then [r] else []
                     | _ => []
                     end) tr.

(** The texts read, in order. *)
Definition inner_texts (tr : trace) : list (locator * result string) :=
  flat_map (fun e => match e with EInnerText l r => [(l, r)] | _ => [] end) tr.

(** The screenshots taken. *)
Definition screenshots (tr : trace) : list (result unit) :=
  flat_map (fun e => match e with EScreenshot _ r => [r] | _ => [] end) tr.

(** The addresses read. *)
Definition urls_read (tr : trace) : list (result string) :=
  flat_map (fun e => match e with EUrl _ r => [r] | _ => [] end) tr.

Definition resizes (tr : trace) : list viewport :=
  flat_map (fun e => match e with ESetViewportSize v _ => [v] | _ => [] end) tr.

(** A probe that found the day rendered and marked blocked. *)
Definition blocked_observation (e : event) : bool :=
  match e with
  | EGetAttribute _ name (Ok a) =>
      String.eqb name "data-is-day-blocked" && SearchResultsPage.is_true_attr a
  | _ => false
  end.

(** A grid query that raised. *)
Definition query_raised (e : event) : bool :=
  match e with
  | ECount _ (Raised _) => true
  | EGetAttribute _ _ (Raised _) => true
  | _ => false
  end.

Definition is_visible_true (r : result bool) : bool :=
  match r with Ok true => true | _ => false end.

(** The key the scanner probes for a day, and the key it clicks for a day
    used as an anchor of the range. *)
Definition day_locator (d : datetime) : locator :=
  Locator popup (SearchResultsPage.calendar_day_selector (strftime_dmY d)).

Definition anchor_locator (d : datetime) : locator :=
  Locator popup (SearchResultsPage.calendar_day_selector (strftime_mdY d)).

(** The days [start + timedelta(days=i)] for [i] in [range(days_to_check)]. *)
Definition days_of_range (start_date end_date : datetime) : list datetime :=
  map (fun day_offset => _ord2ymd (toordinal start_date + day_offset))
      (range (sub_days end_date start_date + 1)).

(** ** A scripted browser

    A small concrete driver, to run the page objects on. *)
Module Mock.

Record page : Type := Page {
  viewport_ : option viewport;
  (** the days rendered in the calendar grid, by the text of their key,
      with their [data-is-day-blocked] attribute *)
  grid : list (string * string);
  (** selectors with a visible match on the primary page *)
  visible : list string;
  (** selectors and load states on which the driver raises *)
  broken : list string;
  adults : Z;
  children : Z;
  address : string
}.

Definition mem (s : string) (l : list string) : bool := existsb (String.eqb s) l.

Fixpoint lookup (k : string) (g : list (string * string)) : option string :=
  match g with
  | [] => None
  | (k', v) :: g' => if String.eqb k k' then Some v else lookup k g'
  end.

Fixpoint selector_of (l : locator) : string :=
  match l with
  | Locator _ sel => sel
  | First l' => selector_of l'
  | Nth l' _ => selector_of l'
  end.

Definition timeout_error : exn := PlaywrightError "Timeout exceeded".

Definition guard {A} (key : string) (a : A) (p : page) : result A * page :=
  if mem key (broken p) then (Raised timeout_error, p) else (Ok a, p).

Definition day_key (sel : string) (p : page) : option string :=
  lookup sel (map (fun kv => (SearchResultsPage.calendar_day_selector (fst kv), snd kv))
                  (grid p)).

Definition guests_text (p : page) : string :=
  (py_str (adults p + children p) ++ " guests")%string.

Definition children_text (p : page) : string :=
  (py_str (children p) ++ (if (children p =? 1)%Z then " child" else " children"))%string.

Definition set_viewport (v : viewport) (p : page) : page :=
  Page (Some v) (grid p) (visible p) (broken p) (adults p) (children p) (address p).

Definition set_children (n : Z) (p : page) : page :=
  Page (viewport_ p) (grid p) (visible p) (broken p) (adults p) n (address p).

Definition set_address (a : string) (p : page) : page :=
  Page (viewport_ p) (grid p) (visible p) (broken p) (adults p) (children p) a.

Definition do_click (l : locator) (p : page) : result unit * page :=
  let sel := selector_of l in
  if mem sel (broken p) then (Raised timeout_error, p)
  else if String.eqb sel
            (selector_of SearchResultsPage.reduce_child_count_element)
  then (Ok tt, set_children (Z.max 0 (children p - 1)) p)
  else if String.eqb sel (attr_selector "data-testid" "homes-pdp-cta-btn")
  then (Ok tt, set_address (address p ++ "book/stays")%string p)
  else if String.prefix "[data-testid=" sel
  then match day_key sel p with
       | Some _ => (Ok tt, p)
       | None => (Raised timeout_error, p)
       end
  else (Ok tt, p).

Definition do_inner_text (l : locator) (p : page) : result string * page :=
  let sel := selector_of l in
  if String.eqb sel (selector_of SearchResultsPage.guests_button)
  then guard sel (guests_text p) p
  else if String.eqb sel (selector_of SearchResultsPage.current_child_count_element)
  then guard sel (children_text p) p
  else guard sel EmptyString p.

#[export] Instance browser : Browser page := {
  viewport_size := viewport_;
  set_viewport_size := fun v p => (Ok tt, set_viewport v p);
  bring_to_front := fun p => (Ok tt, p);
  wait_for_timeout := fun _ p => (Ok tt, p);
  wait_for_load_state := fun state _ p => guard state tt p;
  wait_for_selector := fun sel _ p => guard sel tt p;
  screenshot := fun _ p => guard "screenshot" tt p;
  goto := fun u _ p => guard u tt (set_address u p);
  url := fun s p => guard "url" (address p) p;
  is_visible := fun l _ p => guard (selector_of l) (mem (selector_of l) (visible p)) p;
  count := fun l p =>
    guard (selector_of l)
          (match day_key (selector_of l) p with Some _ => 1%nat | None => 0%nat end) p;
  get_attribute := fun l _ p => guard (selector_of l) (day_key (selector_of l) p) p;
  click := do_click;
  inner_text := do_inner_text;
  all := fun l p => guard (selector_of l) 2%nat p
}.

(** A listing page: June 10 and 11 free, June 12 blocked, two adults and
    one child in the guest picker. *)
Definition listing : page :=
  {| viewport_ := Some (Viewport 1920 1080);
     grid := [("10/06/2025", "false"); ("11/06/2025", "false"); ("12/06/2025", "true")];
     visible := ["header"; "[data-testid='little-search']"; "footer"];
     broken := [];
     adults := 2;
     children := 1;
     address := "https://www.airbnb.com/rooms/1" |}.

(** A day of June 2025. *)
Definition june (d : Z) : datetime := Datetime 2025 6 d.

(** The same page with the viewport drifted. *)
Definition drifted : page :=
  Page (Some (Viewport 1280 720)) (grid listing) (visible listing) (broken listing)
       (adults listing) (children listing) (address listing).

(** The same page on which the load-state waits, the indicators and the
    wait for any content all time out. *)
Definition stalled : page :=
  Page (viewport_ listing) (grid listing) []
       ["domcontentloaded"; "networkidle"; "body > *"]
       (adults listing) (children listing) (address listing).

End Mock.

(** ** The logs a scan can leave

    [scan_log sa ea days r tr]: scanning [days] with the anchors [sa] and
    [ea] can answer [r] and leave the log [tr].  Each day contributes its
    probe; a rendered day adds the attribute read, a day missing from the
    grid adds the attempt to click the two anchors. *)
Inductive gap_clicks (sa ea : locator) : trace -> Prop :=
| gap_both :
    gap_clicks sa ea [EClick sa (Ok tt); EClick ea (Ok tt)]
| gap_end_failed (e : exn) :
    gap_clicks sa ea
      [EClick sa (Ok tt); EClick ea (Raised e); ELog INFO "added new dates"]
| gap_start_failed (e : exn) :
    gap_clicks sa ea [EClick sa (Raised e); ELog INFO "added new dates"].

(** What one turn of the loop, for the day [d], can do. *)
Inductive day_log (sa ea : locator) (d : datetime)
  : outcome (bool * option string) (ctl unit) -> trace -> Prop :=
| day_clear c a :
    (0 < c)%nat ->
    SearchResultsPage.is_true_attr a = false ->
    day_log sa ea d (Normal (KeepGoing tt))
      [ECount (day_locator d) (Ok c);
       EGetAttribute (First (day_locator d)) "data-is-day-blocked" (Ok a)]
| day_blocked c :
    (0 < c)%nat ->
    day_log sa ea d (Return (true, Some (strftime_dmY d)))
      [ECount (day_locator d) (Ok c);
       EGetAttribute (First (day_locator d)) "data-is-day-blocked" (Ok (Some "true"))]
| day_gap cl :
    gap_clicks sa ea cl ->
    day_log sa ea d (Normal (KeepGoing tt)) (ECount (day_locator d) (Ok 0%nat) :: cl)
| day_count_raised e :
    day_log sa ea d (Raise e) [ECount (day_locator d) (Raised e)]
| day_attr_raised c e :
    (0 < c)%nat ->
    day_log sa ea d (Raise e)
      [ECount (day_locator d) (Ok c);
       EGetAttribute (First (day_locator d)) "data-is-day-blocked" (Raised e)].

Inductive scan_log (sa ea : locator)
  : list datetime -> result (bool * option string) -> trace -> Prop :=
| scan_end :
    scan_log sa ea [] (Ok (false, None)) []
| scan_day_clear d ds c a r tr :
    (0 < c)%nat ->
    SearchResultsPage.is_true_attr a = false ->
    scan_log sa ea ds r tr ->
    scan_log sa ea (d :: ds) r
      (ECount (day_locator d) (Ok c)
       :: EGetAttribute (First (day_locator d)) "data-is-day-blocked" (Ok a)
       :: tr)
| scan_day_blocked d ds c :
    (0 < c)%nat ->
    scan_log sa ea (d :: ds) (Ok (true, Some (strftime_dmY d)))
      [ECount (day_locator d) (Ok c);
       EGetAttribute (First (day_locator d)) "data-is-day-blocked" (Ok (Some "true"))]
| scan_day_gap d ds cl r tr :
    gap_clicks sa ea cl ->
    scan_log sa ea ds r tr ->
    scan_log sa ea (d :: ds) r (ECount (day_locator d) (Ok 0%nat) :: cl ++ tr)
| scan_count_raised d ds e :
    scan_log sa ea (d :: ds) (Raised e) [ECount (day_locator d) (Raised e)]
| scan_attr_raised d ds c e :
    (0 < c)%nat ->
    scan_log sa ea (d :: ds) (Raised e)
      [ECount (day_locator d) (Ok c);
       EGetAttribute (First (day_locator d)) "data-is-day-blocked" (Raised e)].

(** The result the scan hands back when its loop ends with [o]. *)
Definition scan_result (o : outcome (bool * option string) unit)
  : result (bool * option string) :=
  match o with
  | Normal _ => Ok (false, None)
  | Return v => Ok v
  | Raise e => Raised e
  end.

(** ** Chains of visibility checks *)

Definition not_visible (c : locator * result bool) : bool :=
  negb (is_visible_true (snd c)).

(** [page.locator(f"[data-testid='{test_id}']").first] *)
Definition testid_locator (test_id : string) : locator :=
  First (Locator primary ("[data-testid='" ++ test_id ++ "']")%string).

(** [page.locator(selector).first] *)
Definition css_locator (selector : string) : locator :=
  First (Locator primary selector).

(** The candidates were checked in the order of the chain and the last
    check is the first that answered visible. *)
Definition chain_stopped_at_first_visible
           (chain : list locator) (checks : list (locator * result bool)) : Prop :=
  map fst checks = firstn (List.length checks) chain /\
  exists pre l, checks = pre ++ [(l, Ok true)] /\ forallb not_visible pre = true.

(** The whole chain was checked, in order, and no check answered visible. *)
Definition chain_exhausted
           (chain : list locator) (checks : list (locator * result bool)) : Prop :=
  map fst checks = chain /\ forallb not_visible checks = true.

(** Some first candidates were checked, in order, none answered visible. *)
Definition chain_cut_short
           (chain : list locator) (checks : list (locator * result bool)) : Prop :=
  map fst checks = firstn (List.length checks) chain /\
  forallb not_visible checks = true.

Section IndicatorLoop.
Context {world : Type} {B : Browser world}.

(** The shape the two indicator loops of [wait_for_page_load] share. *)
Definition indicator_loop (locate : string -> locator)
           (gone found not_found : string) (names : list string) : M unit unit :=
  for_each names tt
    (fun name _ =>
       available <- invoke SearchResultsPage._is_page_available ;;
       if negb available
       then emit (ELog ERROR gone) ;; return_ tt
       else
         try_except
           (v <- driver (is_visible (locate name) 2000) (EIsVisible (locate name) 2000) ;;
            if v
            then
              emit (EAttach "Page Load Success" TEXT) ;;
              emit (ELog INFO found) ;;
              return_ tt
            else ret (KeepGoing tt))
           (fun e => emit (ELog INFO not_found) ;; ret (KeepGoing tt))).

(** The driver keeps the size it was given: what [set_viewport_size]
    set is what [viewport_size] reads, and neither bringing the window to
    front nor waiting changes it. *)
Definition keeps_viewport : Prop :=
  (forall v w w', set_viewport_size v w = (Ok tt, w') -> viewport_size w' = Some v) /\
  (forall w w', bring_to_front w = (Ok tt, w') -> viewport_size w' = viewport_size w) /\
  (forall ms w w', wait_for_timeout ms w = (Ok tt, w') ->
                   viewport_size w' = viewport_size w).

(** A block that leaves no event of the kind [trig] in the log. *)
Definition silent (trig : event -> bool) {R A} (m : M (world:=world) R A) : Prop :=
  forall w, existsb trig (snd (m w)) = false.
End IndicatorLoop.

(** ** Logs in which every trigger is followed by a given tail *)
Section After.
Variable trig : event -> bool.
Variable tail : trace -> bool.

Fixpoint after (tr : trace) : bool :=
  match tr with
  | [] => true
  | e :: post => (if trig e then tail post else true) && after post
  end.
End After.

(** Whether the call behind an event raised. *)
Definition raised {A} (r : result A) : bool :=
  match r with Raised _ => true | Ok _ => false end.

Definition event_raised (e : event) : bool :=
  match e with
  | ESetViewportSize _ r | EBringToFront r | EWaitForTimeout _ r
  | EWaitForLoadState _ _ r | EWaitForSelector _ _ r | EScreenshot _ r
  | EGoto _ _ r | EClick _ r => raised r
  | EUrl _ r | EInnerText _ r => raised r
  | EIsVisible _ _ r => raised r
  | ECount _ r | EAll _ r => raised r
  | EGetAttribute _ _ r => raised r
  | ELog _ _ | EAttach _ _ => false
  end.

Definition load_state_raised (e : event) : bool :=
  match e with EWaitForLoadState _ _ (Raised _) => true | _ => false end.

Definition found_visible (e : event) : bool :=
  match e with EIsVisible _ _ (Ok true) => true | _ => false end.

Definition fallback_raised (e : event) : bool :=
  match e with EWaitForSelector _ _ (Raised _) => true | _ => false end.

(** The first check of the first indicator chain. *)
Definition first_indicator_check (e : event) : bool :=
  match e with
  | EIsVisible l 2000 _ => locator_eqb l (testid_locator "card-container")
  | _ => false
  end.

Section Blocks.
Context {world : Type}.
Variable trig : event -> bool.
Variable tail : trace -> bool.

(** A block after which the program may go on: its triggers have their
    tails, and none is left pending when it falls through or raises. *)
Definition passes {R A} (m : M (world:=world) R A) : Prop :=
  forall w,
    let '(o, _, tr) := m w in
    after trig tail tr = true /\
    match o with
    | Return _ => True
    | _ => existsb trig tr = false
    end.

(** A block that ends the function, inside a [try] whose handler logs
    [th]. *)
Definition ends (th : trace) {R A} (m : M (world:=world) R A) : Prop :=
  forall w,
    let '(o, _, tr) := m w in
    match o with
    | Raise _ => after trig tail (tr ++ th) = true
    | _ => after trig tail tr = true
    end.
End Blocks.

(** What follows a load-state wait that raised, in [wait_for_page_load]. *)
Definition tail_soft_wait (post : trace) : bool :=
  match post with
  | ELog WARNING m1 :: EAttach n TEXT :: ELog INFO m2 :: EWaitForTimeout 3000 r :: post' =>
      String.eqb m1 "DOM content loaded timed out: {dom_error}"
      && String.eqb n "Load State Timeout"
      && String.eqb m2 "Waiting for JS execution..."
      && (raised r || existsb event_raised post'
          || existsb first_indicator_check post')
  | _ => false
  end.

(** What follows an indicator found visible. *)
Definition tail_found (post : trace) : bool :=
  match post with
  | [EAttach n TEXT; ELog INFO _] => String.eqb n "Page Load Success"
  | _ => false
  end.

(** What follows a last-resort wait that raised. *)
Definition tail_degraded (post : trace) : bool :=
  match post with
  | [ELog WARNING m; EScreenshot false (Ok _); EAttach n PNG; ELog INFO final] =>
      String.eqb m "No content found on page: {e}"
      && String.eqb n "Page loaded without specific indicators"
      && String.eqb final "Page loaded without finding specific indicators"
  | [ELog WARNING m; EScreenshot false (Raised _); ELog WARNING m'; ELog INFO final] =>
      String.eqb m "No content found on page: {e}"
      && String.eqb m' "Failed to take final screenshot: {screenshot_error}"
      && String.eqb final "Page loaded without finding specific indicators"
  | _ => false
  end.

(** What follows a load-state wait that raised, in [navigate]. *)
Definition tail_navigate_wait (post : trace) : bool :=
  match post with
  | ELog WARNING _ :: post' =>
      existsb (fun e => match e with
                        | EIsVisible l 5000 _ => locator_eqb l HomePage.logo
                        | _ => false
                        end) post'
  | _ => false
  end.

Section Reaching.
Context {world : Type}.

(** A block that gets to the first indicator check unless a call raises. *)
Definition reaches {R A} (m : M (world:=world) R A) : Prop :=
  forall w,
    let '(_, _, tr) := m w in
    existsb event_raised tr || existsb first_indicator_check tr = true.

(** A block that falls through unless a call raises. *)
Definition falls_through {R A} (m : M (world:=world) R A) : Prop :=
  forall w,
    let '(o, _, tr) := m w in
    existsb event_raised tr = true \/ exists a, o = Normal a.
End Reaching.

(** What the handler of [wait_for_page_load] logs. *)
Definition handler_log : trace :=
  [ELog ERROR "Error waiting for page to load: {e}"; EAttach "Page load error" TEXT].

(** ** Reading the log of the search results checks *)

(** A text read off the page contains [needle], letter case apart. *)
Definition shows (needle : string) (e : event) : bool :=
  match e with
  | EInnerText _ (Ok txt) => contains needle (lower txt)
  | _ => false
  end.

(** The attachment [verify_search_results] writes when a check of the
    page content raised. *)
Definition content_error (e : event) : bool :=
  match e with
  | EAttach n TEXT => String.eqb n "Error checking destination in content"
  | _ => false
  end.

(** The attachment [is_search_successful] writes when a check raised. *)
Definition success_check_error (e : event) : bool :=
  match e with
  | EAttach n TEXT => String.eqb n "Error details"
  | _ => false
  end.

(** A visibility check, made with the timeout [t], that answered visible. *)
Definition seen_within (t : Z) (e : event) : bool :=
  match e with
  | EIsVisible _ t' (Ok true) => t' =? t
  | _ => false
  end.

(** An address read that looks like one of a results page. *)
Definition results_address (e : event) : bool :=
  match e with
  | EUrl primary (Ok u) => contains "/s/" (lower u) || contains "search_type" (lower u)
  | _ => false
  end.

(** A visibility check that did not find its element: it answered "not
    visible" or raised. *)
Definition hidden_check (e : event) : bool :=
  match e with
  | EIsVisible _ _ (Ok false) | EIsVisible _ _ (Raised _) => true
  | _ => false
  end.

Section Verdicts.
Context {world : Type} {C : Collaborators world}.

(** How a block of visibility checks of [is_search_successful] ends: it
    falls through or raises after checks that found nothing, or it
    returns at the first element seen, [True] for a check made with the
    timeout of the result containers (2000), [False] otherwise. *)
Definition screened {A} (o : outcome bool A) (t : trace) : Prop :=
  match o with
  | Return r =>
      exists pre l tmo,
        t = pre ++ [EIsVisible l tmo (Ok true)] /\
        forallb hidden_check pre = true /\ r = (tmo =? 2000)
  | _ => forallb hidden_check t = true
  end.

(** How the body of [is_search_successful] ends, leaving the page as
    [w']: at an element seen, at the address, or at the count of the
    results, which left the page so; or it raises after checks that found
    nothing, the read of the address included. *)
Definition decided {A} (o : outcome bool A) (w' : world) (t : trace) : Prop :=
  match o with
  | Normal _ => False
  | Return r =>
      (exists pre l tmo,
          t = pre ++ [EIsVisible l tmo (Ok true)] /\
          forallb hidden_check pre = true /\ r = (tmo =? 2000)) \/
      (exists pre u,
          t = pre ++ [EUrl primary (Ok u)] /\ forallb hidden_check pre = true /\
          if contains "/s/" (lower u) || contains "search_type" (lower u)
          then r = true
          else exists w1 n,
              search_results_get_results_count w1 = (Ok n, w') /\ r = (0 <? n))
  | Raise e =>
      forallb hidden_check t = true \/
      exists pre r, t = pre ++ [EUrl primary r] /\ forallb hidden_check pre = true
  end.
End Verdicts.

(** A visibility check that answered "not visible". *)
Definition hidden_answer (e : event) : bool :=
  match e with
  | EIsVisible _ _ (Ok false) => true
  | _ => false
  end.

(** ** Reading the log of the listing operations *)

(** [reserve_button_element[1]], the second match of the reserve button. *)
Definition reserve_button : locator :=
  Nth (Locator popup (attr_selector "data-testid" "homes-pdp-cta-btn")) 1.

(** The clicks attempted, in order, with their answers. *)
Definition clicks (tr : trace) : list (locator * result unit) :=
  flat_map (fun e => match e with EClick l r => [(l, r)] | _ => [] end) tr.

(** ** Reading the log of the home page *)

(** A visibility check that answered "not visible", without raising. *)
Definition answered_hidden (c : locator * result bool) : bool :=
  match snd c with Ok false => true | _ => false end.

(** A visibility check that raised. *)
Definition check_raised (c : locator * result bool) : bool :=
  match snd c with Raised _ => true | _ => false end.

Section DismissLoop.
Context {world : Type} {B : Browser world}.

(** The shape the four loops of [_handle_popups] share. *)
Definition dismiss_loop (locate : string -> locator) (names : list string)
  : M unit unit :=
  for_each names tt
    (fun name _ =>
       try_except
         (let button := locate name in
          v <- driver (is_visible button 1000) (EIsVisible button 1000) ;;
          if v
          then
            driver (click button) (EClick button) ;;
            driver (wait_for_timeout 1000) (EWaitForTimeout 1000) ;;
            ret (BreakWith tt)
          else ret (KeepGoing tt))
         (fun _ => ret (KeepGoing tt))).
End DismissLoop.

(** [page.locator(f"[data-testid='{test_id}']")], without [.first] *)
Definition testid_all_locator (test_id : string) : locator :=
  Locator primary ("[data-testid='" ++ test_id ++ "']")%string.

(** The log one loop of [_handle_popups] can leave over its candidates: a
    candidate is passed when it is not visible or when its check, its click
    or the wait after the click raises; the loop ends with the first
    candidate seen visible, clicked and waited for. *)
Inductive dismiss_log : list locator -> trace -> Prop :=
| dismiss_none :
    dismiss_log [] []
| dismiss_hidden l ls tr :
    dismiss_log ls tr ->
    dismiss_log (l :: ls) (EIsVisible l 1000 (Ok false) :: tr)
| dismiss_check_raised l ls e tr :
    dismiss_log ls tr ->
    dismiss_log (l :: ls) (EIsVisible l 1000 (Raised e) :: tr)
| dismiss_click_raised l ls e tr :
    dismiss_log ls tr ->
    dismiss_log (l :: ls)
      (EIsVisible l 1000 (Ok true) :: EClick l (Raised e) :: tr)
| dismiss_wait_raised l ls e tr :
    dismiss_log ls tr ->
    dismiss_log (l :: ls)
      (EIsVisible l 1000 (Ok true) :: EClick l (Ok tt)
       :: EWaitForTimeout 1000 (Raised e) :: tr)
| dismiss_done l ls :
    dismiss_log (l :: ls)
      [EIsVisible l 1000 (Ok true); EClick l (Ok tt); EWaitForTimeout 1000 (Ok tt)].

(** Every click comes right after a check of the same element that
    answered visible. *)
Definition clicks_follow_checks (tr : trace) : Prop :=
  forall pre l r post,
    tr = pre ++ EClick l r :: post ->
    exists pre', pre = pre' ++ [EIsVisible l 1000 (Ok true)].

(** ** Failures that end a navigation *)

(** The exception a logged call raised. *)
Definition exception_of (e : event) : option exn :=
  match e with
  | ESetViewportSize _ (Raised x) | EBringToFront (Raised x)
  | EWaitForTimeout _ (Raised x) | EWaitForLoadState _ _ (Raised x)
  | EWaitForSelector _ _ (Raised x) | EScreenshot _ (Raised x)
  | EGoto _ _ (Raised x) | EClick _ (Raised x) => Some x
  | EUrl _ (Raised x) | EInnerText _ (Raised x) => Some x
  | EIsVisible _ _ (Raised x) => Some x
  | ECount _ (Raised x) | EAll _ (Raised x) => Some x
  | EGetAttribute _ _ (Raised x) => Some x
  | _ => None
  end.

(** A failure of one of the calls [navigate] makes outside its inner
    [try] blocks: the calls of the viewport guard, [goto] and the read of
    the address. *)
Definition navigation_failure (e : event) : bool :=
  match e with
  | ESetViewportSize _ (Raised _) | EBringToFront (Raised _)
  | EWaitForTimeout _ (Raised _) | EGoto _ _ (Raised _) | EUrl _ (Raised _) => true
  | _ => false
  end.

(** How the handler of [navigate] closes the log, after a screenshot that
    answered [r]. *)
Definition navigation_error_report (r : result unit) : trace :=
  [ ELog ERROR "Error navigating to Airbnb homepage: {e}";
    EScreenshot false r;
    match r with
    | Ok _ => EAttach "Navigation Error" PNG
    | Raised _ =>
        ELog ERROR "Could not take screenshot after navigation error: {screenshot_error}"
    end ].

Section Propagation.
Context {world : Type}.
Variable failure : event -> bool.

(** A block out of which an exception comes only from a [failure], the
    last event of its log and the first failure in it. *)
Definition propagates {R A} (m : M (world:=world) R A) : Prop :=
  forall w,
    let '(o, _, t) := m w in
    match o with
    | Raise e =>
        exists pre c,
          t = pre ++ [c] /\ failure c = true /\ exception_of c = Some e /\
          existsb failure pre = false
    | _ => existsb failure t = false
    end.

(** A block that lets no exception out and logs no [failure]. *)
Definition absorbs {R A} (m : M (world:=world) R A) : Prop :=
  forall w,
    let '(o, _, t) := m w in
    existsb failure t = false /\
    match o with
    | Raise _ => False
    | _ => True
    end.
End Propagation.

(** ** A page that is gone *)

(** [_is_page_available] found the page gone: reading the address raised. *)
Definition page_gone (e : event) : bool :=
  match e with
  | EUrl primary (Raised _) => true
  | _ => false
  end.

(** What [wait_for_page_load] logs when it gives up on a page that is gone. *)
Definition gone_messages : list string :=
  [ "Page is no longer available";
    "Page is no longer available after load states";
    "Page is no longer available while checking load indicators";
    "Page is no longer available while checking generic selectors" ].

(** What follows a check that found the page gone: the detector gives up
    with one of its error lines, or, at the last check, skips the wait for
    any content and closes with the final screenshot and line. *)
Definition tail_page_gone (post : trace) : bool :=
  match post with
  | [ELog ERROR m] => existsb (String.eqb m) gone_messages
  | [EScreenshot false (Ok _); EAttach n PNG; ELog INFO final] =>
      String.eqb n "Page loaded without specific indicators"
      && String.eqb final "Page loaded without finding specific indicators"
  | [EScreenshot false (Raised _); ELog WARNING m; ELog INFO final] =>
      String.eqb m "Failed to take final screenshot: {screenshot_error}"
      && String.eqb final "Page loaded without finding specific indicators"
  | _ => false
  end.

(** ** Numbers in the labels of the guest picker *)

(** The number a string of decimal digits writes, read from the left. *)
Fixpoint uint_val (acc : Z) (d : Decimal.uint) : Z :=
  match d with
  | Decimal.Nil => acc
  | Decimal.D0 l => uint_val (acc * 10 + 0) l
  | Decimal.D1 l => uint_val (acc * 10 + 1) l
  | Decimal.D2 l => uint_val (acc * 10 + 2) l
  | Decimal.D3 l => uint_val (acc * 10 + 3) l
  | Decimal.D4 l => uint_val (acc * 10 + 4) l
  | Decimal.D5 l => uint_val (acc * 10 + 5) l
  | Decimal.D6 l => uint_val (acc * 10 + 6) l
  | Decimal.D7 l => uint_val (acc * 10 + 7) l
  | Decimal.D8 l => uint_val (acc * 10 + 8) l
  | Decimal.D9 l => uint_val (acc * 10 + 9) l
  end.

(** A click on an element that is not one of [allowed]. *)
Definition click_outside (allowed : list locator) (e : event) : bool :=
  match e with
  | EClick l _ => negb (existsb (locator_eqb l) allowed)
  | _ => false
  end.

(** The line the removal logs when one of its assertions failed. *)
Definition removal_failed (e : event) : bool :=
  match e with
  | ELog INFO m => String.eqb m "updating the child number failed: {e}"
  | _ => false
  end.

(** ** The waits and checks of a readiness detection *)

(** The calls that tell whether a page is ready: load-state waits,
    visibility checks and waits for a selector. *)
Definition readiness_call (e : event) : bool :=
  match e with
  | EWaitForLoadState _ _ _ | EIsVisible _ _ _ | EWaitForSelector _ _ _ => true
  | _ => false
  end.

(** Those calls of a log, in the order they were made. *)
Definition readiness_calls (tr : trace) : trace := filter readiness_call tr.

(** A readiness call other than a visibility check made with [timeout]. *)
Definition other_call (timeout : Z) (e : event) : bool :=
  match e with
  | EIsVisible _ t _ => negb (t =? timeout)
  | EWaitForLoadState _ _ _ | EWaitForSelector _ _ _ => true
  | _ => false
  end.

(** A visibility check as the log records it. *)
Definition check_event (timeout : Z) (c : locator * result bool) : event :=
  EIsVisible (fst c) timeout (snd c).

(** What keeps [wait_for_page_load] from going on: a call of the viewport
    guard or the pause for scripts raised, or the page is gone (reading its
    address raised). *)
Definition detection_failure (e : event) : bool :=
  match e with
  | ESetViewportSize _ (Raised _) | EBringToFront (Raised _)
  | EWaitForTimeout _ (Raised _) | EUrl _ (Raised _) => true
  | _ => false
  end.

(** The candidates of [wait_for_page_load], in the order of its two loops. *)
Definition indicator_chain : list locator :=
  map testid_locator SearchResultsPage.load_indicators
  ++ map css_locator SearchResultsPage.generic_selectors.

(** The readiness calls of a log that, after the calls [lead], went over
    the indicators: up to the first one seen visible, or over all of them
    and on to the wait for any content and the closing line. *)
Definition probed_chain (lead : trace) (tr : trace) : Prop :=
  exists checks,
    (chain_stopped_at_first_visible indicator_chain checks /\
     readiness_calls tr = lead ++ map (check_event 2000) checks) \/
    (chain_exhausted indicator_chain checks /\
     exists r pre,
       readiness_calls tr
       = lead ++ map (check_event 2000) checks ++ [EWaitForSelector "body > *" 5000 r] /\
       tr = pre ++ [ELog INFO "Page loaded without finding specific indicators"]).

(** The readiness calls of a navigation that got to its key elements. *)
Definition probed_key_elements (tr : trace) : Prop :=
  exists r1 r2 checks,
    readiness_calls tr
    = EWaitForLoadState "networkidle" 30000 r1
      :: EWaitForLoadState "domcontentloaded" 15000 r2
      :: map (check_event 5000) checks /\
    (chain_stopped_at_first_visible HomePage.selectors_to_try checks \/
     chain_exhausted HomePage.selectors_to_try checks).

Section Progress.
Context {world : Type}.
Variable failure : event -> bool.

(** A block that makes no readiness call and falls through unless it logs
    a failure. *)
Definition idles {R A} (m : M (world:=world) R A) : Prop :=
  forall w,
    let '(o, _, t) := m w in
    existsb readiness_call t = false /\
    match o with
    | Normal _ => True
    | _ => existsb failure t = true
    end.

(** A block that raises only after a logged failure, and whose log
    satisfies [P] unless it holds a failure. *)
Definition proceeds (P : trace -> Prop) {R A} (m : M (world:=world) R A) : Prop :=
  forall w,
    let '(o, _, t) := m w in
    match o with
    | Raise _ => existsb failure t = true
    | _ => existsb failure t = true \/ P t
    end.
End Progress.

(** ** More of the scripted browser

    What the page objects ask outside the event log, answered for the
    scripted page, and a listing tab whose calendar controls respond. *)
Module MockSuite.
Import Mock.

(** The scripted page titles itself after Amsterdam, counts 18 results and
    hands back the dates it is given. *)
#[export] Instance collaborators : Collaborators page := {
  title := fun p => guard "title" "Amsterdam - Holiday Rentals" p;
  screenshot_path := fun _ p => guard "screenshot" tt p;
  popup_wait_for_load_state := fun state _ p => guard state tt p;
  popup_screenshot := fun p => guard "screenshot" tt p;
  search_results_get_results_count := fun p => guard "results" 18 p;
  search_bar_calc_dates := fun _ _ p => guard "dates" ("6/10/2025", "6/12/2025") p;
  search_results_convert_date_format := fun text p => guard "dates" text p
}.

(** The scripted page in a tab: the check-in button and the save button of
    the calendar respond to a click, the guest button reads [label] when
    one is given, and [reserve_buttons] elements match the reserve
    button. *)
Record tab : Type := Tab {
  shown : page;
  label : option string;
  reserve_buttons : nat
}.

Definition on_page {A} (f : page -> result A * page) (t : tab)
  : result A * tab :=
  let (r, p) := f (shown t) in (r, Tab p (label t) (reserve_buttons t)).

Definition calendar_controls : list string :=
  map selector_of
      [SearchResultsPage.check_in_button_element; SearchResultsPage.close_cal].

Definition tab_click (l : locator) (t : tab) : result unit * tab :=
  if mem (selector_of l) calendar_controls
  then (Ok tt, t)
  else on_page (click l) t.

Definition tab_inner_text (l : locator) (t : tab) : result string * tab :=
  match label t with
  | Some text =>
      if String.eqb (selector_of l)
                    (selector_of SearchResultsPage.guests_button)
      then (Ok text, t)
      else on_page (inner_text l) t
  | None => on_page (inner_text l) t
  end.

Definition tab_all (l : locator) (t : tab) : result nat * tab :=
  if String.eqb (selector_of l) (selector_of reserve_button)
  then (Ok (reserve_buttons t), t)
  else on_page (all l) t.

#[export] Instance tab_browser : Browser tab := {
  viewport_size := fun t => viewport_size (shown t);
  set_viewport_size := fun v => on_page (set_viewport_size v);
  bring_to_front := on_page bring_to_front;
  wait_for_timeout := fun ms => on_page (wait_for_timeout ms);
  wait_for_load_state := fun state ms => on_page (wait_for_load_state state ms);
  wait_for_selector := fun sel ms => on_page (wait_for_selector sel ms);
  screenshot := fun full => on_page (screenshot full);
  goto := fun u ms => on_page (goto u ms);
  url := fun s => on_page (url s);
  is_visible := fun l ms => on_page (is_visible l ms);
  count := fun l => on_page (count l);
  get_attribute := fun l name => on_page (get_attribute l name);
  click := tab_click;
  inner_text := tab_inner_text;
  all := tab_all
}.

(** The listing of [Mock] in such a tab, with two reserve buttons. *)
Definition listing_tab : tab := Tab listing None 2.

(** The same for a single guest. *)
Definition single_guest_tab : tab := Tab listing (Some "1 guest") 2.

(** The same with one reserve button only. *)
Definition one_button_tab : tab := Tab listing None 1.

(** A page on which more selectors have a visible match, and one on which
    the driver raises on more keys. *)
Definition showing (selectors : list string) (p : page) : page :=
  Page (viewport_ p) (grid p) (selectors ++ visible p) (broken p)
       (adults p) (children p) (address p).

Definition failing (keys : list string) (p : page) : page :=
  Page (viewport_ p) (grid p) (visible p) (keys ++ broken p)
       (adults p) (children p) (address p).

(** The listing in a tab with a total that stays at 3 whatever is clicked,
    and a screenshot that times out. *)
Definition stale_total : tab := Tab (failing ["screenshot"] listing) (Some "3 guests") 2.

(** The listing with a cookie banner. *)
Definition cookie_banner : page := showing ["button[aria-label*='Accept']"] listing.

(** A page of search results, and the home page after a search that did
    not go through. *)
Definition results_page : page := showing ["[data-testid='listing-card']"] stalled.
Definition still_home : page := showing ["[data-testid='home-banner']"] stalled.

(** The listing with the check of its logo raising, the listing gone
    (its address cannot be read), the site unreachable, and a page of
    another site. *)
Definition broken_logo : page := failing [selector_of HomePage.logo] listing.
Definition gone : page := failing ["url"] listing.
Definition unreachable : page := failing [CONST.BASE_URL] listing.
Definition elsewhere : page := set_address "https://example.org/" listing.

(** The listing on which only the wait for the parsed document times out. *)
Definition slow_document : page := failing ["domcontentloaded"] listing.

End MockSuite.
(** * Facts

    ** The calendar arithmetic *)
Module CalFacts.
Import PyDatetime.

Ltac zdiv := Z.to_euclidean_division_equations; lia.

Lemma month_cases (m : Z) : 1 <= m <= 12 ->
  m = 1 \/ m = 2 \/ m = 3 \/ m = 4 \/ m = 5 \/ m = 6 \/
  m = 7 \/ m = 8 \/ m = 9 \/ m = 10 \/ m = 11 \/ m = 12.
Proof. lia. Qed.

Ltac split_month H :=
  destruct (month_cases H) as
    [->|[->|[->|[->|[->|[->|[->|[->|[->|[->|[->| ->]]]]]]]]]]].

Ltac csimpl :=
  cbn [_DAYS_IN_MONTH _DAYS_BEFORE_MONTH Z.eqb Z.ltb Z.leb Z.compare Pos.eqb
       Pos.compare Pos.compare_cont andb orb negb year month day] in *.

Lemma days_before_year_succ (y : Z) :
  _days_before_year (y + 1) = _days_before_year y + days_in_year y.
Proof.
  unfold _days_before_year, days_in_year, _is_leap.
  replace (y + 1 - 1) with y by lia.
  destruct (y mod 4 =? 0) eqn:E4; destruct (y mod 100 =? 0) eqn:E100;
    destruct (y mod 400 =? 0) eqn:E400; simpl;
    rewrite ?Z.eqb_eq, ?Z.eqb_neq in *; zdiv.
Qed.

Lemma days_before_year_mono (y y' : Z) :
  y <= y' -> _days_before_year y <= _days_before_year y'.
Proof. unfold _days_before_year. intros. zdiv. Qed.

Lemma day_of_year_bounds (d : datetime) :
  valid d ->
  1 <= _days_before_month (year d) (month d) + day d <= days_in_year (year d).
Proof.
  destruct d as [y m d]. unfold valid, _days_in_month, _days_before_month, days_in_year.
  csimpl. intros (_ & Hm & Hd).
  split_month Hm; csimpl; destruct (_is_leap y); csimpl; lia.
Qed.

Lemma toordinal_bounds (d : datetime) :
  valid d -> 1 <= toordinal d <= _MAXORDINAL.
Proof.
  intros Hv. pose proof (day_of_year_bounds Hv) as Hd.
  destruct Hv as ((Hy1 & Hy2) & _).
  unfold toordinal, _ymd2ord.
  pose proof (days_before_year_mono Hy1) as H1.
  assert (H2 : _days_before_year (year d + 1) <= _days_before_year (MAXYEAR + 1))
    by (apply days_before_year_mono; lia).
  rewrite days_before_year_succ in H2.
  change (_days_before_year MINYEAR) with 0 in H1.
  change (_days_before_year (MAXYEAR + 1)) with 3652059 in H2.
  unfold _MAXORDINAL. lia.
Qed.

Lemma toordinal_lt (a b : datetime) :
  valid a -> valid b -> lt a b -> toordinal a < toordinal b.
Proof.
  intros Ha Hb Hlt.
  pose proof (day_of_year_bounds Ha) as Da.
  pose proof (day_of_year_bounds Hb) as Db.
  unfold toordinal, _ymd2ord.
  destruct Hlt as [Hy | (Hy & Hmd)].
  - assert (H : _days_before_year (year a + 1) <= _days_before_year (year b))
      by (apply days_before_year_mono; lia).
    rewrite days_before_year_succ in H. lia.
  - rewrite Hy in *.
    destruct a as [ya ma da], b as [yb mb db]; csimpl.
    destruct Ha as (_ & Hma & Hda), Hb as (_ & Hmb & Hdb); csimpl.
    unfold _days_before_month, _days_in_month in *.
    destruct Hmd as [Hm | (-> & Hd)]; [| lia].
    subst ya.
    split_month Hma; split_month Hmb; csimpl; try lia;
      destruct (_is_leap yb); csimpl; lia.
Qed.

Lemma days_before_year_split (a b c e : Z) :
  0 <= b <= 3 -> 0 <= c <= 24 -> 0 <= e <= 3 ->
  _days_before_year (a * 400 + 1 + b * 100 + c * 4 + e)
  = 146097 * a + 36524 * b + 1461 * c + 365 * e.
Proof. intros. unfold _days_before_year. zdiv. Qed.

Lemma is_leap_split (a b c e : Z) :
  0 <= b <= 3 -> 0 <= c <= 24 -> 0 <= e <= 3 ->
  _is_leap (a * 400 + 1 + b * 100 + c * 4 + e)
  = (e =? 3) && (negb (c =? 24) || (b =? 3)).
Proof.
  intros. unfold _is_leap.
  destruct (e =? 3) eqn:E1; destruct (c =? 24) eqn:E2; destruct (b =? 3) eqn:E3;
  destruct (_ mod 4 =? 0) eqn:E4; destruct (_ mod 100 =? 0) eqn:E5;
  destruct (_ mod 400 =? 0) eqn:E6; try reflexivity; exfalso;
  rewrite ?Z.eqb_eq, ?Z.eqb_neq in *; zdiv.
Qed.

Lemma ord2ymd_toordinal (n : Z) :
  1 <= n <= _MAXORDINAL ->
  valid (_ord2ymd n) /\ toordinal (_ord2ymd n) = n.
Proof.
  intros Hn. unfold _MAXORDINAL in Hn.
  unfold _ord2ymd, _DI400Y, _DI100Y, _DI4Y. cbv zeta.
  rewrite Z.shiftr_div_pow2 by lia. change (2 ^ 5) with 32.
  remember ((n - 1) / 146097) as n400 eqn:E400.
  remember ((n - 1) mod 146097) as r1 eqn:Er1.
  remember (r1 / 36524) as n100 eqn:E100.
  remember (r1 mod 36524) as r2 eqn:Er2.
  remember (r2 / 1461) as n4 eqn:E4.
  remember (r2 mod 1461) as r3 eqn:Er3.
  remember (r3 / 365) as n1 eqn:E1.
  remember (r3 mod 365) as r4 eqn:Er4.
  remember ((r4 + 50) / 32) as m eqn:Em.
  assert (F1 : n - 1 = 146097 * n400 + r1 /\ 0 <= r1 < 146097 /\ 0 <= n400 <= 24)
    by (subst n400 r1; zdiv).
  assert (F2 : r1 = 36524 * n100 + r2 /\ 0 <= r2 < 36524 /\ 0 <= n100 <= 4)
    by (subst n100 r2; zdiv).
  assert (F3 : r2 = 1461 * n4 + r3 /\ 0 <= r3 < 1461 /\ 0 <= n4 <= 24)
    by (subst n4 r3; zdiv).
  assert (F4 : r3 = 365 * n1 + r4 /\ 0 <= r4 < 365 /\ 0 <= n1 <= 4)
    by (subst n1 r4; zdiv).
  assert (F5 : 32 * m <= r4 + 50 < 32 * m + 32 /\ 1 <= m <= 12)
    by (subst m; zdiv).
  clear E400 Er1 E100 Er2 E4 Er3 E1 Er4 Em.
  destruct ((n1 =? 4) || (n100 =? 4)) eqn:Esp.
  - assert (Hs : exists b c, 0 <= b <= 3 /\ 0 <= c <= 24 /\ (c <> 24 \/ b = 3) /\
              n400 * 400 + 1 + n100 * 100 + n4 * 4 + n1 - 1
              = n400 * 400 + 1 + b * 100 + c * 4 + 3 /\
              n = 146097 * n400 + 36524 * b + 1461 * c + 365 * 3 + 366).
    { apply orb_true_iff in Esp. rewrite !Z.eqb_eq in Esp.
      destruct (Z.eq_dec n100 4) as [E|E].
      - exists 3, 24. lia.
      - exists n100, n4. lia. }
    destruct Hs as (b & c & Hb & Hc & Hbc & -> & Hn').
    pose proof (is_leap_split n400 Hb Hc (e:=3) ltac:(lia)) as HL.
    pose proof (days_before_year_split n400 Hb Hc (e:=3) ltac:(lia)) as HD.
    replace ((3 =? 3) && (negb (c =? 24) || (b =? 3))) with true in HL.
    2:{ symmetry. destruct (c =? 24) eqn:E1; destruct (b =? 3) eqn:E2; try reflexivity.
        rewrite ?Z.eqb_eq, ?Z.eqb_neq in *. lia. }
    unfold valid, toordinal, _ymd2ord, _days_in_month, _days_before_month,
      MINYEAR, MAXYEAR.
    csimpl. rewrite HL, HD. csimpl. lia.
  - apply orb_false_iff in Esp. rewrite !Z.eqb_neq in Esp.
    assert (Hb : 0 <= n100 <= 3) by lia.
    assert (Hc : 0 <= n4 <= 24) by lia.
    assert (He : 0 <= n1 <= 3) by lia.
    pose proof (is_leap_split n400 Hb Hc He) as HL.
    pose proof (days_before_year_split n400 Hb Hc He) as HD.
    assert (HY : 1 <= n400 * 400 + 1 + n100 * 100 + n4 * 4 + n1 <= 9999) by lia.
    remember (n400 * 400 + 1 + n100 * 100 + n4 * 4 + n1) as Y eqn:EY.
    remember ((n1 =? 3) && (negb (n4 =? 24) || (n100 =? 3))) as L eqn:EL.
    clear EL EY.
    destruct F5 as (F5 & Hm).
    split_month Hm; csimpl; destruct L; csimpl;
      match goal with |- context [?a <? ?b] => destruct (a <? b) eqn:Elt end;
      rewrite ?Z.ltb_lt, ?Z.ltb_ge in Elt;
      unfold valid, toordinal, _ymd2ord, _days_in_month, _days_before_month,
        MINYEAR, MAXYEAR;
      repeat match goal with
             | |- context [Z.pos ?p - 1] =>
                 let v := eval compute in (Z.pos p - 1) in
                 change (Z.pos p - 1) with v
             end;
      csimpl; rewrite ?HL, ?HD; csimpl; lia.
Qed.

Lemma lt_trichotomy (a b : datetime) : lt a b \/ a = b \/ lt b a.
Proof.
  destruct a as [ya ma da], b as [yb mb db]. unfold lt. simpl.
  destruct (Z.lt_trichotomy ya yb) as [?|[?|?]]; try lia.
  destruct (Z.lt_trichotomy ma mb) as [?|[?|?]]; try lia.
  destruct (Z.lt_trichotomy da db) as [?|[?|?]]; try lia.
  right. left. congruence.
Qed.

Lemma lt_irrefl (a : datetime) : ~ lt a a.
Proof. unfold lt. lia. Qed.

Lemma toordinal_lt_inv (a b : datetime) :
  valid a -> valid b -> toordinal a < toordinal b -> lt a b.
Proof.
  intros Ha Hb H. destruct (lt_trichotomy a b) as [?|[->|Hba]]; [assumption|lia|].
  apply toordinal_lt in Hba; [lia|assumption..].
Qed.

Lemma toordinal_inj (a b : datetime) :
  valid a -> valid b -> toordinal a = toordinal b -> a = b.
Proof.
  intros Ha Hb H. destruct (lt_trichotomy a b) as [Hab|[?|Hba]]; [|assumption|].
  - apply toordinal_lt in Hab; [lia|assumption..].
  - apply toordinal_lt in Hba; [lia|assumption..].
Qed.

Lemma toordinal_le (a b : datetime) :
  valid a -> valid b -> le a b -> toordinal a <= toordinal b.
Proof.
  intros Ha Hb [->|H]; [lia|]. apply toordinal_lt in H; [lia|assumption..].
Qed.

Lemma ord2ymd_of_toordinal (d : datetime) : valid d -> _ord2ymd (toordinal d) = d.
Proof.
  intros Hd. pose proof (toordinal_bounds Hd) as Hb.
  destruct (ord2ymd_toordinal Hb) as (Hv & He).
  apply toordinal_inj; assumption.
Qed.

Lemma gtb_lt (a b : datetime) : gtb a b = true <-> lt b a.
Proof.
  unfold gtb, lt.
  rewrite !orb_true_iff, !andb_true_iff, !orb_true_iff, !andb_true_iff,
    !Z.ltb_lt, !Z.eqb_eq.
  lia.
Qed.

Lemma gtb_le (a b : datetime) : le a b -> gtb a b = false.
Proof.
  intros H. destruct (gtb a b) eqn:E; [|reflexivity].
  apply gtb_lt in E. destruct H as [->|H].
  - now apply lt_irrefl in E.
  - unfold lt in *. lia.
Qed.

(** The days a range runs over. *)
Section Range.
Variables start_date end_date : datetime.
Hypothesis Hs : valid start_date.
Hypothesis He : valid end_date.
Hypothesis Hle : le start_date end_date.

Let n := sub_days end_date start_date + 1.

Lemma days_to_check_pos : 1 <= n.
Proof. pose proof (toordinal_le Hs He Hle). unfold n, sub_days. lia. Qed.

Lemma offset_in_range (i : Z) :
  0 <= i < n -> 1 <= toordinal start_date + i <= _MAXORDINAL.
Proof.
  pose proof (toordinal_bounds Hs). pose proof (toordinal_bounds He).
  unfold n, sub_days. lia.
Qed.

Lemma add_days_in_range (i : Z) :
  0 <= i < n ->
  add_days start_date i = Ok (_ord2ymd (toordinal start_date + i)).
Proof.
  intros Hi. apply offset_in_range in Hi. unfold add_days.
  replace (0 <? _) with true by (symmetry; apply Z.ltb_lt; lia).
  replace (_ <=? _) with true by (symmetry; apply Z.leb_le; lia).
  reflexivity.
Qed.

Lemma day_at_offset (i : Z) :
  0 <= i < n ->
  valid (_ord2ymd (toordinal start_date + i)) /\
  toordinal (_ord2ymd (toordinal start_date + i)) = toordinal start_date + i.
Proof. intros Hi. apply ord2ymd_toordinal, offset_in_range, Hi. Qed.

Lemma day_at_offset_between (i : Z) :
  0 <= i < n ->
  le start_date (_ord2ymd (toordinal start_date + i)) /\
  le (_ord2ymd (toordinal start_date + i)) end_date.
Proof.
  intros Hi. destruct (day_at_offset Hi) as (Hv & Ho).
  unfold n, sub_days in Hi. split.
  - destruct (Z.eq_dec i 0) as [->|].
    + left. rewrite Z.add_0_r. symmetry. now apply ord2ymd_of_toordinal.
    + right. apply toordinal_lt_inv; [assumption..|lia].
  - destruct (Z.eq_dec (toordinal start_date + i) (toordinal end_date)) as [E|].
    + left. rewrite E. now apply ord2ymd_of_toordinal.
    + right. apply toordinal_lt_inv; [assumption..|lia].
Qed.
End Range.
End CalFacts.

(** ** Lists of offsets *)
Section RangeFacts.

Lemma range_length (n : Z) : List.length (range n) = Z.to_nat n.
Proof. unfold range. now rewrite length_map, length_seq. Qed.

Lemma range_In (n i : Z) : In i (range n) <-> 0 <= i < n.
Proof.
  unfold range. rewrite in_map_iff. split.
  - intros (k & <- & Hk). apply in_seq in Hk. lia.
  - intros Hi. exists (Z.to_nat i). split; [lia|]. apply in_seq. lia.
Qed.

Lemma range_nth_error (n : Z) (k : nat) :
  (k < Z.to_nat n)%nat -> nth_error (range n) k = Some (Z.of_nat k).
Proof.
  intros Hk. unfold range. rewrite nth_error_map.
  rewrite nth_error_seq.
  replace (k <? Z.to_nat n)%nat with true by (symmetry; apply Nat.ltb_lt; lia).
  reflexivity.
Qed.

End RangeFacts.

(** ** Running the monad *)

Ltac run_step :=
  cbv beta iota delta
    [bind ret return_ raise driver emit try_except try_except_AssertionError
     lift invoke read py_assert call_function].

(** Split on what the driver answers to the next call. *)
Ltac ask :=
  match goal with
  | |- context [match ?f ?w with pair _ _ => _ end] =>
      let r := fresh "r" in
      let w' := fresh "w" in
      let E := fresh "E" in
      destruct (f w) as [r w'] eqn:E; destruct r
  end.

Section ScannerFacts.
Context {world : Type} {B : Browser world}.

Lemma is_true_attr_true (a : option string) :
  SearchResultsPage.is_true_attr a = true -> a = Some "true".
Proof.
  destruct a as [s|]; simpl; [|discriminate].
  intros H. apply String.eqb_eq in H. now subst.
Qed.

Lemma loop_scan_log (sa ea : locator) (f : Z -> datetime)
      (body : Z -> unit -> M (world:=world) (bool * option string) (ctl unit))
      (offs : list Z) :
  (forall off w, In off offs ->
     let '(o, _, tr) := body off tt w in day_log sa ea (f off) o tr) ->
  forall w,
    let '(o, _, tr) := for_each offs tt body w in
    scan_log sa ea (map f offs) (scan_result o) tr.
Proof.
  induction offs as [|off offs IH]; intros Hbody w.
  - simpl. constructor.
  - simpl.
    pose proof (Hbody off w (or_introl eq_refl)) as Hd.
    destruct (body off tt w) as [[o w1] t1].
    assert (IH' := IH (fun off' w' H => Hbody off' w' (or_intror H)) w1).
    inversion Hd; subst; simpl;
      try destruct (for_each offs tt body w1) as [[o2 w2] t2];
      simpl; constructor; assumption.
Qed.

(** Every run of the scanner on a valid range leaves one of the logs
    [scan_log] describes, over the days of the range. *)
Lemma is_date_range_blocked_scan_log (start_date end_date : datetime) (w : world) :
  valid start_date -> valid end_date -> le start_date end_date ->
  let '(r, _, tr) :=
    call_function (SearchResultsPage.is_date_range_blocked start_date end_date) w in
  scan_log (anchor_locator start_date) (anchor_locator end_date)
           (days_of_range start_date end_date) r tr.
Proof.
  intros Hs He Hle.
  unfold SearchResultsPage.is_date_range_blocked.
  rewrite (CalFacts.gtb_le Hle).
  unfold call_function, bind at 1.
  match goal with
  | |- context [for_each ?offs tt ?body w] =>
      pose proof (@loop_scan_log (anchor_locator start_date) (anchor_locator end_date)
                    (fun off => _ord2ymd (toordinal start_date + off)) body offs) as L
  end.
  match type of L with
  | ?P -> _ => assert (Hbody : P); [| specialize (L Hbody w)]
  end.
  { intros off w0 Hin. apply range_In in Hin.
    run_step. rewrite (CalFacts.add_days_in_range Hs He Hin).
    fold (day_locator (_ord2ymd (toordinal start_date + off))).
    fold (anchor_locator start_date). fold (anchor_locator end_date).
    ask; simpl.
    - destruct (0 <? a)%nat eqn:Ec.
      + apply Nat.ltb_lt in Ec. ask; simpl.
        * destruct (SearchResultsPage.is_true_attr a0) eqn:Ea; simpl.
          -- apply is_true_attr_true in Ea. subst. now constructor.
          -- now constructor.
        * now constructor.
      + apply Nat.ltb_ge in Ec. assert (a = 0%nat) by lia. subst a.
        ask; simpl; [ask; simpl|];
          repeat match goal with u : unit |- _ => destruct u end;
          apply day_gap; constructor.
    - constructor. }
  fold (days_of_range start_date end_date) in L.
  destruct (for_each _ tt _ w) as [[o w1] t1].
  destruct o; simpl in *; rewrite ?app_nil_r; assumption.
Qed.

End ScannerFacts.

(** ** What a scan's log tells *)
Section ScanLogFacts.
Variables sa ea : locator.

Lemma probed_app (t1 t2 : trace) : probed (t1 ++ t2) = probed t1 ++ probed t2.
Proof. apply flat_map_app. Qed.

Lemma gap_clicks_probed (cl : trace) : gap_clicks sa ea cl -> probed cl = [].
Proof. now destruct 1. Qed.

Lemma gap_clicks_quiet (cl : trace) :
  gap_clicks sa ea cl ->
  existsb blocked_observation cl = false /\ existsb query_raised cl = false.
Proof. now destruct 1. Qed.

(** The probes follow the days of the range, in order, without a gap. *)
Lemma scan_log_probed days r tr :
  scan_log sa ea days r tr ->
  probed tr = map day_locator (firstn (List.length (probed tr)) days) /\
  (r = Ok (false, None) -> List.length (probed tr) = List.length days).
Proof.
  induction 1 as [|d ds c a r tr Hc Ha H [IH1 IH2]| |d ds cl r tr Hg H [IH1 IH2]| |];
    simpl; try (split; [reflexivity | discriminate || reflexivity]).
  - split; [now rewrite <- IH1 | intros E; now rewrite IH2].
  - rewrite probed_app, (gap_clicks_probed Hg). simpl.
    split; [now rewrite <- IH1 | intros E; now rewrite IH2].
Qed.

Lemma scan_log_result days r tr :
  scan_log sa ea days r tr ->
  r = Ok (false, None) \/ (exists s, r = Ok (true, Some s)) \/ (exists e, r = Raised e).
Proof. induction 1; eauto. Qed.

(** A scan that answers Clear saw no blocked day and no failing query. *)
Lemma scan_log_clear days tr :
  scan_log sa ea days (Ok (false, None)) tr ->
  existsb blocked_observation tr = false /\ existsb query_raised tr = false.
Proof.
  remember (Ok (false, None)) as r eqn:Er.
  induction 1 as [|d ds c a r tr Hc Ha H IH| |d ds cl r tr Hg H IH| |];
    try discriminate; simpl.
  - now split.
  - rewrite Ha. simpl. now apply IH.
  - rewrite !existsb_app. destruct (gap_clicks_quiet Hg) as [-> ->]. now apply IH.
Qed.

(** A scan that answers Blocked ends on the probe that found the day
    rendered and marked, and saw no blocked day before. *)
Lemma scan_log_blocked days s tr :
  scan_log sa ea days (Ok (true, Some s)) tr ->
  exists pre d c,
    tr = pre ++ [ECount (day_locator d) (Ok c);
                 EGetAttribute (First (day_locator d)) "data-is-day-blocked"
                               (Ok (Some "true"))] /\
    (0 < c)%nat /\ s = strftime_dmY d /\
    nth_error days (List.length (probed pre)) = Some d /\
    existsb blocked_observation pre = false /\
    existsb query_raised pre = false.
Proof.
  remember (Ok (true, Some s)) as r eqn:Er.
  induction 1 as [|d ds c a r tr Hc Ha H IH|d ds c Hc|d ds cl r tr Hg H IH| |];
    try discriminate.
  - destruct (IH Er) as (pre & d' & c' & -> & Hc' & Hs & Hn & Hb & Hq).
    exists (ECount (day_locator d) (Ok c)
            :: EGetAttribute (First (day_locator d)) "data-is-day-blocked" (Ok a)
            :: pre), d', c'.
    simpl. rewrite Ha. simpl. repeat split; auto.
  - injection Er as <-. exists [], d, c. simpl. repeat split; auto.
  - destruct (IH Er) as (pre & d' & c' & -> & Hc' & Hs & Hn & Hb & Hq).
    exists (ECount (day_locator d) (Ok 0%nat) :: cl ++ pre), d', c'.
    simpl. rewrite probed_app, (gap_clicks_probed Hg), !existsb_app.
    destruct (gap_clicks_quiet Hg) as [-> ->]. simpl.
    rewrite <- ?app_assoc. repeat split; auto.
Qed.

(** A scan that raises ends on the grid query that raised. *)
Lemma scan_log_raised days e tr :
  scan_log sa ea days (Raised e) tr ->
  exists pre q,
    tr = pre ++ [q] /\ query_raised q = true /\
    existsb blocked_observation tr = false.
Proof.
  remember (Raised e) as r eqn:Er.
  induction 1 as [|d ds c a r tr Hc Ha H IH| |d ds cl r tr Hg H IH|d ds e'|d ds c e' Hc];
    try discriminate.
  - destruct (IH Er) as (pre & q & -> & Hq & Hb).
    exists (ECount (day_locator d) (Ok c)
            :: EGetAttribute (First (day_locator d)) "data-is-day-blocked" (Ok a)
            :: pre), q.
    simpl. rewrite Ha. simpl. repeat split; auto.
  - destruct (IH Er) as (pre & q & -> & Hq & Hb).
    exists (ECount (day_locator d) (Ok 0%nat) :: cl ++ pre), q.
    simpl. rewrite existsb_app. destruct (gap_clicks_quiet Hg) as [-> _].
    rewrite <- ?app_assoc. repeat split; auto.
  - exists [], (ECount (day_locator d) (Raised e')). auto.
  - exists [ECount (day_locator d) (Ok c)],
      (EGetAttribute (First (day_locator d)) "data-is-day-blocked" (Raised e')).
    auto.
Qed.

Lemma scan_log_head d ds r tr :
  scan_log sa ea (d :: ds) r tr ->
  exists r' rest, tr = ECount (day_locator d) r' :: rest.
Proof. inversion 1; subst; eauto. Qed.

Lemma scan_log_nil r tr :
  scan_log sa ea [] r tr -> tr = [] /\ r = Ok (false, None).
Proof. inversion 1; auto. Qed.

(** Take the next event off a log split as [pre ++ e :: post]. *)
Ltac peel pre H :=
  destruct pre as [|? pre]; simpl in H;
  [ try discriminate H
  | try discriminate H;
    let E := fresh "E" in injection H as E H; try subst ].

(** After a probe that found the day missing from the grid come the
    attempted clicks on the two anchors, and then the scan goes on: to
    the probe of the next day, or, after the last day, to Clear. *)
Lemma scan_log_gap days r tr :
  scan_log sa ea days r tr ->
  forall pre l post,
    tr = pre ++ ECount l (Ok 0%nat) :: post ->
    exists d cl rest,
      nth_error days (List.length (probed pre)) = Some d /\
      l = day_locator d /\
      post = cl ++ rest /\
      gap_clicks sa ea cl /\
      match nth_error days (S (List.length (probed pre))) with
      | Some d' => exists r' rest', rest = ECount (day_locator d') r' :: rest'
      | None => rest = [] /\ r = Ok (false, None)
      end.
Proof.
  induction 1 as [|d ds c a r tr Hc Ha H IH|d ds c Hc|d ds cl r tr Hg H IH
                  |d ds e'|d ds c e' Hc]; intros pre l post Heq.
  - now destruct pre.
  - peel pre Heq; [injection Heq as -> ?; lia|].
    peel pre Heq.
    destruct (IH _ _ _ eq_refl) as (d' & cl & rest & ? & ? & ? & ? & ?).
    exists d', cl, rest. simpl. auto.
  - peel pre Heq; [injection Heq as -> ?; lia|].
    peel pre Heq. now destruct pre.
  - peel pre Heq.
    + injection Heq as <- <-. exists d, cl, tr. simpl.
      repeat split; auto.
      destruct ds as [|d' ds].
      * now apply scan_log_nil in H.
      * now apply scan_log_head in H.
    + assert (Hpre : exists pre', pre = cl ++ pre' /\
                                 tr = pre' ++ ECount l (Ok 0%nat) :: post).
      { destruct Hg; simpl in Heq.
        - peel pre Heq. peel pre Heq. now exists pre.
        - peel pre Heq. peel pre Heq. peel pre Heq. now exists pre.
        - peel pre Heq. peel pre Heq. now exists pre. }
      destruct Hpre as (pre' & -> & Htr).
      destruct (IH _ _ _ Htr) as (d' & cl' & rest & ? & ? & ? & ? & ?).
      exists d', cl', rest. simpl.
      rewrite probed_app, (gap_clicks_probed Hg). simpl. auto.
  - peel pre Heq. now destruct pre.
  - peel pre Heq; [injection Heq as -> ?; lia|].
    peel pre Heq. now destruct pre.
Qed.

End ScanLogFacts.

(** ** The days of a range *)
Section DaysOfRange.
Variables start_date end_date : datetime.
Hypothesis Hs : valid start_date.
Hypothesis He : valid end_date.
Hypothesis Hle : le start_date end_date.

Lemma days_of_range_length :
  Z.of_nat (List.length (days_of_range start_date end_date))
  = sub_days end_date start_date + 1.
Proof.
  unfold days_of_range. rewrite length_map, range_length.
  pose proof (CalFacts.days_to_check_pos Hs He Hle). lia.
Qed.

Lemma days_of_range_nth (k : nat) (d : datetime) :
  nth_error (days_of_range start_date end_date) k = Some d ->
  d = _ord2ymd (toordinal start_date + Z.of_nat k) /\
  0 <= Z.of_nat k < sub_days end_date start_date + 1.
Proof.
  unfold days_of_range. rewrite nth_error_map. intros H.
  destruct (nth_error (range _) k) as [off|] eqn:E; [|discriminate].
  assert (Hk : (k < List.length (range (sub_days end_date start_date + 1)))%nat)
    by (apply nth_error_Some; congruence).
  rewrite range_length in Hk.
  rewrite range_nth_error in E by assumption.
  assert (Hoff : off = Z.of_nat k) by congruence. subst off.
  cbn [option_map] in H.
  split; [congruence | lia].
Qed.

(** Each day of the list is a calendar day of the range, at its place. *)
Lemma days_of_range_sound (k : nat) (d : datetime) :
  nth_error (days_of_range start_date end_date) k = Some d ->
  valid d /\ toordinal d = toordinal start_date + Z.of_nat k /\
  le start_date d /\ le d end_date.
Proof.
  intros H. apply days_of_range_nth in H. destruct H as (-> & Hk).
  destruct (CalFacts.day_at_offset Hs He Hk).
  destruct (CalFacts.day_at_offset_between Hs He Hk).
  auto.
Qed.

(** Every calendar day of the range is in the list. *)
Lemma days_of_range_complete (d : datetime) :
  valid d -> le start_date d -> le d end_date ->
  In d (days_of_range start_date end_date).
Proof.
  intros Hd H1 H2.
  pose proof (CalFacts.toordinal_le Hs Hd H1).
  pose proof (CalFacts.toordinal_le Hd He H2).
  unfold days_of_range. apply in_map_iff.
  exists (toordinal d - toordinal start_date). split.
  - replace (toordinal start_date + (toordinal d - toordinal start_date))
      with (toordinal d) by lia.
    now apply CalFacts.ord2ymd_of_toordinal.
  - apply range_In. unfold sub_days. lia.
Qed.

(** The list runs forward in time, a day at a time. *)
Lemma days_of_range_chronological (i j : nat) (a b : datetime) :
  nth_error (days_of_range start_date end_date) i = Some a ->
  nth_error (days_of_range start_date end_date) j = Some b ->
  (i < j)%nat -> lt a b.
Proof.
  intros Ha Hb Hij.
  apply days_of_range_sound in Ha. apply days_of_range_sound in Hb.
  destruct Ha as (Va & Oa & _), Hb as (Vb & Ob & _).
  apply CalFacts.toordinal_lt_inv; [assumption..|lia].
Qed.



End DaysOfRange.

(** ** The two date formats *)
Section Formats.

Lemma length_append (a b : string) :
  String.length (a ++ b) = (String.length a + String.length b)%nat.
Proof. induction a as [|c a IH]; simpl; [reflexivity | now rewrite IH]. Qed.

Lemma append_inj_l (p a b : string) : (p ++ a = p ++ b)%string -> a = b.
Proof. induction p as [|c p IH]; simpl; intros H; [assumption|]. injection H. auto. Qed.

Lemma append_inj_r (a b c : string) : (a ++ c = b ++ c)%string -> a = b.
Proof.
  revert b. induction a as [|x a IH]; intros [|y b] H; simpl in H.
  - reflexivity.
  - apply (f_equal String.length) in H. simpl in H. rewrite length_append in H. lia.
  - apply (f_equal String.length) in H. simpl in H. rewrite length_append in H. lia.
  - injection H as -> H. f_equal. now apply IH.
Qed.

Lemma calendar_day_selector_inj (s t : string) :
  SearchResultsPage.calendar_day_selector s = SearchResultsPage.calendar_day_selector t ->
  s = t.
Proof.
  unfold SearchResultsPage.calendar_day_selector, attr_selector. intros H.
  do 4 apply append_inj_l in H.
  apply append_inj_r in H. now apply append_inj_l in H.
Qed.

Lemma digit_inj (a b : Z) : digit a = digit b -> a mod 10 = b mod 10.
Proof.
  unfold digit. intros H. apply (f_equal nat_of_ascii) in H.
  pose proof (Z.mod_pos_bound a 10 ltac:(lia)).
  pose proof (Z.mod_pos_bound b 10 ltac:(lia)).
  rewrite !nat_ascii_embedding in H by lia. lia.
Qed.

Lemma pad2_inj (a b : Z) :
  0 <= a < 100 -> 0 <= b < 100 -> pad2 a = pad2 b -> a = b.
Proof.
  unfold pad2. intros Ha Hb H. injection H as H1 H2.
  apply digit_inj in H1, H2.
  Z.to_euclidean_division_equations. lia.
Qed.

Lemma pad4_inj (a b : Z) :
  0 <= a < 10000 -> 0 <= b < 10000 -> pad4 a = pad4 b -> a = b.
Proof.
  unfold pad4, pad2. intros Ha Hb H. injection H as H1 H2 H3 H4.
  apply digit_inj in H1, H2, H3, H4.
  Z.to_euclidean_division_equations. lia.
Qed.

Lemma valid_fields (d : datetime) :
  valid d -> 0 <= day d < 100 /\ 0 <= month d < 100 /\ 0 <= year d < 10000.
Proof.
  destruct d as [y m d]. unfold valid, _days_in_month, MINYEAR, MAXYEAR. simpl.
  intros (Hy & Hm & Hd).
  assert (_DAYS_IN_MONTH m <= 31) by (CalFacts.split_month Hm; simpl; lia).
  destruct ((m =? 2) && _is_leap y); lia.
Qed.

Lemma strftime_dmY_inj (a b : datetime) :
  valid a -> valid b -> strftime_dmY a = strftime_dmY b -> a = b.
Proof.
  intros Ha Hb. apply valid_fields in Ha, Hb.
  destruct a as [ya ma da], b as [yb mb db]. simpl in Ha, Hb.
  unfold strftime_dmY. cbn [year month day].
  unfold pad4, pad2. cbn [append]. intros H.
  injection H; intros.
  repeat match goal with E : digit _ = digit _ |- _ => apply digit_inj in E end.
  assert (da = db /\ ma = mb /\ ya = yb)
    by (Z.to_euclidean_division_equations; lia).
  intuition congruence.
Qed.

Lemma day_locator_inj (a b : datetime) :
  valid a -> valid b -> day_locator a = day_locator b -> a = b.
Proof.
  intros Ha Hb H.
  apply (f_equal (fun l => match l with Locator _ s => s | _ => EmptyString end)) in H.
  unfold day_locator in H. cbv beta iota in H.
  apply calendar_day_selector_inj, strftime_dmY_inj in H; assumption.
Qed.

(** Day first against month first: the texts differ as soon as day and
    month do. *)
Lemma strftime_formats_differ (d : datetime) :
  valid d -> day d <> month d -> strftime_dmY d <> strftime_mdY d.
Proof.
  intros Hv Hne H. apply valid_fields in Hv.
  unfold strftime_dmY, strftime_mdY in H.
  unfold pad4, pad2 in H. cbn [append] in H.
  injection H; intros.
  repeat match goal with E : digit _ = digit _ |- _ => apply digit_inj in E end.
  assert (day d = month d) by (Z.to_euclidean_division_equations; lia).
  contradiction.
Qed.

End Formats.

(** ** Splitting a log *)
Section Splits.


Lemma existsb_false_In (P : event -> bool) (l : trace) (e : event) :
  existsb P l = false -> In e l -> P e = false.
Proof.
  intros H Hin. destruct (P e) eqn:E; [|reflexivity].
  assert (existsb P l = true) by (apply existsb_exists; eauto). congruence.
Qed.

(** Two probes of one log with the same number of probes before them are
    the same event. *)
Lemma same_probe (pre pre' post post' : trace) l l' (r r' : result nat) :
  pre ++ ECount l r :: post = pre' ++ ECount l' r' :: post' ->
  List.length (probed pre) = List.length (probed pre') ->
  l = l' /\ r = r'.
Proof.
  revert pre'. induction pre as [|x pre IH]; intros [|y pre'] Heq Hlen;
    simpl in Heq.
  - injection Heq as -> ->. auto.
  - injection Heq as <- _. simpl in Hlen. discriminate.
  - injection Heq as -> _. simpl in Hlen. discriminate.
  - injection Heq as -> Heq. apply (IH pre' Heq).
    simpl in Hlen. rewrite !length_app in Hlen. lia.
Qed.

End Splits.

(** * The calendar availability scanner *)
Section ScannerTheorems.
Context {world : Type} {B : Browser world}.

(** C2. For every pair of dates with [start_date] strictly after
    [end_date], [is_date_range_blocked] raises
    [ValueError("Start date must be before end date")] at once: the log is
    empty, so no day of the grid was consulted, and the page is as it was;
    the range is not swapped or otherwise repaired. *)
Theorem invalid_range_raises_immediately
        (w : world) (start_date end_date : datetime) :
  lt end_date start_date ->
  call_function (SearchResultsPage.is_date_range_blocked start_date end_date) w
  = (Raised (ValueError "Start date must be before end date"), w, []).
Proof.
  intros H. apply CalFacts.gtb_lt in H.
  unfold SearchResultsPage.is_date_range_blocked. rewrite H. reflexivity.
Qed.


(** C4. On every valid range, when no probe finds a day rendered and
    marked blocked (and no query of the grid raises), the scan answers
    [(False, None)] after probing every day of the list, once each and in
    order: [(end_date - start_date).days + 1] probes, one for each
    calendar day from [start_date] to [end_date] inclusive.  A range of
    one day is probed exactly once. *)
Theorem clear_range_scans_every_day
        (w : world) (start_date end_date : datetime) :
  valid start_date -> valid end_date -> le start_date end_date ->
  let run := call_function
               (SearchResultsPage.is_date_range_blocked start_date end_date) w in
  let r := fst (fst run) in
  let tr := snd run in
  existsb blocked_observation tr = false ->
  existsb query_raised tr = false ->
  r = Ok (false, None) /\
  probed tr = map day_locator (days_of_range start_date end_date) /\
  Z.of_nat (List.length (probed tr)) = sub_days end_date start_date + 1 /\
  (forall d, valid d -> le start_date d -> le d end_date ->
             In (day_locator d) (probed tr)) /\
  (start_date = end_date -> probed tr = [day_locator start_date]).
Proof.
  intros Hs He Hle run r tr.
  pose proof (@is_date_range_blocked_scan_log _ _ _ _ w Hs He Hle) as L.
  fold run in L. subst r tr. destruct run as [[r w1] tr]. cbn [fst snd].
  intros Hnb Hnq.
  assert (Hr : r = Ok (false, None)).
  { destruct (scan_log_result L) as [->|[(s & ->)|(x & ->)]]; [reflexivity| |].
    - apply scan_log_blocked in L.
      destruct L as (pre0 & d & c & -> & _).
      rewrite existsb_app in Hnb. apply orb_false_iff in Hnb.
      destruct Hnb as [_ Hnb]. simpl in Hnb. discriminate.
    - apply scan_log_raised in L. destruct L as (pre0 & q & -> & Hq & _).
      rewrite existsb_app in Hnq. apply orb_false_iff in Hnq.
      destruct Hnq as [_ Hnq]. simpl in Hnq. rewrite Hq in Hnq. discriminate. }
  subst r. destruct (scan_log_probed L) as [Hp Hlen]. specialize (Hlen eq_refl).
  assert (Hall : probed tr = map day_locator (days_of_range start_date end_date)).
  { rewrite Hp, Hlen. now rewrite firstn_all. }
  split; [reflexivity|]. split; [assumption|]. split; [|split].
  - rewrite Hlen. now apply days_of_range_length.
  - intros d Hd H1 H2. rewrite Hall. apply in_map.
    now apply days_of_range_complete.
  - intros <-. rewrite Hall. unfold days_of_range, sub_days.
    replace (toordinal start_date - toordinal start_date + 1) with 1 by lia.
    change (range 1) with [0]. cbn [map].
    now rewrite Z.add_0_r, CalFacts.ord2ymd_of_toordinal.
Qed.

(** C5. On every valid range, a probe that finds a day missing from the
    grid ([count()] answers zero) is followed by the attempt to click the
    start anchor and then the end anchor (a click that raises ends the
    attempt with the log line [added new dates]); after that the scan
    goes on with the probe of the next day, or, after the last day, with
    the answer [(False, None)].  The missing day is not the one a Blocked
    answer names.  The scan only raises on a query of the grid that
    raises: neither a missing day nor a failing click aborts it. *)
Theorem render_gap_is_absorbed
        (w : world) (start_date end_date : datetime) :
  valid start_date -> valid end_date -> le start_date end_date ->
  let run := call_function
               (SearchResultsPage.is_date_range_blocked start_date end_date) w in
  let r := fst (fst run) in
  let tr := snd run in
  let days := days_of_range start_date end_date in
  (forall pre l post,
      tr = pre ++ ECount l (Ok 0%nat) :: post ->
      exists d cl rest,
        nth_error days (List.length (probed pre)) = Some d /\
        l = day_locator d /\
        post = cl ++ rest /\
        gap_clicks (anchor_locator start_date) (anchor_locator end_date) cl /\
        match nth_error days (S (List.length (probed pre))) with
        | Some d' => exists r' rest', rest = ECount (day_locator d') r' :: rest'
        | None => rest = [] /\ r = Ok (false, None)
        end /\
        r <> Ok (true, Some (strftime_dmY d))) /\
  (forall e, r = Raised e ->
             exists pre q, tr = pre ++ [q] /\ query_raised q = true) /\
  (existsb query_raised tr = false -> exists v, r = Ok v).
Proof.
  intros Hs He Hle run r tr days.
  pose proof (@is_date_range_blocked_scan_log _ _ _ _ w Hs He Hle) as L.
  fold run in L. subst r tr days. destruct run as [[r w1] tr]. cbn [fst snd].
  split; [|split].
  - intros pre l post Heq.
    destruct (scan_log_gap L _ _ _ Heq) as (d & cl & rest & Hn & -> & -> & Hg & Hnext).
    exists d, cl, rest. repeat split; auto.
    intros ->. apply scan_log_blocked in L.
    destruct L as (pre0 & d0 & c & Htr & Hc & Hstr & Hn0 & _).
    pose proof (days_of_range_sound Hs He _ Hn) as (Vd & _).
    pose proof (days_of_range_sound Hs He _ Hn0) as (Vd0 & _).
    apply strftime_dmY_inj in Hstr; [subst d0 | assumption..].
    assert (Hidx : List.length (probed pre) = List.length (probed pre0)).
    { destruct (Nat.lt_trichotomy (List.length (probed pre))
                                  (List.length (probed pre0))) as [H|[H|H]];
        [|assumption|].
      - pose proof (days_of_range_chronological Hs He Hn Hn0 H) as F.
        now apply CalFacts.lt_irrefl in F.
      - pose proof (days_of_range_chronological Hs He Hn0 Hn H) as F.
        now apply CalFacts.lt_irrefl in F. }
    rewrite Heq in Htr. apply same_probe in Htr; [|assumption].
    destruct Htr as [_ Htr]. injection Htr as <-. lia.
  - intros e ->. apply scan_log_raised in L.
    destruct L as (pre & q & ? & ? & _). eauto.
  - intros Hnq.
    destruct (scan_log_result L) as [->|[(s & ->)|(x & ->)]]; eauto.
    apply scan_log_raised in L. destruct L as (pre0 & q & -> & Hq & _).
    rewrite existsb_app in Hnq. apply orb_false_iff in Hnq.
    destruct Hnq as [_ Hnq]. simpl in Hnq. rewrite Hq in Hnq. discriminate.
Qed.

End ScannerTheorems.

(** * Reserving and changing the guests on the listing page *)
Section ListingTheorems.
Context {world : Type} {B : Browser world}.

(** C10. The last assertion of [reserve_and_validate] evaluates
    [f"numberOfAdults={adults_count}" and "book" in url_after_reserve].
    The f-string is never empty, so the value asserted is
    ["book" in url_after_reserve], whatever [adults_count] is: the call
    behaves the same for every [adults_count], and it returns normally
    exactly when both addresses could be read, they differ, and the
    second contains [book]. *)
Theorem reserve_assertion_ignores_adults_count (w : world) (adults_count : Z) :
  (forall url_after_reserve,
      truthy (py_and (PyStr ("numberOfAdults=" ++ py_str adults_count)%string)
                     (PyBool (contains "book" url_after_reserve)))
      = contains "book" url_after_reserve) /\
  (forall other_count,
      call_function (SearchResultsPage.reserve_and_validate other_count) w
      = call_function (SearchResultsPage.reserve_and_validate adults_count) w) /\
  let run := call_function (SearchResultsPage.reserve_and_validate adults_count) w in
  let r := fst (fst run) in
  let tr := snd run in
  (r = Ok tt <->
   exists url_before_reserve url_after_reserve,
     urls_read tr = [Ok url_before_reserve; Ok url_after_reserve] /\
     url_before_reserve <> url_after_reserve /\
     contains "book" url_after_reserve = true).
Proof.
  assert (Hexpr : forall a u,
             truthy (py_and (PyStr ("numberOfAdults=" ++ py_str a)%string)
                            (PyBool (contains "book" u)))
             = contains "book" u) by reflexivity.
  split; [apply Hexpr|]. split.
  - intros other. unfold SearchResultsPage.reserve_and_validate.
    run_step.
    ask; [|reflexivity]. ask; [|reflexivity].
    destruct (1 <? a)%nat; [|reflexivity].
    ask; [|reflexivity]. ask; [|reflexivity].
    destruct (String.eqb a0 a2); cbn [negb]; [reflexivity|].
    now rewrite !Hexpr.
  - unfold SearchResultsPage.reserve_and_validate.
    run_step.
    ask; [|cbn; split; [discriminate | intros (? & ? & ? & _); discriminate]].
    ask; [|cbn; split; [discriminate | intros (? & ? & ? & _); discriminate]].
    destruct (1 <? a)%nat;
      [|cbn; split; [discriminate | intros (? & ? & ? & _); discriminate]].
    ask; [|cbn; split; [discriminate | intros (? & ? & ? & _); discriminate]].
    ask; [|cbn; split; [discriminate | intros (? & ? & ? & _); discriminate]].
    rewrite Hexpr.
    destruct (String.eqb a0 a2) eqn:Eu; cbn [negb];
      [|destruct (contains "book" a2) eqn:Ec]; cbn [fst snd app urls_read flat_map].
    + apply String.eqb_eq in Eu. subst.
      split; [discriminate | intros (u1 & u2 & H & Hne & _)].
      injection H as <- <-. contradiction.
    + apply String.eqb_neq in Eu.
      split; [intros _; eauto | reflexivity].
    + split; [discriminate | intros (u1 & u2 & H & _ & Hc)].
      injection H as <- <-. congruence.
Qed.

(** X22. On a listing that shows 3 guests of which 1 child (the guest
    button reads a text that parses to 3, the guest picker opens, the
    children label parses to 1), reducing the children to 0 clicks the
    decrease control exactly once.  When that click succeeds, the
    operation reads the children label and the guest button again and
    asserts that the label now reads 0 and that the total is the previous
    total minus 1.  Either way a screenshot follows, outside any guard:
    when it is taken, the operation returns normally if both assertions
    hold and raises [AssertionError] if one fails; when it raises (an
    error of the driver, not an [AssertionError]), its exception comes
    out, in place of the [AssertionError] too. *)
Theorem reducing_one_child_outcome
        (w w1 w2 w3 : world) (t_total t_child : string) :
  inner_text SearchResultsPage.guests_button w = (Ok t_total, w1) ->
  py_int (split_first "guests" t_total) = Ok 3 ->
  click SearchResultsPage.guests_button w1 = (Ok tt, w2) ->
  inner_text SearchResultsPage.current_child_count_element w2 = (Ok t_child, w3) ->
  py_int (split_first "child" t_child) = Ok 1 ->
  let run := call_function
               (SearchResultsPage.remove_kids_from__highest_rated_listing 0) w in
  let r := fst (fst run) in
  let tr := snd run in
  clicks_on SearchResultsPage.reduce_child_count_element tr
  = [fst (click SearchResultsPage.reduce_child_count_element w3)] /\
  forall w4 w5 w6 t_child' t_total' c g,
    click SearchResultsPage.reduce_child_count_element w3 = (Ok tt, w4) ->
    inner_text SearchResultsPage.current_child_count_element w4 = (Ok t_child', w5) ->
    py_int (split_first "child" t_child') = Ok c ->
    inner_text SearchResultsPage.guests_button w5 = (Ok t_total', w6) ->
    py_int (split_first "guests" t_total') = Ok g ->
    (forall e, fst (screenshot false w6) = Raised e -> is_AssertionError e = false) ->
    r = match fst (screenshot false w6) with
        | Ok _ => if (c =? 0) && (g =? 3 - 1) then Ok tt else Raised AssertionError
        | Raised e => Raised e
        end.
Proof.
  intros H1 P1 H2 H3 P2 run r tr. subst r tr run.
  unfold SearchResultsPage.remove_kids_from__highest_rated_listing.
  run_step. rewrite H1, P1, H2, H3, P2.
  change (0 <? 1) with true. cbv beta iota.
  change (range (1 - 0)) with [0]. cbn [for_each].
  run_step.
  split.
  - destruct (click SearchResultsPage.reduce_child_count_element w3) as [[[]|e] w4];
      cbv beta iota;
      repeat first
        [ match goal with
          | |- context [match py_int ?s with _ => _ end] => destruct (py_int s)
          | |- context [if is_AssertionError ?e then _ else _] =>
              destruct (is_AssertionError e)
          | |- context [if ?a =? ?b then _ else _] => destruct (a =? b)
          end
        | ask ];
      reflexivity.
  - intros w4 w5 w6 t_child' t_total' c g H4 H5 P3 H6 P4 Hd.
    rewrite H4. cbv beta iota. rewrite H5, P3. cbv beta iota.
    rewrite H6, P4. cbv beta iota.
    rewrite (Z.eqb_sym c 0).
    change (3 - (1 - 0)) with (3 - 1).
    destruct (0 =? c); cbv beta iota; [destruct (g =? 3 - 1); cbv beta iota|];
      destruct (screenshot false w6) as [[[]|x] w7]; cbv beta iota;
      try reflexivity.
    cbn [fst] in Hd. rewrite (Hd x eq_refl). reflexivity.
Qed.

End ListingTheorems.

(** C9. The guest-count reduction asserts its two postconditions, and its
    handler means to raise the [AssertionError] again; but the screenshot
    the handler takes first is not guarded.  On the listing tab that shows 3
    guests of which 1 child, whose total still reads 3 after the one click
    on the decrease control, and whose screenshot times out, the second
    assertion fails and what comes out of the operation is the time-out of
    the screenshot, not [AssertionError]. *)
Theorem failed_report_screenshot_masks_AssertionError :
  let run := call_function
               (SearchResultsPage.remove_kids_from__highest_rated_listing
                  (B:=MockSuite.tab_browser) 0)
               MockSuite.stale_total in
  inner_texts (snd run)
  = [(SearchResultsPage.guests_button, Ok "3 guests");
     (SearchResultsPage.current_child_count_element, Ok "1 child");
     (SearchResultsPage.current_child_count_element, Ok "0 children");
     (SearchResultsPage.guests_button, Ok "3 guests")] /\
  clicks_on SearchResultsPage.reduce_child_count_element (snd run) = [Ok tt] /\
  py_int (split_first "guests" "3 guests") = Ok 3 /\
  existsb removal_failed (snd run) = true /\
  screenshots (snd run) = [Raised (PlaywrightError "Timeout exceeded")] /\
  fst (fst run) = Raised (PlaywrightError "Timeout exceeded") /\
  fst (fst run) <> Raised AssertionError.
Proof.
  vm_compute. repeat split; try reflexivity. discriminate.
Qed.

(** * The viewport guard *)
Section ViewportTheorems.
Context {world : Type} {B : Browser world}.

Lemma viewport_eqb_eq (a b : viewport) : viewport_eqb a b = true <-> a = b.
Proof.
  destruct a as [wa ha], b as [wb hb]. unfold viewport_eqb. simpl.
  rewrite andb_true_iff, !Z.eqb_eq. split; [intros [-> ->]; reflexivity|].
  intros H. injection H. auto.
Qed.

Lemma viewport_neq_same (v : viewport) : viewport_neq (Some v) v = false.
Proof.
  unfold viewport_neq. now rewrite (proj2 (viewport_eqb_eq v v) eq_refl).
Qed.

(** C7. [_ensure_full_screen] (of both page objects) leaves a viewport
    that already has the expected size alone: no resize, no
    bring-to-front, no settle delay, only the log line that the check is
    OK, and the page is the one it started from.  With a driver that keeps
    the size it was given, a call that returns normally from any starting
    viewport is followed by a call that takes the OK branch: the second
    call returns normally, changes nothing and resizes nothing, so the two
    calls resize at most once. *)
Theorem viewport_guard_is_idempotent (w : world) (expected : viewport) :
  (viewport_size w = Some expected ->
   call_function (HomePage._ensure_full_screen expected) w
   = (Ok tt, w, [ELog INFO "[HomePage] Viewport check OK: {current_viewport}"]) /\
   call_function (SearchResultsPage._ensure_full_screen expected) w
   = (Ok tt, w, [ELog INFO "[SearchResultsPage] Viewport check OK: {current_viewport}"])) /\
  (keeps_viewport ->
   forall guard : M (world:=world) unit unit,
     guard = HomePage._ensure_full_screen expected \/
     guard = SearchResultsPage._ensure_full_screen expected ->
     let first := call_function guard w in
     fst (fst first) = Ok tt ->
     let second := call_function guard (snd (fst first)) in
     fst (fst second) = Ok tt /\
     snd (fst second) = snd (fst first) /\
     resizes (snd second) = [] /\
     (List.length (resizes (snd first ++ snd second)) <= 1)%nat /\
     viewport_size (snd (fst second)) = Some expected).
Proof.
  split.
  - intros Hv. unfold HomePage._ensure_full_screen, SearchResultsPage._ensure_full_screen.
    run_step. rewrite Hv, viewport_neq_same. split; reflexivity.
  - intros (Kset & Kfront & Kwait) guard Hg first.
    assert (Hfirst : fst (fst first) = Ok tt ->
                     viewport_size (snd (fst first)) = Some expected /\
                     (List.length (resizes (snd first)) <= 1)%nat).
    { subst first.
      destruct Hg as [-> | ->];
        unfold HomePage._ensure_full_screen, SearchResultsPage._ensure_full_screen;
        run_step;
        (destruct (viewport_neq (viewport_size w) expected) eqn:En; cbv beta iota;
         [ destruct (set_viewport_size expected w) as [[[]|e] w1] eqn:E1;
           cbv beta iota; [|cbn [fst snd]; discriminate];
           destruct (bring_to_front w1) as [[[]|e] w2] eqn:E2;
           cbv beta iota; [|cbn [fst snd]; discriminate];
           destruct (wait_for_timeout 500 w2) as [[[]|e] w3] eqn:E3;
           cbv beta iota; [|cbn [fst snd]; discriminate];
           intros _; split; [|simpl; lia];
           cbn [fst snd]; rewrite (Kwait _ _ _ E3), (Kfront _ _ E2); eauto
         | intros _; split; [|simpl; lia];
           unfold viewport_neq in En; destruct (viewport_size w) as [v|] eqn:Ev;
           [|discriminate]; apply negb_false_iff, viewport_eqb_eq in En;
           subst; cbn [fst snd]; assumption ]). }
    intros Hok. destruct (Hfirst Hok) as [Hv Hlen].
    destruct first as [[r1 w1] t1]. cbn [fst snd] in *.
    destruct Hg as [-> | ->];
      unfold HomePage._ensure_full_screen, SearchResultsPage._ensure_full_screen;
      run_step; rewrite Hv, viewport_neq_same; cbn [fst snd];
      unfold resizes in *; cbn [app]; rewrite flat_map_app, length_app; simpl;
      repeat split; auto; lia.
Qed.
End ViewportTheorems.

(** * The element probe *)
Section ProbeFacts.
Context {world : Type} {B : Browser world}.

Lemma probe_key_elements_spec (chain : list locator) (w : world) :
  let '(o, _, tr) := HomePage.probe_key_elements (R:=unit) chain w in
  match o with
  | Normal true => chain_stopped_at_first_visible chain (visibility_checks tr)
  | Normal false => chain_exhausted chain (visibility_checks tr)
  | _ => False
  end.
Proof.
  unfold HomePage.probe_key_elements.
  revert w. induction chain as [|l chain IH]; intros w.
  - simpl. split; reflexivity.
  - cbn [for_each]. run_step.
    destruct (is_visible l 5000 w) as [[[|]|e] w1]; cbv beta iota.
    + split; [reflexivity|]. exists [], l. split; reflexivity.
    + specialize (IH w1).
      destruct (for_each chain false _ w1) as [[o w2] t2].
      destruct o as [[|]| |]; try contradiction; cbn [app visibility_checks flat_map].
      * destruct IH as (Ho & pre & l' & Hc & Hp). split.
        -- cbn [List.length map firstn fst]. unfold visibility_checks in Ho.
           now rewrite Ho.
        -- exists ((l, Ok false) :: pre), l'. unfold visibility_checks in Hc.
           rewrite Hc. split; [reflexivity|]. simpl. assumption.
      * destruct IH as (Ho & Hp). unfold visibility_checks in Ho, Hp. split.
        -- cbn [map fst]. now rewrite Ho.
        -- simpl. assumption.
    + specialize (IH w1).
      destruct (for_each chain false _ w1) as [[o w2] t2].
      destruct o as [[|]| |]; try contradiction; cbn [app visibility_checks flat_map].
      * destruct IH as (Ho & pre & l' & Hc & Hp). split.
        -- cbn [List.length map firstn fst]. unfold visibility_checks in Ho.
           now rewrite Ho.
        -- exists ((l, Raised e) :: pre), l'. unfold visibility_checks in Hc.
           rewrite Hc. split; [reflexivity|]. simpl. assumption.
      * destruct IH as (Ho & Hp). unfold visibility_checks in Ho, Hp. split.
        -- cbn [map fst]. now rewrite Ho.
        -- simpl. assumption.
Qed.

Lemma probe_load_indicators_loop (ids : list string) :
  SearchResultsPage.probe_load_indicators ids
  = indicator_loop testid_locator
      "Page is no longer available while checking load indicators"
      "Found load indicator: {test_id}" "Indicator {test_id} not found: {e}" ids.
Proof. reflexivity. Qed.

Lemma probe_generic_selectors_loop (sels : list string) :
  SearchResultsPage.probe_generic_selectors sels
  = indicator_loop css_locator
      "Page is no longer available while checking generic selectors"
      "Found load indicator: {selector}" "Selector {selector} not found: {e}" sels.
Proof. reflexivity. Qed.

Lemma indicator_loop_spec (locate : string -> locator)
      (gone found not_found : string) (names : list string) (w : world) :
  let '(o, _, tr) := indicator_loop locate gone found not_found names w in
  let checks := visibility_checks tr in
  match o with
  | Normal _ => chain_exhausted (map locate names) checks
  | Return _ =>
      (chain_stopped_at_first_visible (map locate names) checks /\
       exists pre l, tr = pre ++ [EIsVisible l 2000 (Ok true);
                                  EAttach "Page Load Success" TEXT;
                                  ELog INFO found]) \/
      (chain_cut_short (map locate names) checks /\
       exists pre e, tr = pre ++ [EUrl primary (Raised e); ELog ERROR gone])
  | Raise _ => False
  end.
Proof.
  unfold indicator_loop, SearchResultsPage._is_page_available.
  revert w. induction names as [|name names IH]; intros w.
  - simpl. split; reflexivity.
  - cbn [for_each]. run_step.
    destruct (url primary w) as [[u|e] w1]; cbv beta iota.
    2:{ right. split; [split; reflexivity|]. exists [], e. reflexivity. }
    cbn [negb].
    destruct (is_visible (locate name) 2000 w1) as [[[|]|e] w2]; cbv beta iota.
    + left. split.
      * split; [reflexivity|]. exists [], (locate name). split; reflexivity.
      * exists [EUrl primary (Ok u)], (locate name). reflexivity.
    + specialize (IH w2).
      destruct (for_each names tt _ w2) as [[o w3] t3].
      unfold visibility_checks in *. cbn [app flat_map map List.length] in *.
      destruct o as [[]|[]|]; try contradiction.
      * destruct IH as (Ho & Hp). split; [cbn [map fst]; now rewrite Ho|].
        simpl. assumption.
      * destruct IH as [((Ho & pre & l' & Hc & Hp) & pre' & l'' & Ht)
                       |((Ho & Hp) & pre' & e' & Ht)]; [left|right].
        -- split; [split|].
           ++ cbn [List.length map firstn fst]. now rewrite Ho.
           ++ exists ((locate name, Ok false) :: pre), l'.
              rewrite Hc. split; [reflexivity|]. simpl. assumption.
           ++ exists (EUrl primary (Ok u) :: EIsVisible (locate name) 2000 (Ok false)
                      :: pre'), l''. rewrite Ht. reflexivity.
        -- split; [split|].
           ++ cbn [List.length map firstn fst]. now rewrite Ho.
           ++ simpl. assumption.
           ++ exists (EUrl primary (Ok u) :: EIsVisible (locate name) 2000 (Ok false)
                      :: pre'), e'. rewrite Ht. reflexivity.
    + specialize (IH w2).
      destruct (for_each names tt _ w2) as [[o w3] t3].
      unfold visibility_checks in *. cbn [app flat_map map List.length] in *.
      destruct o as [[]|[]|]; try contradiction.
      * destruct IH as (Ho & Hp). split; [cbn [map fst]; now rewrite Ho|].
        simpl. assumption.
      * destruct IH as [((Ho & pre & l' & Hc & Hp) & pre' & l'' & Ht)
                       |((Ho & Hp) & pre' & e' & Ht)]; [left|right].
        -- split; [split|].
           ++ cbn [List.length map firstn fst]. now rewrite Ho.
           ++ exists ((locate name, Raised e) :: pre), l'.
              rewrite Hc. split; [reflexivity|]. simpl. assumption.
           ++ exists (EUrl primary (Ok u) :: EIsVisible (locate name) 2000 (Raised e)
                      :: ELog INFO not_found :: pre'), l''. rewrite Ht. reflexivity.
        -- split; [split|].
           ++ cbn [List.length map firstn fst]. now rewrite Ho.
           ++ simpl. assumption.
           ++ exists (EUrl primary (Ok u) :: EIsVisible (locate name) 2000 (Raised e)
                      :: ELog INFO not_found :: pre'), e'. rewrite Ht. reflexivity.
Qed.
End ProbeFacts.

Section ProbeTheorems.
Context {world : Type} {B : Browser world}.

(** C6. Whatever the chain of candidates, the probes check visibility in
    the order of the chain and stop at the first candidate that answers
    visible: no later candidate is checked.  A check that raises counts
    as a check that answers not visible, and the chain goes on.  When the
    chain is used up without a visible candidate the loop falls through
    ([element_found] is still [False]); no exception leaves the probe.
    This holds of the loop of [navigate] and of the two loops of
    [wait_for_page_load]; these also stop, without an exception, when the
    page is gone. *)
Theorem probe_stops_at_first_visible_candidate :
  (forall (chain : list locator) (w : world),
      let '(o, _, tr) := HomePage.probe_key_elements (R:=unit) chain w in
      match o with
      | Normal true => chain_stopped_at_first_visible chain (visibility_checks tr)
      | Normal false => chain_exhausted chain (visibility_checks tr)
      | Return _ | Raise _ => False
      end) /\
  (forall (test_ids : list string) (w : world),
      let '(o, _, tr) := SearchResultsPage.probe_load_indicators test_ids w in
      let chain := map testid_locator test_ids in
      match o with
      | Normal _ => chain_exhausted chain (visibility_checks tr)
      | Return _ =>
          chain_stopped_at_first_visible chain (visibility_checks tr) \/
          (chain_cut_short chain (visibility_checks tr) /\
           exists pre e,
             tr = pre ++ [EUrl primary (Raised e);
                          ELog ERROR "Page is no longer available while checking load indicators"])
      | Raise _ => False
      end) /\
  (forall (selectors : list string) (w : world),
      let '(o, _, tr) := SearchResultsPage.probe_generic_selectors selectors w in
      let chain := map css_locator selectors in
      match o with
      | Normal _ => chain_exhausted chain (visibility_checks tr)
      | Return _ =>
          chain_stopped_at_first_visible chain (visibility_checks tr) \/
          (chain_cut_short chain (visibility_checks tr) /\
           exists pre e,
             tr = pre ++ [EUrl primary (Raised e);
                          ELog ERROR "Page is no longer available while checking generic selectors"])
      | Raise _ => False
      end).
Proof.
  split; [|split].
  - intros chain w. pose proof (probe_key_elements_spec chain w) as H.
    destruct (HomePage.probe_key_elements chain w) as [[o w1] tr].
    destruct o as [[|]| |]; assumption.
  - intros ids w. rewrite probe_load_indicators_loop.
    pose proof (indicator_loop_spec testid_locator
                  "Page is no longer available while checking load indicators"
                  "Found load indicator: {test_id}"
                  "Indicator {test_id} not found: {e}" ids w) as H.
    destruct (indicator_loop _ _ _ _ ids w) as [[o w1] tr].
    destruct o; [assumption| |assumption].
    destruct H as [[H _]|H]; [left|right]; assumption.
  - intros sels w. rewrite probe_generic_selectors_loop.
    pose proof (indicator_loop_spec css_locator
                  "Page is no longer available while checking generic selectors"
                  "Found load indicator: {selector}"
                  "Selector {selector} not found: {e}" sels w) as H.
    destruct (indicator_loop _ _ _ _ sels w) as [[o w1] tr].
    destruct o; [assumption| |assumption].
    destruct H as [[H _]|H]; [left|right]; assumption.
Qed.

End ProbeTheorems.

(** * The page-readiness detector

    ** Triggers and what follows them *)
Section AfterFacts.
Variable trig : event -> bool.
Variable tail : trace -> bool.

Lemma after_quiet (t1 t2 : trace) :
  existsb trig t1 = false -> after trig tail (t1 ++ t2) = after trig tail t2.
Proof.
  induction t1 as [|e t1 IH]; simpl; [reflexivity|].
  intros H. apply orb_false_iff in H. destruct H as [-> H]. now apply IH.
Qed.

Lemma after_quiet_all (t : trace) :
  existsb trig t = false -> after trig tail t = true.
Proof.
  intros H. rewrite <- (app_nil_r t). now rewrite after_quiet.
Qed.

Lemma after_spec (tr : trace) :
  after trig tail tr = true ->
  forall pre e post, tr = pre ++ e :: post -> trig e = true -> tail post = true.
Proof.
  intros H pre. revert tr H. induction pre as [|x pre IH]; intros tr H e post -> He.
  - simpl in H. rewrite He in H. now apply andb_true_iff in H.
  - simpl in H. apply andb_true_iff in H. destruct H as [_ H].
    now apply (IH _ H e post).
Qed.
End AfterFacts.

(** ** Blocks that leave no trigger in the log *)
Section Silent.
Context {world : Type} {B : Browser world}.
Variable trig : event -> bool.

Lemma silent_ret {R A} (a : A) : silent (world:=world) trig (ret (R:=R) a).
Proof. intros w. reflexivity. Qed.

Lemma silent_return {R A} (v : R) : silent (world:=world) trig (return_ (A:=A) v).
Proof. intros w. reflexivity. Qed.

Lemma silent_raise {R A} (e : exn) : silent (world:=world) trig (raise (R:=R) (A:=A) e).
Proof. intros w. reflexivity. Qed.

Lemma silent_read {R A} (f : world -> A) : silent (world:=world) trig (read (R:=R) f).
Proof. intros w. reflexivity. Qed.

Lemma silent_lift {R A} (r : result A) : silent (world:=world) trig (lift (R:=R) r).
Proof. intros w. destruct r; reflexivity. Qed.

Lemma silent_emit {R} (e : event) : trig e = false -> silent (world:=world) trig (emit (R:=R) e).
Proof. intros H w. simpl. now rewrite H. Qed.

Lemma silent_driver {R A} (f : world -> result A * world) (ev : result A -> event) :
  (forall r, trig (ev r) = false) -> silent (world:=world) trig (driver (R:=R) f ev).
Proof.
  intros H w. unfold driver. destruct (f w) as [[a|e] w1]; simpl; now rewrite H.
Qed.

Lemma silent_bind {R A C} (m : M R A) (f : A -> M R C) :
  silent (world:=world) trig m -> (forall a, silent (world:=world) trig (f a)) -> silent (world:=world) trig (bind m f).
Proof.
  intros Hm Hf w. unfold bind. specialize (Hm w).
  destruct (m w) as [[[a| |] w1] t1]; simpl in *; try assumption.
  specialize (Hf a w1). destruct (f a w1) as [[o w2] t2]. simpl in *.
  now rewrite existsb_app, Hm, Hf.
Qed.

Lemma silent_try_except {R A} (body : M R A) (handler : exn -> M R A) :
  silent (world:=world) trig body -> (forall e, silent (world:=world) trig (handler e)) -> silent (world:=world) trig (try_except body handler).
Proof.
  intros Hm Hf w. unfold try_except. specialize (Hm w).
  destruct (body w) as [[[a| |e] w1] t1]; simpl in *; try assumption.
  specialize (Hf e w1). destruct (handler e w1) as [[o w2] t2]. simpl in *.
  now rewrite existsb_app, Hm, Hf.
Qed.

Lemma silent_invoke {R A} (body : M A A) : silent (world:=world) trig body -> silent (world:=world) trig (invoke (R:=R) body).
Proof.
  intros Hm w. unfold invoke. specialize (Hm w).
  destruct (body w) as [[[a| |e] w1] t1]; assumption.
Qed.

Lemma silent_if {R A} (b : bool) (m1 m2 : M R A) :
  silent (world:=world) trig m1 -> silent (world:=world) trig m2 -> silent (world:=world) trig (if b then m1 else m2).
Proof. now destruct b. Qed.

Lemma silent_for_each {R X S} (xs : list X) (s : S) (body : X -> S -> M R (ctl S)) :
  (forall x s', silent (world:=world) trig (body x s')) -> silent (world:=world) trig (for_each xs s body).
Proof.
  intros Hb. revert s. induction xs as [|x xs IH]; intros s w; [reflexivity|].
  cbn [for_each]. specialize (Hb x s w).
  destruct (body x s w) as [[[[s1|s1]| |] w1] t1]; simpl in *; try assumption.
  specialize (IH s1 w1). destruct (for_each xs s1 body w1) as [[o w2] t2].
  simpl in *. now rewrite existsb_app, Hb, IH.
Qed.
End Silent.

Ltac silence :=
  repeat first
    [ apply silent_bind; [|intros ?]
    | apply silent_try_except; [|intros ?]
    | apply silent_invoke
    | apply silent_for_each; intros ? ?
    | apply silent_if
    | apply silent_ret
    | apply silent_return
    | apply silent_raise
    | apply silent_read
    | apply silent_lift
    | apply silent_emit; reflexivity
    | apply silent_driver; intros []; reflexivity ].


(** ** Composing blocks *)
Section BlockFacts.
Context {world : Type}.
Variable trig : event -> bool.
Variable tail : trace -> bool.

Lemma passes_of_silent {R A} (m : M (world:=world) R A) :
  silent (world:=world) trig m -> passes trig tail m.
Proof.
  intros H w. specialize (H w). destruct (m w) as [[o w1] tr]. simpl in H.
  split; [now apply after_quiet_all | now destruct o].
Qed.

Lemma passes_bind {R A C} (m : M (world:=world) R A) (f : A -> M R C) :
  passes trig tail m -> (forall a, passes trig tail (f a)) ->
  passes trig tail (bind m f).
Proof.
  intros Hm Hf w. unfold bind. specialize (Hm w).
  destruct (m w) as [[[a| |] w1] t1]; try assumption.
  destruct Hm as [_ Hq]. specialize (Hf a w1).
  destruct (f a w1) as [[o w2] t2]. destruct Hf as [Ha Ho].
  split; [now rewrite after_quiet|].
  destruct o; try exact I; now rewrite existsb_app, Hq, Ho.
Qed.

Lemma passes_try_except {R A} (body : M (world:=world) R A) (handler : exn -> M R A) :
  passes trig tail body -> (forall e, passes trig tail (handler e)) ->
  passes trig tail (try_except body handler).
Proof.
  intros Hm Hf w. unfold try_except. specialize (Hm w).
  destruct (body w) as [[[a| |e] w1] t1]; try assumption.
  destruct Hm as [_ Hq]. specialize (Hf e w1).
  destruct (handler e w1) as [[o w2] t2]. destruct Hf as [Ha Ho].
  split; [now rewrite after_quiet|].
  destruct o; try exact I; now rewrite existsb_app, Hq, Ho.
Qed.

Lemma ends_of_passes (th : trace) {R A} (m : M (world:=world) R A) :
  existsb trig th = false -> passes trig tail m -> ends trig tail th m.
Proof.
  intros Hth H w. specialize (H w). destruct (m w) as [[o w1] tr].
  destruct H as [Ha Hq]. destruct o; try assumption.
  rewrite after_quiet by assumption. now apply after_quiet_all.
Qed.

Lemma ends_bind (th : trace) {R A C} (m : M (world:=world) R A) (f : A -> M R C) :
  existsb trig th = false ->
  passes trig tail m -> (forall a, ends trig tail th (f a)) ->
  ends trig tail th (bind m f).
Proof.
  intros Hth Hm Hf w. unfold bind. specialize (Hm w).
  destruct (m w) as [[[a| |] w1] t1]; destruct Hm as [Ha Hq].
  - specialize (Hf a w1). destruct (f a w1) as [[o w2] t2].
    destruct o; rewrite <- ?app_assoc, after_quiet by assumption; assumption.
  - assumption.
  - rewrite after_quiet by assumption. now apply after_quiet_all.
Qed.

(** The function as a whole: a body that ends, in a [try] whose handler
    only logs [th]. *)
Lemma ends_call (th : trace) {R} (body : M (world:=world) R R) (handler : exn -> M R R) :
  ends trig tail th body ->
  (forall e w, exists o, handler e w = (o, w, th)) ->
  forall w, after trig tail (snd (call_function (try_except body handler) w)) = true.
Proof.
  intros Hb Hh w. unfold call_function, try_except. specialize (Hb w).
  destruct (body w) as [[[a|v|e] w1] t1]; try assumption.
  destruct (Hh e w1) as (o & ->). now destruct o.
Qed.
End BlockFacts.

(** ** [wait_for_page_load] *)
Section Readiness.
Context {world : Type} {B : Browser world}.
Variable expected_viewport : viewport.

Ltac open_blocks :=
  unfold SearchResultsPage.probe_load_indicators,
    SearchResultsPage.probe_generic_selectors,
    SearchResultsPage._ensure_full_screen, SearchResultsPage._is_page_available.

Lemma quiet_of_checks (tr : trace) :
  forallb not_visible (visibility_checks tr) = true ->
  existsb found_visible tr = false.
Proof.
  induction tr as [|e tr IH]; [reflexivity|].
  destruct e; simpl; try assumption.
  destruct r as [[|]|]; simpl; try assumption; discriminate.
Qed.

Lemma indicator_loop_passes (locate : string -> locator)
      (gone found not_found : string) (names : list string) :
  passes (world:=world) found_visible tail_found
         (indicator_loop locate gone found not_found names).
Proof.
  intros w. pose proof (indicator_loop_spec locate gone found not_found names w) as H.
  destruct (indicator_loop _ _ _ _ names w) as [[o w1] tr].
  cbv zeta in H. destruct o as [a|v|e]; [| |contradiction].
  - destruct H as [_ H]. apply quiet_of_checks in H.
    split; [now apply after_quiet_all | assumption].
  - split; [|exact I].
    destruct H as [((_ & pre_c & l' & Hc & Hp) & pre & l & ->)|((_ & Hp) & _)].
    + unfold visibility_checks in Hc. rewrite flat_map_app in Hc. simpl in Hc.
      apply app_inj_tail in Hc. destruct Hc as [Hc _].
      fold (visibility_checks pre) in Hc. rewrite <- Hc in Hp.
      apply quiet_of_checks in Hp.
      rewrite after_quiet by assumption. reflexivity.
    + apply after_quiet_all. now apply quiet_of_checks.
Qed.

Lemma found_visible_ends_detection (timeout : Z) (w : world) :
  after found_visible tail_found
        (snd (call_function
                (SearchResultsPage.wait_for_page_load expected_viewport timeout) w))
  = true.
Proof.
  unfold SearchResultsPage.wait_for_page_load.
  apply ends_call with (th := handler_log); [|intros e w'; eexists; reflexivity].
  apply ends_of_passes; [reflexivity|].
  repeat first
    [ apply passes_bind; [|intros ?]
    | rewrite probe_load_indicators_loop; apply indicator_loop_passes
    | rewrite probe_generic_selectors_loop; apply indicator_loop_passes
    | apply passes_of_silent; open_blocks; solve [silence] ].
Qed.

Lemma reaches_bind_l {R A C} (m : M (world:=world) R A) (f : A -> M R C) :
  reaches m -> reaches (bind m f).
Proof.
  intros Hm w. unfold bind. specialize (Hm w).
  destruct (m w) as [[[a| |] w1] t1]; try assumption.
  destruct (f a w1) as [[o w2] t2]. rewrite !existsb_app.
  apply orb_true_iff in Hm. destruct Hm as [-> | ->]; simpl;
    rewrite ?orb_true_r; reflexivity.
Qed.

Lemma reaches_bind {R A C} (m : M (world:=world) R A) (f : A -> M R C) :
  falls_through m -> (forall a, reaches (f a)) -> reaches (bind m f).
Proof.
  intros Hm Hf w. unfold bind. specialize (Hm w).
  destruct (m w) as [[o w1] t1].
  destruct Hm as [Hr | (a & ->)].
  - destruct o as [a| |]; try (rewrite Hr; reflexivity).
    destruct (f a w1) as [[o w2] t2]. rewrite !existsb_app, Hr. reflexivity.
  - specialize (Hf a w1). destruct (f a w1) as [[o w2] t2].
    rewrite !existsb_app.
    apply orb_true_iff in Hf. destruct Hf as [-> | ->];
      rewrite ?orb_true_r; reflexivity.
Qed.

Lemma falls_through_ensure :
  falls_through (invoke (R:=unit)
                   (SearchResultsPage._ensure_full_screen expected_viewport)).
Proof.
  intros w. open_blocks. run_step.
  destruct (viewport_neq (viewport_size w) expected_viewport); cbv beta iota;
    repeat (ask; cbv beta iota); simpl; eauto.
Qed.

Lemma falls_through_screenshot (name warning : string) (full_page : bool) :
  falls_through
    (try_except (R:=unit)
       (driver (screenshot full_page) (EScreenshot full_page) ;;
        emit (EAttach name PNG))
       (fun _ => emit (ELog WARNING warning))).
Proof. intros w. run_step. ask; cbv beta iota; simpl; eauto. Qed.

Lemma reaches_guarded (gone : string) (rest : M (world:=world) unit unit) :
  reaches rest ->
  reaches (available <- invoke SearchResultsPage._is_page_available ;;
           (if negb available
            then emit (ELog ERROR gone) ;; return_ tt
            else ret tt) ;;
           rest).
Proof.
  intros Hr w. open_blocks. run_step.
  destruct (url primary w) as [[u|e] w1]; cbv beta iota; [|reflexivity].
  cbn [negb]. cbv beta iota. specialize (Hr w1).
  destruct (rest w1) as [[o w2] t2]. cbn [app existsb event_raised raised orb].
  assumption.
Qed.

Lemma reaches_first_indicator (others : list string) :
  reaches (SearchResultsPage.probe_load_indicators ("card-container" :: others)).
Proof.
  intros w. open_blocks. cbn [for_each]. run_step.
  destruct (url primary w) as [[u|e] w1]; cbv beta iota; [|reflexivity].
  cbn [negb]. cbv beta iota.
  match goal with
  | |- context [is_visible ?l 2000 w1] =>
      destruct (is_visible l 2000 w1) as [[[|]|e] w2]; cbv beta iota
  end.
  - reflexivity.
  - match goal with
    | |- context [for_each others tt ?b w2] =>
        destruct (for_each others tt b w2) as [[o w3] t3]
    end.
    cbn [app existsb]. rewrite !orb_true_r. reflexivity.
  - match goal with
    | |- context [for_each others tt ?b w2] =>
        destruct (for_each others tt b w2) as [[o w3] t3]
    end.
    reflexivity.
Qed.

Lemma soft_wait_then (timeout : Z) (rest : M (world:=world) unit unit) :
  silent load_state_raised rest -> reaches rest ->
  ends load_state_raised tail_soft_wait handler_log
    (try_except
       (emit (ELog INFO "Waiting for DOM content loaded...") ;;
        driver (wait_for_load_state "domcontentloaded" (Z.min 15000 (timeout / 4)))
               (EWaitForLoadState "domcontentloaded" (Z.min 15000 (timeout / 4))) ;;
        emit (ELog INFO "DOM content loaded reached"))
       (fun dom_error =>
          emit (ELog WARNING "DOM content loaded timed out: {dom_error}") ;;
          emit (EAttach "Load State Timeout" TEXT)) ;;
     emit (ELog INFO "Waiting for JS execution...") ;;
     driver (wait_for_timeout 3000) (EWaitForTimeout 3000) ;;
     rest).
Proof.
  intros Hs Hr w. run_step.
  destruct (wait_for_load_state _ _ w) as [[[]|e] w1]; cbv beta iota;
    (destruct (wait_for_timeout 3000 w1) as [[[]|e'] w2]; cbv beta iota;
     [ specialize (Hs w2); specialize (Hr w2);
       destruct (rest w2) as [[o w3] t3]; cbn [snd] in Hs
     | ]).
  - destruct o; cbn [app after load_state_raised];
      rewrite ?after_quiet by assumption; try reflexivity;
      now apply after_quiet_all.
  - reflexivity.
  - assert (Hth : forall th, existsb load_state_raised th = false ->
                  after load_state_raised tail_soft_wait (t3 ++ th) = true)
      by (intros th Hth; rewrite after_quiet by assumption;
          now apply after_quiet_all).
    assert (Hreach : forall th,
               existsb event_raised (t3 ++ th)
               || existsb first_indicator_check (t3 ++ th) = true).
    { intros th. rewrite !existsb_app.
      apply orb_true_iff in Hr. destruct Hr as [-> | ->];
        rewrite ?orb_true_r; reflexivity. }
    destruct o; cbn [app after load_state_raised tail_soft_wait String.eqb Ascii.eqb
                     Bool.eqb andb raised orb].
    + specialize (Hth [] eq_refl). specialize (Hreach []).
      rewrite app_nil_r in Hth, Hreach. now rewrite Hth, Hreach.
    + specialize (Hth [] eq_refl). specialize (Hreach []).
      rewrite app_nil_r in Hth, Hreach. now rewrite Hth, Hreach.
    + now rewrite (Hth handler_log eq_refl), (Hreach handler_log).
  - reflexivity.
Qed.

Lemma soft_wait_proceeds (timeout : Z) (w : world) :
  after load_state_raised tail_soft_wait
        (snd (call_function
                (SearchResultsPage.wait_for_page_load expected_viewport timeout) w))
  = true.
Proof.
  unfold SearchResultsPage.wait_for_page_load, SearchResultsPage.load_indicators.
  apply ends_call with (th := handler_log); [|intros e w'; eexists; reflexivity].
  do 4 (apply ends_bind;
        [reflexivity | apply passes_of_silent; open_blocks; solve [silence] | intros ?]).
  apply soft_wait_then.
  - open_blocks. silence.
  - apply reaches_guarded.
    apply reaches_bind; [apply falls_through_ensure | intros _].
    apply reaches_bind; [apply falls_through_screenshot | intros _].
    apply reaches_bind_l. apply reaches_first_indicator.
Qed.

Lemma fallback_failure_is_degraded (timeout : Z) (w : world) :
  after fallback_raised tail_degraded
        (snd (call_function
                (SearchResultsPage.wait_for_page_load expected_viewport timeout) w))
  = true.
Proof.
  unfold SearchResultsPage.wait_for_page_load.
  apply ends_call with (th := handler_log); [|intros e w'; eexists; reflexivity].
  repeat (apply ends_bind;
          [reflexivity | apply passes_of_silent; open_blocks; solve [silence] | intros ?]).
  match goal with |- context [if ?b then _ else _] => destruct b end;
    intros w1; run_step; repeat (ask; cbv beta iota); reflexivity.
Qed.

Lemma wait_for_page_load_returns (timeout : Z) (w : world) :
  fst (fst (call_function
              (SearchResultsPage.wait_for_page_load expected_viewport timeout) w))
  = Ok tt.
Proof.
  unfold SearchResultsPage.wait_for_page_load, call_function, try_except at 1.
  match goal with
  | |- context [let (_, _) := ?body w in _] => destruct (body w) as [[[[]|[]|e] w1] t1]
  end; reflexivity.
Qed.
End Readiness.

(** ** [navigate] *)
Section Navigate.
Context {world : Type} {B : Browser world}.
Variable expected_viewport : viewport.

Lemma tail_navigate_wait_app (post extra : trace) :
  tail_navigate_wait post = true -> tail_navigate_wait (post ++ extra) = true.
Proof.
  destruct post as [|[] post]; try discriminate. destruct lvl; try discriminate.
  simpl. intros H. rewrite existsb_app, H. reflexivity.
Qed.

Lemma after_navigate_app (tr th : trace) :
  after load_state_raised tail_navigate_wait tr = true ->
  existsb load_state_raised th = false ->
  after load_state_raised tail_navigate_wait (tr ++ th) = true.
Proof.
  intros H Hth. induction tr as [|e tr IH]; simpl in *.
  - now apply after_quiet_all.
  - apply andb_true_iff in H. destruct H as [H1 H2].
    rewrite (IH H2), andb_true_r.
    destruct (load_state_raised e); [|reflexivity].
    now apply tail_navigate_wait_app.
Qed.

Lemma navigate_waits_then (others : list locator) (rest : bool -> M (world:=world) unit unit) :
  (forall b, silent load_state_raised (rest b)) ->
  ends load_state_raised tail_navigate_wait []
    (try_except
       (emit (ELog INFO "Waiting for network idle...") ;;
        driver (wait_for_load_state "networkidle" 30000)
               (EWaitForLoadState "networkidle" 30000))
       (fun e => emit (ELog WARNING "Network idle timeout: {e}")) ;;
     try_except
       (emit (ELog INFO "Waiting for DOM content loaded...") ;;
        driver (wait_for_load_state "domcontentloaded" 15000)
               (EWaitForLoadState "domcontentloaded" 15000))
       (fun e => emit (ELog WARNING "DOM content loaded timeout: {e}")) ;;
     emit (ELog INFO "Checking for key elements on the page...") ;;
     element_found <- HomePage.probe_key_elements (HomePage.logo :: others) ;;
     rest element_found).
Proof.
  intros Hs w.
  assert (Hloop : forall w', existsb load_state_raised
                               (snd (HomePage.probe_key_elements (R:=unit) others w')) = false).
  { intros w'. unfold HomePage.probe_key_elements.
    apply (silent_for_each (world:=world)). intros x s. silence. }
  unfold HomePage.probe_key_elements in *. cbn [for_each]. run_step.
  cbv beta iota delta
    [bind ret return_ raise driver emit try_except try_except_AssertionError
     lift invoke read py_assert call_function] in Hloop.
  destruct (wait_for_load_state "networkidle" 30000 w) as [[[]|e1] w1]; cbv beta iota;
    (destruct (wait_for_load_state "domcontentloaded" 15000 w1) as [[[]|e2] w2];
     cbv beta iota;
     (destruct (is_visible HomePage.logo 5000 w2) as [[[|]|e3] w3]; cbv beta iota));
    try match goal with
        | |- context [for_each others false ?b ?w'] =>
            let H := fresh "Hl" in
            pose proof (Hloop w') as H;
            destruct (for_each others false b w') as [[[ef| |] w4] t4];
            cbn [snd] in H; cbv beta iota
        end;
    try match goal with
        | |- context [rest ?b ?w'] =>
            let H := fresh "Hr" in
            pose proof (Hs b w') as H;
            destruct (rest b w') as [[o5 w5] t5]; cbn [snd] in H;
            cbv beta iota; destruct o5
        end;
    cbn [app after load_state_raised tail_navigate_wait existsb locator_eqb
             HomePage.logo surface_eqb andb orb];
    rewrite ?String.eqb_refl; cbn [andb orb];
    rewrite ?app_nil_r, ?orb_true_r; cbn [andb orb];
    rewrite ?after_quiet by assumption;
    try (apply after_quiet_all; assumption);
    try reflexivity.
Qed.

Lemma navigate_soft_waits (w : world) :
  after load_state_raised tail_navigate_wait
        (snd (call_function (HomePage.navigate expected_viewport) w)) = true.
Proof.
  unfold HomePage.navigate, HomePage.selectors_to_try.
  unfold call_function, try_except at 1.
  match goal with
  | |- context [let (_, _) := ?body w in _] =>
      assert (Hb : ends load_state_raised tail_navigate_wait [] body)
  end.
  { do 5 (apply ends_bind;
          [reflexivity
          | apply passes_of_silent; unfold HomePage._ensure_full_screen; solve [silence]
          | intros ?]).
    apply navigate_waits_then.
    intros b. unfold HomePage._ensure_full_screen. silence. }
  specialize (Hb w).
  match goal with
  | |- context [let (_, _) := ?body w in _] => destruct (body w) as [[[[]|[]|e] w1] t1]
  end; try assumption.
  rewrite app_nil_r in Hb.
  match goal with
  | |- context [let (_, _) := ?h w1 in _] =>
      assert (Hh : existsb load_state_raised (snd (h w1)) = false);
      [| destruct (h w1) as [[o w2] t2]; cbn [snd] in Hh ]
  end.
  { match goal with
    | |- existsb _ (snd (?h w1)) = false =>
        assert (Hs : silent load_state_raised h) by silence; apply Hs
    end. }
  destruct o; cbn [snd]; now apply after_navigate_app.
Qed.
End Navigate.

(** ** Getting to the waits and checks *)
Section ProgressFacts.
Context {world : Type} {B : Browser world}.

Lemma readiness_calls_app (t1 t2 : trace) :
  readiness_calls (t1 ++ t2) = readiness_calls t1 ++ readiness_calls t2.
Proof. apply filter_app. Qed.

Lemma readiness_calls_quiet (t : trace) :
  existsb readiness_call t = false -> readiness_calls t = [].
Proof.
  induction t as [|e t IH]; [reflexivity|]. cbn [existsb]. intros H.
  apply orb_false_iff in H. destruct H as [He H].
  unfold readiness_calls. cbn [filter]. rewrite He. now apply IH.
Qed.

Lemma checks_only (timeout : Z) (t : trace) :
  existsb (other_call timeout) t = false ->
  readiness_calls t = map (check_event timeout) (visibility_checks t).
Proof.
  induction t as [|e t IH]; [reflexivity|]. cbn [existsb]. intros H.
  apply orb_false_iff in H. destruct H as [He H]. specialize (IH H).
  unfold readiness_calls, visibility_checks in *.
  destruct e; cbn [filter readiness_call flat_map app map] in *;
    try assumption; try discriminate He.
  cbn in He. apply negb_false_iff, Z.eqb_eq in He. subst.
  now rewrite IH.
Qed.

Lemma visibility_checks_app (t1 t2 : trace) :
  visibility_checks (t1 ++ t2) = visibility_checks t1 ++ visibility_checks t2.
Proof. apply flat_map_app. Qed.

(** *** Chains checked one after the other *)

Lemma chain_length (chain : list locator) (checks : list (locator * result bool)) :
  map fst checks = firstn (List.length checks) chain ->
  (List.length checks <= List.length chain)%nat.
Proof.
  intros H. apply (f_equal (@List.length _)) in H.
  rewrite length_map, length_firstn in H. lia.
Qed.

Lemma chain_stopped_app (c1 c2 : list locator) (k : list (locator * result bool)) :
  chain_stopped_at_first_visible c1 k -> chain_stopped_at_first_visible (c1 ++ c2) k.
Proof.
  intros [Ho Hp]. split; [|exact Hp].
  pose proof (chain_length _ _ Ho) as Hl.
  rewrite firstn_app.
  replace (List.length k - List.length c1)%nat with 0%nat by lia.
  cbn [firstn]. now rewrite app_nil_r.
Qed.

Lemma chain_exhausted_stopped (c1 c2 : list locator)
      (k1 k2 : list (locator * result bool)) :
  chain_exhausted c1 k1 -> chain_stopped_at_first_visible c2 k2 ->
  chain_stopped_at_first_visible (c1 ++ c2) (k1 ++ k2).
Proof.
  intros [H1 Hn] [H2 (pre & l & Hk & Hp)]. split.
  - assert (E : List.length k1 = List.length c1)
      by (rewrite <- H1; now rewrite length_map).
    rewrite map_app, H2, length_app, E, firstn_app_2. now rewrite H1.
  - exists (k1 ++ pre), l. rewrite Hk, app_assoc. split; [reflexivity|].
    now rewrite forallb_app, Hn, Hp.
Qed.

Lemma chain_exhausted_app (c1 c2 : list locator)
      (k1 k2 : list (locator * result bool)) :
  chain_exhausted c1 k1 -> chain_exhausted c2 k2 -> chain_exhausted (c1 ++ c2) (k1 ++ k2).
Proof.
  intros [H1 Hn1] [H2 Hn2]. split.
  - now rewrite map_app, H1, H2.
  - now rewrite forallb_app, Hn1, Hn2.
Qed.

Lemma probed_chain_after (lead' lead : trace) (t1 t2 : trace) :
  readiness_calls t1 = lead' -> probed_chain lead t2 ->
  probed_chain (lead' ++ lead) (t1 ++ t2).
Proof.
  intros H1 (checks & [[Hc H2]|(Hc & r & pre & H2 & ->)]); exists checks; [left|right];
    (split; [exact Hc|]).
  - now rewrite readiness_calls_app, H1, H2, app_assoc.
  - exists r, (t1 ++ pre). split; [|now rewrite app_assoc].
    now rewrite readiness_calls_app, H1, H2, !app_assoc.
Qed.

Section BlockSteps.
Variable failure : event -> bool.

Lemma idles_bind {R A C} (m : M (world:=world) R A) (f : A -> M R C) :
  idles failure m -> (forall a, idles failure (f a)) -> idles failure (bind m f).
Proof.
  intros Hm Hf w. unfold bind. specialize (Hm w).
  destruct (m w) as [[[a|v|e] w1] t1]; try assumption.
  destruct Hm as [Hq _]. specialize (Hf a w1).
  destruct (f a w1) as [[o w2] t2]. destruct Hf as [Hq2 Ho].
  split; [now rewrite existsb_app, Hq, Hq2|].
  destruct o; [exact I| |]; rewrite existsb_app, Ho; apply orb_true_r.
Qed.

Lemma idles_emit {R} (e : event) :
  readiness_call e = false -> idles failure (emit (world:=world) (R:=R) e).
Proof. intros H w. cbn. now rewrite H. Qed.

Lemma idles_ret {R A} (a : A) : idles failure (ret (world:=world) (R:=R) a).
Proof. intros w. cbn. auto. Qed.

Lemma idles_driver {R A} (f : world -> result A * world) (ev : result A -> event) :
  (forall r, readiness_call (ev r) = false) ->
  (forall x, failure (ev (Raised x)) = true) ->
  idles failure (driver (R:=R) f ev).
Proof.
  intros Hq Hf w. unfold driver. destruct (f w) as [[a|x] w1]; cbn.
  - now rewrite Hq.
  - now rewrite Hq, Hf.
Qed.

(** A screenshot in a [try] of its own. *)
Lemma idles_screenshot {R} (full_page : bool) (done : M (world:=world) R unit)
      (warning : event) :
  idles failure done -> readiness_call warning = false ->
  idles failure
    (try_except (driver (screenshot full_page) (EScreenshot full_page) ;; done)
                (fun _ => emit warning)).
Proof.
  intros Hd Hw w. unfold try_except, bind, driver, emit.
  destruct (screenshot full_page w) as [[[]|x] w1].
  - specialize (Hd w1). destruct (done w1) as [[[a|v|e] w2] t2];
      destruct Hd as [Hq Ho]; cbn [app existsb readiness_call orb].
    + auto.
    + split; [assumption|]. rewrite Ho. apply orb_true_r.
    + rewrite existsb_app, Hq. cbn. now rewrite Hw.
  - cbn. now rewrite Hw.
Qed.

Lemma proceeds_after_idle (P : trace -> Prop) {R A C}
      (m : M (world:=world) R A) (f : A -> M R C) :
  (forall t1 t2, existsb readiness_call t1 = false -> P t2 -> P (t1 ++ t2)) ->
  idles failure m -> (forall a, proceeds failure P (f a)) ->
  proceeds failure P (bind m f).
Proof.
  intros HP Hm Hf w. unfold bind. specialize (Hm w).
  destruct (m w) as [[[a|v|e] w1] t1]; destruct Hm as [Hq Ho].
  - specialize (Hf a w1). destruct (f a w1) as [[o w2] t2].
    rewrite existsb_app.
    destruct o; [destruct Hf as [->|Hf]| destruct Hf as [->|Hf] | rewrite Hf];
      rewrite ?orb_true_r; auto.
  - auto.
  - assumption.
Qed.

Lemma proceeds_before_idle (P : trace -> Prop) {R A C}
      (m : M (world:=world) R A) (f : A -> M R C) :
  (forall t1 t2, P t1 -> existsb readiness_call t2 = false -> P (t1 ++ t2)) ->
  proceeds failure P m -> (forall a, idles failure (f a)) ->
  proceeds failure P (bind m f).
Proof.
  intros HP Hm Hf w. unfold bind. specialize (Hm w).
  destruct (m w) as [[[a|v|e] w1] t1]; try assumption.
  specialize (Hf a w1). destruct (f a w1) as [[o w2] t2]. destruct Hf as [Hq Ho].
  rewrite existsb_app.
  destruct o; [|rewrite Ho, orb_true_r; auto|rewrite Ho; apply orb_true_r].
  destruct Hm as [->|Hm]; auto.
Qed.

(** The function as a whole, in a [try]. *)
Lemma proceeds_call (P : trace -> Prop) {R}
      (body : M (world:=world) R R) (handler : exn -> M R R) (w : world) :
  proceeds failure P body ->
  let tr := snd (call_function (try_except body handler) w) in
  existsb failure tr = false -> P tr.
Proof.
  intros Hb. unfold call_function, try_except. specialize (Hb w).
  destruct (body w) as [[[a|v|e] w1] t1]; cbn [snd].
  - destruct Hb as [Hb|Hb]; [congruence|auto].
  - destruct Hb as [Hb|Hb]; [congruence|auto].
  - destruct (handler e w1) as [[o w2] t2].
    destruct o; cbn [snd]; rewrite existsb_app, Hb; discriminate.
Qed.
End BlockSteps.
End ProgressFacts.

(** ** [wait_for_page_load] gets to its waits and checks *)
Section DetectionProgress.
Context {world : Type} {B : Browser world}.
Variable expected_viewport : viewport.

Lemma probed_chain_idle_prefix (lead t1 t2 : trace) :
  existsb readiness_call t1 = false -> probed_chain lead t2 -> probed_chain lead (t1 ++ t2).
Proof.
  intros H1 H2. apply readiness_calls_quiet in H1.
  exact (@probed_chain_after [] lead t1 t2 H1 H2).
Qed.

Lemma idles_ensure {R} :
  idles detection_failure
        (invoke (R:=R) (SearchResultsPage._ensure_full_screen expected_viewport)).
Proof.
  intros w. unfold SearchResultsPage._ensure_full_screen. run_step.
  destruct (viewport_neq (viewport_size w) expected_viewport); cbv beta iota;
    repeat (ask; cbv beta iota); cbn; auto.
Qed.

Lemma proceeds_guarded (P : trace -> Prop) (gone : string)
      (rest : M (world:=world) unit unit) :
  (forall t1 t2, existsb readiness_call t1 = false -> P t2 -> P (t1 ++ t2)) ->
  proceeds detection_failure P rest ->
  proceeds detection_failure P
    (available <- invoke SearchResultsPage._is_page_available ;;
     (if negb available
      then emit (ELog ERROR gone) ;; return_ tt
      else ret tt) ;;
     rest).
Proof.
  intros HP Hr w. unfold SearchResultsPage._is_page_available. run_step.
  destruct (url primary w) as [[u|e] w1]; cbv beta iota.
  - cbn [negb]. cbv beta iota. specialize (Hr w1).
    destruct (rest w1) as [[o w2] t2]. cbn [app].
    destruct o; cbn [existsb detection_failure orb]; try assumption;
      (destruct Hr as [Hr|Hr]; [left; assumption|right]);
      exact (HP [EUrl primary (Ok u)] t2 eq_refl Hr).
  - left. reflexivity.
Qed.

Lemma load_wait_proceeds (timeout : Z) (rest : M (world:=world) unit unit) :
  proceeds detection_failure (probed_chain []) rest ->
  proceeds detection_failure
    (fun t => exists r,
         probed_chain [EWaitForLoadState "domcontentloaded"
                                         (Z.min 15000 (timeout / 4)) r] t)
    (try_except
       (emit (ELog INFO "Waiting for DOM content loaded...") ;;
        driver (wait_for_load_state "domcontentloaded" (Z.min 15000 (timeout / 4)))
               (EWaitForLoadState "domcontentloaded" (Z.min 15000 (timeout / 4))) ;;
        emit (ELog INFO "DOM content loaded reached"))
       (fun dom_error =>
          emit (ELog WARNING "DOM content loaded timed out: {dom_error}") ;;
          emit (EAttach "Load State Timeout" TEXT)) ;;
     rest).
Proof.
  intros Hr w. run_step.
  destruct (wait_for_load_state _ _ w) as [[[]|e] w1]; cbv beta iota;
    specialize (Hr w1); destruct (rest w1) as [[o w2] t2]; cbn [app];
    destruct o; cbn [existsb detection_failure orb]; try assumption;
    (destruct Hr as [Hr|Hr]; [left; assumption|right]).
  1,2: exists (Ok tt);
    exact (@probed_chain_after _ []
             [ELog INFO "Waiting for DOM content loaded...";
              EWaitForLoadState "domcontentloaded" (Z.min 15000 (timeout / 4)) (Ok tt);
              ELog INFO "DOM content loaded reached"] t2 eq_refl Hr).
  1,2: exists (Raised e);
    exact (@probed_chain_after _ []
             [ELog INFO "Waiting for DOM content loaded...";
              EWaitForLoadState "domcontentloaded" (Z.min 15000 (timeout / 4)) (Raised e);
              ELog WARNING "DOM content loaded timed out: {dom_error}";
              EAttach "Load State Timeout" TEXT] t2 eq_refl Hr).
Qed.

Lemma indicator_loop_calls (locate : string -> locator)
      (gone found not_found : string) (names : list string) (w : world) :
  let '(o, _, tr) := indicator_loop locate gone found not_found names w in
  readiness_calls tr = map (check_event 2000) (visibility_checks tr) /\
  match o with
  | Normal _ => chain_exhausted (map locate names) (visibility_checks tr)
  | Return _ =>
      chain_stopped_at_first_visible (map locate names) (visibility_checks tr) \/
      existsb detection_failure tr = true
  | Raise _ => False
  end.
Proof.
  pose proof (indicator_loop_spec locate gone found not_found names w) as H.
  assert (Hs : silent (world:=world) (other_call 2000)
                      (indicator_loop locate gone found not_found names))
    by (unfold indicator_loop, SearchResultsPage._is_page_available; silence).
  specialize (Hs w).
  destruct (indicator_loop locate gone found not_found names w) as [[o w1] tr].
  cbn [snd] in Hs. cbv zeta in H.
  split; [now apply checks_only|].
  destruct o as [a|v|e]; [assumption| |assumption].
  destruct H as [[H _]|[_ (pre & e & ->)]]; [left; assumption|right].
  rewrite existsb_app. cbn. apply orb_true_r.
Qed.

Lemma probing_proceeds :
  proceeds detection_failure (probed_chain [])
    (SearchResultsPage.probe_load_indicators SearchResultsPage.load_indicators ;;
     SearchResultsPage.probe_generic_selectors SearchResultsPage.generic_selectors ;;
     available <- invoke SearchResultsPage._is_page_available ;;
     (if available
      then
        try_except
          (emit (ELog INFO "Waiting for any visible element...") ;;
           driver (wait_for_selector "body > *" 5000) (EWaitForSelector "body > *" 5000) ;;
           emit (ELog INFO "Found at least some content on the page"))
          (fun e => emit (ELog WARNING "No content found on page: {e}"))
      else ret tt) ;;
     try_except
       (driver (screenshot false) (EScreenshot false) ;;
        emit (EAttach "Page loaded without specific indicators" PNG))
       (fun screenshot_error =>
          emit (ELog WARNING "Failed to take final screenshot: {screenshot_error}")) ;;
     emit (ELog INFO "Page loaded without finding specific indicators")).
Proof.
  intros w. rewrite probe_load_indicators_loop, probe_generic_selectors_loop.
  unfold SearchResultsPage._is_page_available. run_step.
  match goal with
  | |- context [indicator_loop ?l ?g ?f ?n SearchResultsPage.load_indicators w] =>
      pose proof (indicator_loop_calls l g f n SearchResultsPage.load_indicators w) as H1;
      destruct (indicator_loop l g f n SearchResultsPage.load_indicators w)
        as [[[[]|[]|e] w1] t1]
  end; destruct H1 as [Hc1 H1]; cbv beta iota.
  3: contradiction.
  2:{ destruct H1 as [H1|H1]; [right|left; assumption].
      exists (visibility_checks t1). left. split; [|exact Hc1].
      now apply chain_stopped_app. }
  match goal with
  | |- context [indicator_loop ?l ?g ?f ?n SearchResultsPage.generic_selectors w1] =>
      pose proof (indicator_loop_calls l g f n SearchResultsPage.generic_selectors w1)
        as H2;
      destruct (indicator_loop l g f n SearchResultsPage.generic_selectors w1)
        as [[[[]|[]|e] w2] t2]
  end; destruct H2 as [Hc2 H2]; cbv beta iota.
  3: contradiction.
  2:{ destruct H2 as [H2|H2]; [right|left; rewrite existsb_app, H2; apply orb_true_r].
      exists (visibility_checks t1 ++ visibility_checks t2). left.
      split; [now apply chain_exhausted_stopped|].
      now rewrite readiness_calls_app, Hc1, Hc2, map_app. }
  assert (Hx : chain_exhausted indicator_chain
                               (visibility_checks t1 ++ visibility_checks t2))
    by now apply chain_exhausted_app.
  destruct (url primary w2) as [[u|e] w3]; cbv beta iota.
  2:{ destruct (screenshot false w3) as [[[]|e'] w4]; cbv beta iota; left;
        rewrite !existsb_app; cbn; rewrite ?orb_true_r; reflexivity. }
  destruct (wait_for_selector "body > *" 5000 w3) as [[[]|e] w4]; cbv beta iota;
    (destruct (screenshot false w4) as [[[]|e'] w5]; cbv beta iota);
    right; exists (visibility_checks t1 ++ visibility_checks t2); right;
    (split; [exact Hx|]);
    lazymatch goal with
       | |- context [app t2 ?tail] =>
           lazymatch tail with
           | context [EWaitForSelector _ _ ?r] =>
               exists r, (t1 ++ t2 ++ removelast tail)
           end
    end;
    (split; [rewrite !readiness_calls_app, Hc1, Hc2, map_app;
             cbn [readiness_calls filter readiness_call app];
             rewrite <- ?app_assoc; reflexivity
            | cbn [app removelast]; rewrite <- ?app_assoc; reflexivity]).
Qed.

(** Unless the viewport guard or the pause for scripts raises or the
    page goes away, the log of [wait_for_page_load] holds the load-state
    wait, then the checks of the indicators in their order, and, when
    none was seen, the wait for any content and the closing line. *)
Lemma wait_for_page_load_proceeds (timeout : Z) (w : world) :
  let tr := snd (call_function
                   (SearchResultsPage.wait_for_page_load expected_viewport timeout) w) in
  existsb detection_failure tr = false ->
  exists r,
    probed_chain [EWaitForLoadState "domcontentloaded" (Z.min 15000 (timeout / 4)) r] tr.
Proof.
  unfold SearchResultsPage.wait_for_page_load.
  apply (proceeds_call (failure:=detection_failure)
           (P:=fun t => exists r,
                   probed_chain [EWaitForLoadState "domcontentloaded"
                                                   (Z.min 15000 (timeout / 4)) r] t)).
  assert (HP : forall t1 t2,
             existsb readiness_call t1 = false ->
             (exists r, probed_chain [EWaitForLoadState "domcontentloaded"
                                                        (Z.min 15000 (timeout / 4)) r] t2) ->
             exists r, probed_chain [EWaitForLoadState "domcontentloaded"
                                                       (Z.min 15000 (timeout / 4)) r]
                                    (t1 ++ t2)).
  { intros t1 t2 H1 (r & H2). exists r. now apply probed_chain_idle_prefix. }
  apply proceeds_after_idle; [exact HP | apply idles_ensure | intros _].
  apply proceeds_after_idle; [exact HP | | intros _].
  { apply idles_screenshot; [now apply idles_emit | reflexivity]. }
  apply proceeds_guarded; [exact HP|].
  apply load_wait_proceeds.
  apply proceeds_after_idle;
    [apply probed_chain_idle_prefix | now apply idles_emit | intros _].
  apply proceeds_after_idle; [apply probed_chain_idle_prefix | | intros _].
  { apply idles_driver; [intros r; reflexivity | intros x; reflexivity]. }
  apply proceeds_guarded; [apply probed_chain_idle_prefix|].
  apply proceeds_after_idle;
    [apply probed_chain_idle_prefix | apply idles_ensure | intros _].
  apply proceeds_after_idle; [apply probed_chain_idle_prefix | | intros _].
  { apply idles_screenshot; [now apply idles_emit | reflexivity]. }
  apply probing_proceeds.
Qed.
End DetectionProgress.

(** ** [navigate] gets to its waits and checks *)
Section NavigateProgress.
Context {world : Type} {B : Browser world}.
Variable expected_viewport : viewport.

Lemma probed_key_elements_idle_prefix (t1 t2 : trace) :
  existsb readiness_call t1 = false -> probed_key_elements t2 ->
  probed_key_elements (t1 ++ t2).
Proof.
  intros H1 (r1 & r2 & checks & H2 & Hc). exists r1, r2, checks.
  split; [|exact Hc].
  now rewrite readiness_calls_app, (readiness_calls_quiet _ H1).
Qed.

Lemma idles_ensure_home {R} :
  idles navigation_failure
        (invoke (R:=R) (HomePage._ensure_full_screen expected_viewport)).
Proof.
  intros w. unfold HomePage._ensure_full_screen. run_step.
  destruct (viewport_neq (viewport_size w) expected_viewport); cbv beta iota;
    repeat (ask; cbv beta iota); cbn; auto.
Qed.

Lemma key_elements_calls (chain : list locator) (w : world) :
  let '(o, _, tr) := HomePage.probe_key_elements (R:=unit) chain w in
  readiness_calls tr = map (check_event 5000) (visibility_checks tr) /\
  existsb navigation_failure tr = false /\
  match o with
  | Normal _ =>
      chain_stopped_at_first_visible chain (visibility_checks tr) \/
      chain_exhausted chain (visibility_checks tr)
  | _ => False
  end.
Proof.
  pose proof (probe_key_elements_spec chain w) as H.
  assert (Hs : silent (world:=world) (other_call 5000)
                      (HomePage.probe_key_elements (R:=unit) chain))
    by (unfold HomePage.probe_key_elements; silence).
  assert (Hf : silent (world:=world) navigation_failure
                      (HomePage.probe_key_elements (R:=unit) chain))
    by (unfold HomePage.probe_key_elements; silence).
  specialize (Hs w). specialize (Hf w).
  destruct (HomePage.probe_key_elements chain w) as [[o w1] tr].
  cbn [snd] in Hs, Hf.
  split; [now apply checks_only|]. split; [exact Hf|].
  destruct o as [[|]| |]; auto.
Qed.

Lemma navigate_waits_proceed (rest : bool -> M (world:=world) unit unit) :
  (forall b, idles navigation_failure (rest b)) ->
  proceeds navigation_failure probed_key_elements
    (try_except
       (emit (ELog INFO "Waiting for network idle...") ;;
        driver (wait_for_load_state "networkidle" 30000)
               (EWaitForLoadState "networkidle" 30000))
       (fun e => emit (ELog WARNING "Network idle timeout: {e}")) ;;
     try_except
       (emit (ELog INFO "Waiting for DOM content loaded...") ;;
        driver (wait_for_load_state "domcontentloaded" 15000)
               (EWaitForLoadState "domcontentloaded" 15000))
       (fun e => emit (ELog WARNING "DOM content loaded timeout: {e}")) ;;
     emit (ELog INFO "Checking for key elements on the page...") ;;
     element_found <- HomePage.probe_key_elements HomePage.selectors_to_try ;;
     rest element_found).
Proof.
  intros Hr w. run_step.
  destruct (wait_for_load_state "networkidle" 30000 w) as [[[]|e1] w1]; cbv beta iota;
    (destruct (wait_for_load_state "domcontentloaded" 15000 w1) as [[[]|e2] w2];
     cbv beta iota);
    pose proof (key_elements_calls HomePage.selectors_to_try w2) as Hk;
    destruct (HomePage.probe_key_elements HomePage.selectors_to_try w2)
      as [[[b| |] w3] t3];
    destruct Hk as (Hc & Hf & Hk); try contradiction; cbv beta iota;
    specialize (Hr b w3); destruct (rest b w3) as [[o w4] t4];
    destruct Hr as [Hq Ho]; cbn [app];
    destruct o; cbn [existsb navigation_failure orb];
    rewrite ?existsb_app, ?Ho, ?orb_true_r; auto; right;
    eexists; eexists; exists (visibility_checks t3);
    (split; [|exact Hk]);
    unfold readiness_calls; cbn [filter readiness_call];
    rewrite filter_app; fold (readiness_calls t3); fold (readiness_calls t4);
    rewrite Hc, (readiness_calls_quiet _ Hq), app_nil_r; reflexivity.
Qed.

(** Unless the viewport guard, [goto] or the read of the address raises,
    the log of [navigate] holds the two load-state waits and then the
    checks of the key elements in their order, up to the first one seen
    visible or over all of them. *)
Lemma navigate_proceeds (w : world) :
  let tr := snd (call_function (HomePage.navigate expected_viewport) w) in
  existsb navigation_failure tr = false -> probed_key_elements tr.
Proof.
  unfold HomePage.navigate.
  apply (proceeds_call (failure:=navigation_failure) (P:=probed_key_elements)).
  apply proceeds_after_idle;
    [apply probed_key_elements_idle_prefix | apply idles_ensure_home | intros _].
  apply proceeds_after_idle;
    [apply probed_key_elements_idle_prefix | now apply idles_emit | intros _].
  apply proceeds_after_idle; [apply probed_key_elements_idle_prefix | | intros _].
  { apply idles_driver; [intros r; reflexivity | intros x; reflexivity]. }
  apply proceeds_after_idle; [apply probed_key_elements_idle_prefix | | intros u].
  { apply idles_driver; [intros r; reflexivity | intros x; reflexivity]. }
  apply proceeds_after_idle;
    [apply probed_key_elements_idle_prefix | now apply idles_emit | intros _].
  apply navigate_waits_proceed.
  intros b. apply idles_bind; [destruct b; [apply idles_ret|now apply idles_emit]|intros _].
  apply idles_bind; [apply idles_ensure_home|intros _].
  apply idles_screenshot; [|reflexivity].
  apply idles_bind; [now apply idles_emit | intros _; now apply idles_emit].
Qed.
End NavigateProgress.

(** ** Reading the tails *)
Section Tails.

Lemma surface_eqb_eq (a b : surface) : surface_eqb a b = true -> a = b.
Proof. destruct a, b; simpl; congruence. Qed.

Lemma locator_eqb_eq (a b : locator) : locator_eqb a b = true -> a = b.
Proof.
  revert b. induction a as [s sel|a IH|a IH i]; intros [s' sel'|b|b i']; simpl;
    try discriminate.
  - intros H. apply andb_true_iff in H. destruct H as [H1 H2].
    apply surface_eqb_eq in H1. apply String.eqb_eq in H2. congruence.
  - intros H. f_equal. now apply IH.
  - intros H. apply andb_true_iff in H. destruct H as [H1 H2].
    apply IH in H1. apply Nat.eqb_eq in H2. congruence.
Qed.

Lemma tail_found_spec (post : trace) :
  tail_found post = true ->
  exists m, post = [EAttach "Page Load Success" TEXT; ELog INFO m].
Proof.
  destruct post as [|[] post]; try discriminate.
  destruct kind; try discriminate.
  destruct post as [|[] post]; try discriminate.
  destruct lvl; try discriminate.
  destruct post; try discriminate.
  simpl. intros H. apply String.eqb_eq in H. subst. eauto.
Qed.

Lemma tail_soft_wait_spec (post : trace) :
  tail_soft_wait post = true ->
  exists r post',
    post = ELog WARNING "DOM content loaded timed out: {dom_error}"
           :: EAttach "Load State Timeout" TEXT
           :: ELog INFO "Waiting for JS execution..."
           :: EWaitForTimeout 3000 r :: post' /\
    (raised r = false -> existsb event_raised post' = false ->
     exists b, In (EIsVisible (testid_locator "card-container") 2000 (Ok b)) post').
Proof.
  destruct post as [|[] post]; try discriminate.
  destruct lvl; try discriminate.
  destruct post as [|[] post]; try discriminate.
  destruct kind; try discriminate.
  destruct post as [|[] post]; try discriminate.
  destruct lvl; try discriminate.
  destruct post as [|[] post]; try discriminate.
  unfold tail_soft_wait.
  destruct (Z.eq_dec ms 3000) as [->|Hne].
  2:{ destruct ms as [|p|p]; try discriminate.
      repeat (destruct p as [p|p|]; try discriminate). contradiction. }
  intros H. rewrite !andb_true_iff in H. destruct H as (((H1 & H2) & H3) & H4).
  apply String.eqb_eq in H1, H2, H3. subst.
  exists r, post. split; [reflexivity|].
  intros Hr Hq. rewrite Hr, Hq in H4. simpl in H4.
  apply existsb_exists in H4. destruct H4 as (e & Hin & He).
  pose proof (existsb_false_In _ _ e Hq Hin) as Hne.
  destruct e; try discriminate. simpl in He.
  destruct (Z.eq_dec timeout 2000) as [->|Hne'].
  2:{ destruct timeout as [|p|p]; try discriminate.
      repeat (destruct p as [p|p|]; try discriminate). contradiction. }
  apply locator_eqb_eq in He. subst l.
  destruct r0 as [b|x]; [|discriminate]. eauto.
Qed.

Lemma tail_degraded_spec (post : trace) :
  tail_degraded post = true ->
  exists r outcome,
    post = [ELog WARNING "No content found on page: {e}"; EScreenshot false r;
            outcome;
            ELog INFO "Page loaded without finding specific indicators"].
Proof.
  destruct post as [|[] post]; try discriminate.
  destruct lvl; try discriminate.
  destruct post as [|[] post]; try discriminate.
  destruct full_page; try discriminate.
  destruct r as [[]|x].
  - destruct post as [|[] post]; try discriminate.
    destruct kind; try discriminate.
    destruct post as [|[] post]; try discriminate.
    destruct lvl; try discriminate.
    destruct post; try discriminate.
    unfold tail_degraded. intros H. rewrite !andb_true_iff in H.
    destruct H as ((H1 & H2) & H3). apply String.eqb_eq in H1, H2, H3. subst.
    eauto.
  - destruct post as [|[] post]; try discriminate.
    destruct lvl; try discriminate.
    destruct post as [|[] post]; try discriminate.
    destruct lvl; try discriminate.
    destruct post; try discriminate.
    unfold tail_degraded. intros H. rewrite !andb_true_iff in H.
    destruct H as ((H1 & H2) & H3). apply String.eqb_eq in H1, H2, H3. subst.
    eauto.
Qed.

Lemma tail_navigate_wait_spec (post : trace) :
  tail_navigate_wait post = true ->
  exists m r post1 post2,
    post = ELog WARNING m :: post1 ++ EIsVisible HomePage.logo 5000 r :: post2.
Proof.
  destruct post as [|[] post]; try discriminate.
  destruct lvl; try discriminate.
  simpl. intros H. apply existsb_exists in H. destruct H as (e & Hin & He).
  destruct e; try discriminate.
  destruct (Z.eq_dec timeout 5000) as [->|Hne'].
  2:{ destruct timeout as [|p|p]; try discriminate.
      repeat (destruct p as [p|p|]; try discriminate). contradiction. }
  apply locator_eqb_eq in He. subst l.
  apply in_split in Hin. destruct Hin as (post1 & post2 & ->). eauto.
Qed.
End Tails.

(** * The page-readiness detector *)
Section ReadinessTheorems.
Context {world : Type} {B : Browser world}.

(** C8. [wait_for_page_load] never raises: whatever the driver does, the
    call returns normally.  A load-state wait that raises is logged (the
    warning and the report attachment) and the detector goes on with the
    pause for scripts; unless a later call raises, it gets to the check of
    the first indicator.  A check that answers visible ends the
    detection: only the success attachment and log line follow, no
    further indicator is checked.  When no chain resolved and the last
    resort, the wait for any content, raises too, the detector still
    runs to its end and returns with the log line that the page loaded
    without specific indicators.  In [navigate] as well, a load-state
    wait that raises is logged and followed by the check of the key
    elements.

    The waits and checks are made: unless the viewport guard or the pause
    for scripts raises or the page goes away, the load-state waits,
    visibility checks and selector waits of [wait_for_page_load] are, in
    this order, the wait for [domcontentloaded] with the timeout
    [min(15000, timeout // 4)], whatever it answers, then the checks of
    the indicators in the order of the two chains, up to the first one
    seen visible, or over all ten and then the wait for any content,
    whatever it answers, with the closing line last in the log.  Unless
    its viewport guard, [goto] or the read of the address raises, those of
    [navigate] are the wait for [networkidle], the wait for
    [domcontentloaded], whatever they answer, and the checks of the key
    elements in order, up to the first one seen visible or over all of
    them. *)
Theorem page_readiness_waits_are_soft
        (w : world) (expected_viewport : viewport) (timeout : Z) :
  let run := call_function
               (SearchResultsPage.wait_for_page_load expected_viewport timeout) w in
  let r := fst (fst run) in
  let tr := snd run in
  let tr_navigate := snd (call_function (HomePage.navigate expected_viewport) w) in
  r = Ok tt /\
  (forall pre state t e post,
      tr = pre ++ EWaitForLoadState state t (Raised e) :: post ->
      exists r' post',
        post = ELog WARNING "DOM content loaded timed out: {dom_error}"
               :: EAttach "Load State Timeout" TEXT
               :: ELog INFO "Waiting for JS execution..."
               :: EWaitForTimeout 3000 r' :: post' /\
        (raised r' = false -> existsb event_raised post' = false ->
         exists b,
           In (EIsVisible (testid_locator "card-container") 2000 (Ok b)) post')) /\
  (forall pre l t post,
      tr = pre ++ EIsVisible l t (Ok true) :: post ->
      exists m, post = [EAttach "Page Load Success" TEXT; ELog INFO m]) /\
  (forall pre selector t e post,
      tr = pre ++ EWaitForSelector selector t (Raised e) :: post ->
      exists shot outcome,
        post = [ELog WARNING "No content found on page: {e}";
                EScreenshot false shot; outcome;
                ELog INFO "Page loaded without finding specific indicators"]) /\
  (forall pre state t e post,
      tr_navigate = pre ++ EWaitForLoadState state t (Raised e) :: post ->
      exists m r' post1 post2,
        post = ELog WARNING m :: post1 ++ EIsVisible HomePage.logo 5000 r' :: post2) /\
  (existsb detection_failure tr = false ->
   exists load checks,
     (chain_stopped_at_first_visible indicator_chain checks /\
      readiness_calls tr
      = EWaitForLoadState "domcontentloaded" (Z.min 15000 (timeout / 4)) load
        :: map (check_event 2000) checks) \/
     (chain_exhausted indicator_chain checks /\
      exists content pre,
        readiness_calls tr
        = EWaitForLoadState "domcontentloaded" (Z.min 15000 (timeout / 4)) load
          :: map (check_event 2000) checks
          ++ [EWaitForSelector "body > *" 5000 content] /\
        tr = pre ++ [ELog INFO "Page loaded without finding specific indicators"])) /\
  (existsb navigation_failure tr_navigate = false ->
   exists idle dom checks,
     readiness_calls tr_navigate
     = EWaitForLoadState "networkidle" 30000 idle
       :: EWaitForLoadState "domcontentloaded" 15000 dom
       :: map (check_event 5000) checks /\
     (chain_stopped_at_first_visible HomePage.selectors_to_try checks \/
      chain_exhausted HomePage.selectors_to_try checks)).
Proof.
  intros run r tr tr_navigate. subst r tr tr_navigate run.
  split; [apply wait_for_page_load_returns|].
  split; [|split; [|split; [|split; [|split]]]].
  - intros pre state t e post Heq.
    apply tail_soft_wait_spec.
    eapply after_spec; [apply (soft_wait_proceeds expected_viewport timeout w) | exact Heq | reflexivity].
  - intros pre l t post Heq.
    apply tail_found_spec.
    eapply after_spec; [apply (found_visible_ends_detection expected_viewport timeout w) | exact Heq | reflexivity].
  - intros pre selector t e post Heq.
    apply tail_degraded_spec.
    eapply after_spec; [apply (fallback_failure_is_degraded expected_viewport timeout w) | exact Heq | reflexivity].
  - intros pre state t e post Heq.
    apply tail_navigate_wait_spec.
    eapply after_spec; [apply (navigate_soft_waits expected_viewport w) | exact Heq | reflexivity].
  - intros Hcalm.
    destruct (wait_for_page_load_proceeds expected_viewport timeout w Hcalm)
      as (load & checks & H).
    exists load, checks. exact H.
  - intros Hcalm. exact (navigate_proceeds expected_viewport w Hcalm).
Qed.
End ReadinessTheorems.


(** * Parsing the dates of a range *)
Section Strptime.

Lemma digit_code (n : Z) :
  nat_of_ascii (digit n) = (48 + Z.to_nat (n mod 10))%nat.
Proof.
  unfold digit. pose proof (Z.mod_pos_bound n 10 ltac:(lia)).
  apply nat_ascii_embedding. lia.
Qed.

Lemma digit_value_digit (n : Z) : digit_value (digit n) = Some (n mod 10).
Proof.
  unfold digit_value. rewrite digit_code.
  pose proof (Z.mod_pos_bound n 10 ltac:(lia)).
  replace ((48 <=? Z.of_nat (48 + Z.to_nat (n mod 10)))
           && (Z.of_nat (48 + Z.to_nat (n mod 10)) <=? 57)) with true
    by (symmetry; apply andb_true_iff; split; apply Z.leb_le; lia).
  f_equal. lia.
Qed.

Lemma is_digit_digit (n : Z) : is_digit (digit n) = true.
Proof. unfold is_digit. now rewrite digit_value_digit. Qed.

Lemma is_space_digit (n : Z) : is_space (digit n) = false.
Proof.
  unfold is_space. rewrite digit_code.
  pose proof (Z.mod_pos_bound n 10 ltac:(lia)).
  apply orb_false_iff; split.
  - apply andb_false_iff. right. apply Nat.leb_gt. lia.
  - apply Nat.eqb_neq. lia.
Qed.

Lemma digit_not (c : ascii) (n : Z) :
  (nat_of_ascii c < 48)%nat \/ (57 < nat_of_ascii c)%nat -> Ascii.eqb c (digit n) = false.
Proof.
  intros H. apply Ascii.eqb_neq. intros ->. rewrite digit_code in H.
  pose proof (Z.mod_pos_bound n 10 ltac:(lia)). lia.
Qed.

Lemma digit_is_not (c : ascii) (n : Z) :
  (nat_of_ascii c < 48)%nat \/ (57 < nat_of_ascii c)%nat -> Ascii.eqb (digit n) c = false.
Proof. intros H. rewrite Ascii.eqb_sym. now apply digit_not. Qed.

Lemma py_int_pad4 (y : Z) : 0 <= y <= 9999 -> py_int (pad4 y) = Ok y.
Proof.
  intros Hy. unfold py_int, pad4, pad2.
  cbn [list_ascii_of_string]. unfold strip.
  cbn [lstrip]. rewrite is_space_digit. cbn [rev app lstrip]. rewrite is_space_digit.
  cbn [rev app].
  rewrite !digit_is_not by (vm_compute; lia).
  cbn [digits_value]. rewrite !digit_value_digit. cbn [digits_value].
  f_equal. Z.to_euclidean_division_equations. lia.
Qed.

Lemma py_int_pad2 (n : Z) : 0 <= n <= 99 -> py_int (pad2 n) = Ok n.
Proof.
  intros Hy. unfold py_int, pad2.
  cbn [list_ascii_of_string]. unfold strip.
  cbn [lstrip]. rewrite is_space_digit. cbn [rev app lstrip]. rewrite is_space_digit.
  cbn [rev app].
  rewrite !digit_is_not by (vm_compute; lia).
  cbn [digits_value]. rewrite !digit_value_digit. cbn [digits_value].
  f_equal. Z.to_euclidean_division_equations. lia.
Qed.

Lemma substring_0_0 (s : string) : substring 0 0 s = EmptyString.
Proof. now destruct s. Qed.

Lemma rmatch_dash (A : Type) (s : string) (k : string -> option A) :
  rmatch (Lit "-") ("-" ++ s) k = k s.
Proof. reflexivity. Qed.

Lemma group_Y (A : Type) (y : Z) (rest : string) (k : string -> string -> option A) :
  group re_Y (pad4 y ++ rest) k = k (pad4 y) rest.
Proof.
  unfold group, re_Y, pad4, pad2. cbn [append rmatch].
  rewrite !is_digit_digit. cbn [String.length].
  replace (S (S (S (S (String.length rest)))) - String.length rest)%nat with 4%nat by lia.
  cbn [substring]. now rewrite substring_0_0.
Qed.

(** The ten digits. *)
Lemma digit_cases (n : Z) : 0 <= n <= 9 -> In n (range 10).
Proof. intros H. apply range_In. lia. Qed.

Lemma pad2_digits (n : Z) :
  0 <= n <= 99 -> exists a b, 0 <= a <= 9 /\ 0 <= b <= 9 /\ n = 10 * a + b.
Proof. intros H. exists (n / 10), (n mod 10). Z.to_euclidean_division_equations. lia. Qed.

Ltac split_digit H :=
  apply digit_cases in H; simpl in H;
  repeat (destruct H as [H|H]; [symmetry in H; subst|]); [..|contradiction].

Lemma sub_1 (n : nat) : (S n - n = 1)%nat. Proof. lia. Qed.
Lemma sub_2 (n : nat) : (S (S n) - n = 2)%nat. Proof. lia. Qed.

(** Evaluate the tests on known characters. *)
Ltac eval_tests :=
  repeat match goal with
    | |- context [Ascii.eqb ?a ?b] =>
        let v := eval vm_compute in (Ascii.eqb a b) in
        change (Ascii.eqb a b) with v; cbv iota
    | |- context [in_class ?a ?b ?c] =>
        let v := eval vm_compute in (in_class a b c) in
        change (in_class a b c) with v; cbv iota
    | |- context [is_digit ?a] =>
        let v := eval vm_compute in (is_digit a) in
        change (is_digit a) with v; cbv iota
    end.

Ltac eval_pad2 :=
  match goal with
  | |- context [pad2 ?n] =>
      let v := eval vm_compute in (pad2 n) in change (pad2 n) with v
  end.

Ltac eval_group :=
  cbn [String.length]; rewrite ?Nat.sub_succ, ?sub_1, ?sub_2, ?Nat.sub_diag;
  cbn [substring]; rewrite ?substring_0_0.

Lemma group_m (A : Type) (m : Z) (rest : string) (k : string -> string -> option A) :
  0 <= m <= 99 ->
  group re_m (pad2 m ++ "-" ++ rest) (fun mo s3 => rmatch (Lit "-") s3 (k mo))
  = if (1 <=? m) && (m <=? 12) then k (pad2 m) rest else None.
Proof.
  intros Hm. destruct (pad2_digits Hm) as (a & b & Ha & Hb & ->).
  split_digit Ha; split_digit Hb;
    match goal with
    | |- context [(1 <=? ?n) && (?n <=? 12)] =>
        let v := eval vm_compute in ((1 <=? n) && (n <=? 12)) in
        change ((1 <=? n) && (n <=? 12)) with v; cbv iota
    end;
    eval_pad2; unfold group, re_m; cbn [append rmatch]; eval_tests; eval_group;
    try reflexivity;
    match goal with |- context [k ?x ?r] => destruct (k x r); reflexivity end.
Qed.

Lemma group_d (A : Type) (d : Z) (f : string -> string -> A) :
  0 <= d <= 99 ->
  group re_d (pad2 d) (fun day rest => Some (f day rest))
  = if (1 <=? d) && (d <=? 31) then Some (f (pad2 d) EmptyString)
    else if d =? 0 then None
    else Some (f (String (digit (d / 10)) EmptyString) (String (digit d) EmptyString)).
Proof.
  intros Hd. destruct (pad2_digits Hd) as (a & b & Ha & Hb & ->).
  split_digit Ha; split_digit Hb;
    match goal with
    | |- context [(1 <=? ?n) && (?n <=? 31)] =>
        let v := eval vm_compute in ((1 <=? n) && (n <=? 31)) in
        change ((1 <=? n) && (n <=? 31)) with v; cbv iota
    end;
    match goal with
    | |- context [?n =? 0] =>
        let v := eval vm_compute in (n =? 0) in
        change (n =? 0) with v; cbv iota
    | _ => idtac
    end;
    repeat match goal with
    | |- context [digit ?n] =>
        let v := eval vm_compute in (digit n) in change (digit n) with v
    end;
    eval_pad2; unfold group, re_d; cbn [append rmatch]; eval_tests; eval_group;
    reflexivity.
Qed.

(** What the format's expression finds in a text [YYYY-MM-DD]. *)
Lemma format_regex_match_Ymd (y m d : Z) :
  0 <= m <= 99 -> 0 <= d <= 99 ->
  format_regex_match (Ymd y m d)
  = if (1 <=? m) && (m <=? 12)
    then if (1 <=? d) && (d <=? 31)
         then Some (pad4 y, pad2 m, pad2 d, EmptyString)
         else if d =? 0 then None
         else Some (pad4 y, pad2 m, String (digit (d / 10)) EmptyString,
                    String (digit d) EmptyString)
    else None.
Proof.
  intros Hm Hd. unfold format_regex_match, Ymd.
  rewrite group_Y, rmatch_dash.
  rewrite (group_m _ (fun mo s4 => group re_d s4 (fun d0 rest => Some (pad4 y, mo, d0, rest))) Hm).
  destruct ((1 <=? m) && (m <=? 12)); [|reflexivity].
  now rewrite (group_d (fun d0 rest => (pad4 y, pad2 m, d0, rest)) Hd).
Qed.

Lemma strptime_Ymd_fields (y m d : Z) :
  0 <= y <= 9999 -> 0 <= m <= 99 -> 0 <= d <= 99 ->
  (exists msg, strptime_Ymd (Ymd y m d) = Raised (ValueError msg)) \/
  strptime_Ymd (Ymd y m d) = new_datetime y m d.
Proof.
  intros Hy Hm Hd. unfold strptime_Ymd.
  rewrite (format_regex_match_Ymd y Hm Hd).
  destruct ((1 <=? m) && (m <=? 12)); [|left; eexists; reflexivity].
  destruct ((1 <=? d) && (d <=? 31)).
  - right. cbn [String.eqb negb].
    rewrite (py_int_pad4 Hy), (py_int_pad2 Hm), (py_int_pad2 Hd). reflexivity.
  - left. destruct (d =? 0); [eexists; reflexivity|].
    cbn [String.eqb negb]. eexists; reflexivity.
Qed.

Lemma new_datetime_valid (y m d : Z) (dt : datetime) :
  new_datetime y m d = Ok dt -> dt = Datetime y m d /\ valid dt.
Proof.
  unfold new_datetime.
  destruct ((MINYEAR <=? y) && (y <=? MAXYEAR)) eqn:Ey; [|discriminate].
  destruct ((1 <=? m) && (m <=? 12)) eqn:Em; [|discriminate].
  destruct ((1 <=? d) && (d <=? _days_in_month y m)) eqn:Ed; [|discriminate].
  cbn [negb]. intros [= <-]. split; [reflexivity|].
  unfold valid; cbn [year month day]. lia.
Qed.

Lemma new_datetime_of_valid (dt : datetime) :
  valid dt -> new_datetime (year dt) (month dt) (day dt) = Ok dt.
Proof.
  destruct dt as [y m d]. unfold valid, new_datetime. cbn [year month day].
  intros (Hy & Hm & Hd).
  replace ((MINYEAR <=? y) && (y <=? MAXYEAR)) with true by (symmetry; lia).
  replace ((1 <=? m) && (m <=? 12)) with true by (symmetry; lia).
  replace ((1 <=? d) && (d <=? _days_in_month y m)) with true by (symmetry; lia).
  reflexivity.
Qed.

Lemma new_datetime_invalid (y m d : Z) :
  ~ valid (Datetime y m d) -> exists msg, new_datetime y m d = Raised (ValueError msg).
Proof.
  intros Hn. unfold new_datetime.
  destruct ((MINYEAR <=? y) && (y <=? MAXYEAR)) eqn:Ey; [|eexists; reflexivity].
  destruct ((1 <=? m) && (m <=? 12)) eqn:Em; [|eexists; reflexivity].
  destruct ((1 <=? d) && (d <=? _days_in_month y m)) eqn:Ed; [|eexists; reflexivity].
  exfalso. apply Hn. unfold valid; cbn [year month day]. lia.
Qed.

(** Every way [strptime] fails is a [ValueError]; what it gives is a date
    of the calendar. *)
Lemma strptime_Ymd_result (s : string) :
  (exists d, strptime_Ymd s = Ok d /\ valid d) \/
  (exists msg, strptime_Ymd s = Raised (ValueError msg)).
Proof.
  unfold strptime_Ymd.
  destruct (format_regex_match s) as [[[[Y m] d] rest]|]; [|right; eexists; reflexivity].
  destruct (String.eqb rest EmptyString); cbn [negb]; [|right; eexists; reflexivity].
  unfold py_int.
  repeat match goal with
         | |- context [match ?x with Some _ => _ | None => _ end] =>
             destruct x; cbn [and_then]; [|right; eexists; reflexivity]
         end.
  match goal with
  | |- context [new_datetime ?y ?m ?d] =>
      destruct (new_datetime y m d) as [dt|e] eqn:E
  end.
  - left. exists dt. split; [reflexivity|]. now apply new_datetime_valid in E.
  - right. unfold new_datetime in E.
    repeat match type of E with
           | (if ?c then _ else _) = _ => destruct c
           end; try discriminate; injection E as <-; eexists; reflexivity.
Qed.

Lemma strptime_strftime (d : datetime) :
  valid d -> strptime_Ymd (strftime_Ymd d) = Ok d.
Proof.
  intros Hv. pose proof (valid_fields Hv) as (Hd & Hm & Hy).
  unfold strftime_Ymd, strptime_Ymd.
  rewrite (format_regex_match_Ymd (year d)) by lia.
  destruct Hv as (Hy' & Hm' & Hd').
  assert (_days_in_month (year d) (month d) <= 31).
  { unfold _days_in_month. destruct ((month d =? 2) && _is_leap (year d)); [lia|].
    CalFacts.split_month Hm'; simpl; lia. }
  replace ((1 <=? month d) && (month d <=? 12)) with true by (symmetry; lia).
  replace ((1 <=? day d) && (day d <=? 31)) with true by (symmetry; lia).
  cbn [String.eqb negb].
  rewrite py_int_pad4, !py_int_pad2 by lia. cbn [and_then].
  apply new_datetime_of_valid. unfold valid. lia.
Qed.

Lemma strptime_impossible (y m d : Z) :
  0 <= y <= 9999 -> 0 <= m <= 99 -> 0 <= d <= 99 ->
  ~ valid (Datetime y m d) ->
  exists msg, strptime_Ymd (Ymd y m d) = Raised (ValueError msg).
Proof.
  intros Hy Hm Hd Hn.
  destruct (strptime_Ymd_fields Hy Hm Hd) as [H|H]; [assumption|].
  rewrite H. now apply new_datetime_invalid.
Qed.

End Strptime.

(** * The two keys of a calendar day *)
Section CalendarKeys.
Context {world : Type} {B : Browser world}.

Lemma key_fields (a b y : Z) :
  0 <= a < 100 -> 0 <= b < 100 -> 0 <= y < 10000 ->
  let key := (pad2 a ++ "/" ++ pad2 b ++ "/" ++ pad4 y)%string in
  String.length key = 10%nat /\
  substring 2 1 key = "/" /\ substring 5 1 key = "/" /\
  py_int (substring 0 2 key) = Ok a /\
  py_int (substring 3 2 key) = Ok b /\
  py_int (substring 6 4 key) = Ok y.
Proof.
  intros Ha Hb Hy key.
  assert (E1 : substring 0 2 key = pad2 a) by reflexivity.
  assert (E2 : substring 3 2 key = pad2 b) by reflexivity.
  assert (E3 : substring 6 4 key = pad4 y) by reflexivity.
  rewrite E1, E2, E3, !py_int_pad2, py_int_pad4 by lia.
  repeat split; reflexivity.
Qed.

Lemma one_day_range (d : datetime) : valid d -> days_of_range d d = [d].
Proof.
  intros Hv. unfold days_of_range, sub_days.
  replace (toordinal d - toordinal d + 1) with 1 by lia.
  change (range 1) with [0].
  cbn [map]. now rewrite Z.add_0_r, CalFacts.ord2ymd_of_toordinal.
Qed.

(** C3. The scanner asks the grid for a day under a key, and clicks the
    anchors of the range under another, built from the same date in two
    conventions.  The key of the probe is ten characters, two digits that
    read the day, a slash, two digits that read the month, a slash and
    four digits that read the year ([%d/%m/%Y]); the key of the anchor
    has the month first and the day second ([%m/%d/%Y]).  So the probe
    key of a date is the anchor key of the date with day and month
    exchanged, and the two keys of one date are the same exactly when its
    day of month equals its month number: for every other date they
    differ.  On the one-day range of a date the scan probes the first
    key and, when the day is missing from the grid, clicks the second. *)
Theorem probe_key_differs_from_anchor_key (w : world) (d : datetime) :
  valid d ->
  let probe_key := strftime_dmY d in
  let anchor_key := strftime_mdY d in
  let probe := Locator popup (attr_selector "data-testid" ("calendar-day-" ++ probe_key)) in
  let anchor := Locator popup (attr_selector "data-testid" ("calendar-day-" ++ anchor_key)) in
  (String.length probe_key = 10%nat /\
   substring 2 1 probe_key = "/" /\ substring 5 1 probe_key = "/" /\
   py_int (substring 0 2 probe_key) = Ok (day d) /\
   py_int (substring 3 2 probe_key) = Ok (month d) /\
   py_int (substring 6 4 probe_key) = Ok (year d)) /\
  (String.length anchor_key = 10%nat /\
   substring 2 1 anchor_key = "/" /\ substring 5 1 anchor_key = "/" /\
   py_int (substring 0 2 anchor_key) = Ok (month d) /\
   py_int (substring 3 2 anchor_key) = Ok (day d) /\
   py_int (substring 6 4 anchor_key) = Ok (year d)) /\
  probe_key = strftime_mdY (Datetime (year d) (day d) (month d)) /\
  (probe = anchor <-> day d = month d) /\
  (day_locator d = probe /\ anchor_locator d = anchor) /\
  let tr := snd (call_function (SearchResultsPage.is_date_range_blocked d d) w) in
  exists r rest,
    tr = ECount probe r :: rest /\
    (r = Ok 0%nat -> exists r1 rest', rest = EClick anchor r1 :: rest').
Proof.
  intros Hv probe_key anchor_key probe anchor.
  destruct (valid_fields Hv) as (Hd & Hm & Hy).
  split; [exact (key_fields Hd Hm Hy)|].
  split; [exact (key_fields Hm Hd Hy)|].
  split; [reflexivity|].
  assert (Hl : day_locator d = probe /\ anchor_locator d = anchor)
    by (split; reflexivity).
  split; [|split; [exact Hl|]].
  - split.
    + intros H. destruct (Z.eq_dec (day d) (month d)) as [E|Hne]; [exact E|].
      exfalso.
      apply (f_equal (fun l => match l with Locator _ s => s | _ => EmptyString end))
        in H.
      cbv beta iota in H.
      apply (@calendar_day_selector_inj probe_key anchor_key) in H.
      now apply (strftime_formats_differ Hv Hne).
    + intros E. subst probe anchor probe_key anchor_key.
      unfold strftime_dmY, strftime_mdY. now rewrite E.
  - destruct Hl as [<- <-].
    pose proof (@is_date_range_blocked_scan_log _ _ d d w Hv Hv (or_introl eq_refl)) as L.
    destruct (call_function _ w) as [[r w1] tr]. cbn [snd].
    rewrite (one_day_range Hv) in L.
    inversion L; subst; eexists; eexists; (split; [reflexivity|]); intros E;
      try discriminate E;
      try (assert (c = 0%nat) by congruence; lia).
    match goal with Hg : gap_clicks _ _ _ |- _ => destruct Hg end; simpl; eauto.
Qed.
End CalendarKeys.

(** * The scan from its two date strings, and the availability check *)
Section DateStrings.
Context {world : Type} {B : Browser world}.

Lemma is_date_range_blocked_str_dates (a b : datetime) (w : world) :
  valid a -> valid b ->
  SearchResultsPage.is_date_range_blocked_str (strftime_Ymd a) (strftime_Ymd b) w
  = SearchResultsPage.is_date_range_blocked a b w.
Proof.
  intros Ha Hb. unfold SearchResultsPage.is_date_range_blocked_str.
  rewrite (strptime_strftime Ha), (strptime_strftime Hb).
  run_step.
  destruct (SearchResultsPage.is_date_range_blocked a b w) as [[o w1] t1].
  reflexivity.
Qed.

Lemma is_date_range_blocked_str_refused (s1 s2 : string) (w : world) :
  (exists msg, strptime_Ymd s1 = Raised (ValueError msg)) \/
  ((exists d, strptime_Ymd s1 = Ok d) /\
   exists msg, strptime_Ymd s2 = Raised (ValueError msg)) ->
  exists msg,
    SearchResultsPage.is_date_range_blocked_str s1 s2 w = (Raise (ValueError msg), w, []).
Proof.
  unfold SearchResultsPage.is_date_range_blocked_str.
  intros [(msg & E1)|((d & E1) & msg & E2)]; rewrite E1; [|rewrite E2];
    exists msg; reflexivity.
Qed.

(** X1. On the texts [YYYY-MM-DD] of two dates of the calendar, the scan
    is the scan of the two dates: same answer, same log, same page. *)
Theorem scan_of_date_strings_is_scan_of_dates
        (a b : datetime) (w : world) :
  valid a -> valid b ->
  call_function
    (SearchResultsPage.is_date_range_blocked_str (strftime_Ymd a) (strftime_Ymd b)) w
  = call_function (SearchResultsPage.is_date_range_blocked a b) w.
Proof.
  intros Ha Hb. unfold call_function.
  now rewrite (is_date_range_blocked_str_dates w Ha Hb).
Qed.

(** X2. A text [YYYY-MM-DD] that names no day of the calendar (month 13,
    February 30, year 0) is refused with [ValueError], whether it is the
    start or the end of the range, before anything is asked of the page. *)
Theorem impossible_date_is_refused_before_any_query
        (y m d : Z) (other : string) (a : datetime) (w : world) :
  0 <= y <= 9999 -> 0 <= m <= 99 -> 0 <= d <= 99 ->
  ~ valid (Datetime y m d) -> valid a ->
  (exists msg,
     call_function
       (SearchResultsPage.is_date_range_blocked_str (Ymd y m d) other) w
     = (Raised (ValueError msg), w, [])) /\
  (exists msg,
     call_function
       (SearchResultsPage.is_date_range_blocked_str (strftime_Ymd a) (Ymd y m d)) w
     = (Raised (ValueError msg), w, [])).
Proof.
  intros Hy Hm Hd Hn Ha.
  destruct (strptime_impossible Hy Hm Hd Hn) as (msg & E).
  split.
  - destruct (is_date_range_blocked_str_refused (Ymd y m d) other w) as (msg' & E').
    { left. eauto. }
    exists msg'. unfold call_function. now rewrite E'.
  - destruct (is_date_range_blocked_str_refused (strftime_Ymd a) (Ymd y m d) w)
      as (msg' & E').
    { right. split; [exists a; now apply strptime_strftime | eauto]. }
    exists msg'. unfold call_function. now rewrite E'.
Qed.

End DateStrings.

(** * The availability check *)
Section Availability.
Context {world : Type} {B : Browser world}.

Lemma invoke_call (A R : Type) (body : M (world:=world) A A) (w : world) :
  invoke (R:=R) body w
  = match call_function body w with
    | (Ok v, w1, t) => (Normal v, w1, t)
    | (Raised e, w1, t) => (Raise e, w1, t)
    end.
Proof. unfold invoke, call_function. now destruct (body w) as [[[v|v|e] w1] t]. Qed.

Lemma clicks_app (t1 t2 : trace) : clicks (t1 ++ t2) = clicks t1 ++ clicks t2.
Proof. apply flat_map_app. Qed.

Lemma clicks_on_app (l : locator) (t1 t2 : trace) :
  clicks_on l (t1 ++ t2) = clicks_on l t1 ++ clicks_on l t2.
Proof. apply flat_map_app. Qed.

(** What a reservation leaves in the log. *)
Lemma reserve_and_validate_log (adults_count : Z) (w : world) :
  let '(o, _, tr) := SearchResultsPage.reserve_and_validate adults_count w in
  existsb blocked_observation tr = false /\ probed tr = [] /\
  match o with
  | Raise _ => clicks tr = [] \/ exists r, clicks tr = [(reserve_button, r)]
  | _ => clicks tr = [(reserve_button, Ok tt)]
  end.
Proof.
  unfold SearchResultsPage.reserve_and_validate. run_step.
  ask; [|cbn; auto].
  ask; [|cbn; auto].
  destruct (1 <? a)%nat; [|cbn; auto].
  ask; [|cbn; split; [reflexivity|split; [reflexivity|right; eauto]]].
  ask; [|cbn; split; [reflexivity|split; [reflexivity|right; eauto]]].
  match goal with
  | |- context [negb (String.eqb ?x ?y)] => destruct (negb (String.eqb x y))
  end; [|cbn; split; [reflexivity|split; [reflexivity|right; eauto]]].
  repeat match goal with u : unit |- _ => destruct u end.
  match goal with
  | |- context [truthy ?v] => destruct (truthy v)
  end; cbn; (split; [reflexivity|split; [reflexivity|]]);
    [reflexivity | right; eauto].
Qed.


Lemma gap_clicks_clicks (sa ea : locator) (cl : trace) :
  gap_clicks sa ea cl -> Forall (fun c => fst c = sa \/ fst c = ea) (clicks cl).
Proof. destruct 1; cbn; repeat (constructor; [cbn; auto|]); constructor. Qed.

(** A scan clicks nothing but the two anchors of its range. *)
Lemma scan_log_clicks (sa ea : locator) days r tr :
  scan_log sa ea days r tr -> Forall (fun c => fst c = sa \/ fst c = ea) (clicks tr).
Proof.
  induction 1 as [|d ds c a r tr Hc Ha H IH| |d ds cl r tr Hg H IH| |];
    cbn; try constructor; try assumption.
  rewrite clicks_app. apply Forall_app. split; [|assumption].
  now apply gap_clicks_clicks.
Qed.

Lemma scan_log_blocked_seen (sa ea : locator) days s tr :
  scan_log sa ea days (Ok (true, Some s)) tr -> existsb blocked_observation tr = true.
Proof.
  intros H. apply scan_log_blocked in H.
  destruct H as (pre & d & c & -> & _). rewrite existsb_app. cbn.
  now rewrite orb_true_r.
Qed.

(** X3. The availability check opens the calendar before it looks at its
    two dates.  On an inverted range it has clicked the check-in button
    and nothing else when the [ValueError] of the scan comes up: no day is
    probed and no reservation is attempted. *)
Theorem inverted_range_costs_one_click (a b : datetime) (w : world) :
  valid a -> valid b -> lt b a ->
  let run := call_function
               (SearchResultsPage.check_availability (strftime_Ymd a) (strftime_Ymd b))
               w in
  exists r,
    snd run = [ELog INFO "Checking availability for {checkin_date} and {checkout_date}";
               EClick SearchResultsPage.check_in_button_element r] /\
    fst (fst run)
    = Raised (match r with
              | Ok _ => ValueError "Start date must be before end date"
              | Raised e => e
              end).
Proof.
  intros Ha Hb Hlt. apply CalFacts.gtb_lt in Hlt.
  unfold SearchResultsPage.check_availability. run_step.
  ask; cbn.
  - rewrite (is_date_range_blocked_str_dates w0 Ha Hb).
    unfold SearchResultsPage.is_date_range_blocked. rewrite Hlt.
    cbn. eexists. split; reflexivity.
  - eexists. split; reflexivity.
Qed.

(** X4. On a valid range the availability check answers [True] exactly
    when the scan saw no blocked day, and it goes on to the reservation
    either way: a run that returns has clicked the check-in button, then
    only anchors of the range, then the calendar's save button if and only
    if a day was blocked, and last the reserve button. *)
Theorem availability_answer_and_reservation (a b : datetime) (w : world) :
  valid a -> valid b -> le a b ->
  let run := call_function
               (SearchResultsPage.check_availability (strftime_Ymd a) (strftime_Ymd b))
               w in
  forall available,
    fst (fst run) = Ok available ->
    available = negb (existsb blocked_observation (snd run)) /\
    (available = true -> probed (snd run) = map day_locator (days_of_range a b)) /\
    exists anchor_clicks,
      Forall (fun c => fst c = anchor_locator a \/ fst c = anchor_locator b)
             anchor_clicks /\
      clicks (snd run)
      = (SearchResultsPage.check_in_button_element, Ok tt)
          :: anchor_clicks
          ++ (if available then [] else [(SearchResultsPage.close_cal, Ok tt)])
          ++ [(reserve_button, Ok tt)].
Proof.
  intros Ha Hb Hle.
  unfold SearchResultsPage.check_availability. run_step.
  ask; [|cbn; discriminate].
  rewrite (is_date_range_blocked_str_dates w0 Ha Hb).
  pose proof (is_date_range_blocked_scan_log w0 Ha Hb Hle) as Hlog.
  unfold call_function in Hlog.
  destruct (SearchResultsPage.is_date_range_blocked a b w0) as [[o w1] t1].
  assert (Hres : exists r, scan_log (anchor_locator a) (anchor_locator b)
                             (days_of_range a b) r t1 /\
                           match o with
                           | Normal v | Return v => r = Ok v
                           | Raise e => r = Raised e
                           end)
    by (destruct o; eauto).
  clear Hlog. destruct Hres as (r & Hlog & Hr).
  pose proof (scan_log_clicks Hlog) as Hclicks.
  destruct a0.
  destruct o as [[is_blocked blocked_date]|[is_blocked blocked_date]|e];
    [| |cbn; discriminate]; subst r.
  all: destruct (scan_log_result Hlog) as [Er|[(s & Er)|(e & Er)]];
    try discriminate; injection Er as -> ->; cbv beta iota.
  all: try (ask; [|cbn; discriminate]).
  all: match goal with
       | |- context [SearchResultsPage.reserve_and_validate ?n ?w'] =>
           pose proof (reserve_and_validate_log n w') as Hrv;
           destruct (SearchResultsPage.reserve_and_validate n w') as [[o2 w3] t2]
       end.
  all: destruct Hrv as (Hb2 & Hp2 & Hc2).
  all: destruct o2 as [[]|[]|e2]; cbn; try discriminate.
  all: intros available [= <-].
  all: rewrite ?existsb_app, ?probed_app, ?clicks_app; cbn;
    rewrite ?existsb_app, ?probed_app, ?clicks_app; cbn; rewrite Hb2, Hp2, Hc2.
  all: try (destruct (scan_log_clear Hlog) as [-> _]).
  all: try rewrite (scan_log_blocked_seen Hlog).
  all: try destruct a0.
  all: cbn; rewrite ?app_nil_r, ?orb_false_r, ?orb_true_r.
  all: split; [reflexivity|split].
  all: try discriminate.
  all: try (intros _; destruct (scan_log_probed Hlog) as [Hp Hlen];
            rewrite Hp, (Hlen eq_refl), firstn_all; reflexivity).
  all: exists (clicks t1); split; [assumption|reflexivity].
Qed.

End Availability.

(** * The home page *)
Section VerifyOnHomepage.
Context {world : Type} {B : Browser world}.

(** X5. [_verify_on_homepage] never raises.  It answers [True] exactly
    when one of its visibility checks answered visible; it reads the
    address once, and when the address cannot be read or does not
    contain airbnb.com (in any letter case) it checks no element. *)
Theorem verify_on_homepage_answer (w : world) :
  let run := call_function HomePage._verify_on_homepage w in
  let tr := snd run in
  fst (fst run) = Ok (existsb found_visible tr) /\
  exists r,
    urls_read tr = [r] /\
    match r with
    | Ok u =>
        contains "airbnb.com" (lower u) = false -> visibility_checks tr = []
    | Raised _ => visibility_checks tr = []
    end.
Proof.
  unfold HomePage._verify_on_homepage, HomePage.homepage_indicators.
  cbn [for_each]. run_step.
  ask; [|cbn; split; [reflexivity|eexists; split; reflexivity]].
  destruct (contains "airbnb.com" (lower a)) eqn:Ec; cbn [negb].
  2:{ cbn. split; [reflexivity|]. eexists. split; [reflexivity|].
      intros _. reflexivity. }
  ask; [destruct a0|]; cbn.
  1,3: split; [reflexivity|]; eexists; (split; [reflexivity|]);
    cbv beta iota; intros; congruence.
  ask; [destruct a0|]; cbn.
  1,3: split; [reflexivity|]; eexists; (split; [reflexivity|]);
    cbv beta iota; intros; congruence.
  ask; [destruct a0|]; cbn.
  all: split; [reflexivity|]; eexists; (split; [reflexivity|]);
    cbv beta iota; intros; congruence.
Qed.

(** X6. The indicators are checked in the order logo, search box,
    header, and every check but the last answered "not visible": a check
    that raises is the last one, the indicators after it are not tried and
    the answer is [False]. *)
Theorem verify_on_homepage_stops_at_failing_check (w : world) :
  let run := call_function HomePage._verify_on_homepage w in
  let checks := visibility_checks (snd run) in
  map fst checks
  = firstn (List.length checks) (map fst HomePage.homepage_indicators) /\
  forallb answered_hidden (removelast checks) = true /\
  (existsb check_raised checks = true -> fst (fst run) = Ok false).
Proof.
  unfold HomePage._verify_on_homepage, HomePage.homepage_indicators.
  cbn [for_each]. run_step.
  ask; [|cbn; repeat split; discriminate].
  destruct (contains "airbnb.com" (lower a)) eqn:Ec; cbn [negb].
  2:{ cbn. repeat split; discriminate. }
  ask; [destruct a0|]; cbn.
  1,3: repeat split; discriminate.
  ask; [destruct a0|]; cbn.
  1,3: repeat split; discriminate.
  ask; [destruct a0|]; cbn.
  all: repeat split; discriminate.
Qed.

End VerifyOnHomepage.

Section HandlePopups.
Context {world : Type} {B : Browser world}.

Lemma handle_popups_loops :
  HomePage._handle_popups (world:=world)
  = (dismiss_loop testid_all_locator HomePage.cookie_test_ids ;;
     dismiss_loop css_locator HomePage.cookie_selectors ;;
     dismiss_loop testid_all_locator HomePage.close_test_ids ;;
     dismiss_loop css_locator HomePage.close_selectors).
Proof. reflexivity. Qed.

Lemma dismiss_loop_log (locate : string -> locator) (names : list string) (w : world) :
  let '(o, _, tr) := dismiss_loop locate names w in
  o = Normal tt /\ dismiss_log (map locate names) tr.
Proof.
  unfold dismiss_loop. revert w.
  induction names as [|name names IH]; intros w.
  - cbn. split; [reflexivity|constructor].
  - cbn [for_each map]. run_step.
    ask; [destruct a|].
    + ask.
      * ask.
        -- destruct a, a0. cbn. split; [reflexivity|constructor].
        -- specialize (IH w2). destruct a.
           destruct (for_each names tt _ w2) as [[o w3] t3].
           destruct IH as [-> IH]. cbn. split; [reflexivity|now constructor].
      * specialize (IH w1).
        destruct (for_each names tt _ w1) as [[o w3] t3].
        destruct IH as [-> IH]. cbn. split; [reflexivity|now constructor].
    + specialize (IH w0).
      destruct (for_each names tt _ w0) as [[o w3] t3].
      destruct IH as [-> IH]. cbn. split; [reflexivity|now constructor].
    + specialize (IH w0).
      destruct (for_each names tt _ w0) as [[o w3] t3].
      destruct IH as [-> IH]. cbn. split; [reflexivity|now constructor].
Qed.

(** X7. [_handle_popups] never raises, whatever the page does.  Its log
    is that of its four loops, one after the other and each over its own
    candidates in order: finding a button in one loop does not keep the
    next loop from looking for its own. *)
Theorem handle_popups_never_raises (w : world) :
  let run := call_function HomePage._handle_popups w in
  fst (fst run) = Ok tt /\
  exists t1 t2 t3 t4,
    snd run = t1 ++ t2 ++ t3 ++ t4 /\
    dismiss_log (map testid_all_locator HomePage.cookie_test_ids) t1 /\
    dismiss_log (map css_locator HomePage.cookie_selectors) t2 /\
    dismiss_log (map testid_all_locator HomePage.close_test_ids) t3 /\
    dismiss_log (map css_locator HomePage.close_selectors) t4.
Proof.
  rewrite handle_popups_loops. unfold call_function, bind.
  pose proof (dismiss_loop_log testid_all_locator HomePage.cookie_test_ids w) as H1.
  destruct (dismiss_loop testid_all_locator HomePage.cookie_test_ids w) as [[o1 w1] t1].
  destruct H1 as [-> H1].
  pose proof (dismiss_loop_log css_locator HomePage.cookie_selectors w1) as H2.
  destruct (dismiss_loop css_locator HomePage.cookie_selectors w1) as [[o2 w2] t2].
  destruct H2 as [-> H2].
  pose proof (dismiss_loop_log testid_all_locator HomePage.close_test_ids w2) as H3.
  destruct (dismiss_loop testid_all_locator HomePage.close_test_ids w2) as [[o3 w3] t3].
  destruct H3 as [-> H3].
  pose proof (dismiss_loop_log css_locator HomePage.close_selectors w3) as H4.
  destruct (dismiss_loop css_locator HomePage.close_selectors w3) as [[o4 w4] t4].
  destruct H4 as [-> H4].
  cbn. split; [reflexivity|]. exists t1, t2, t3, t4. auto.
Qed.

Lemma clicks_follow_checks_nil : clicks_follow_checks [].
Proof. intros [|? pre] l r post H; discriminate. Qed.

Lemma clicks_follow_checks_app (t1 t2 : trace) :
  clicks_follow_checks t1 -> clicks_follow_checks t2 -> clicks_follow_checks (t1 ++ t2).
Proof.
  intros H1 H2 pre l r post H.
  apply app_eq_app in H. destruct H as (m & [[-> H]|[-> H]]).
  - destruct m as [|e m].
    + cbn in H.
      destruct (H2 [] l r post (eq_sym H)) as (pre' & Hp). now destruct pre'.
    + cbn in H. injection H as <- ->. now apply (H1 pre l r m).
  - destruct (H2 m l r post H) as (pre' & ->).
    exists (t1 ++ pre'). now rewrite app_assoc.
Qed.

Lemma clicks_follow_checks_skip (e : event) (tr : trace) :
  (forall l r, e <> EClick l r) ->
  clicks_follow_checks tr ->
  (forall l r post, tr = EClick l r :: post -> False) ->
  clicks_follow_checks (e :: tr).
Proof.
  intros He H Hhd [|x pre] l r post Heq; cbn in Heq.
  - injection Heq as -> _. now elim (He l r).
  - injection Heq as <- Heq. destruct pre as [|y pre].
    + now elim (Hhd l r post).
    + destruct (H _ _ _ _ Heq) as (pre' & Hp). exists (e :: pre'). cbn. now rewrite Hp.
Qed.

Lemma dismiss_log_head (ls : list locator) (tr : trace) :
  dismiss_log ls tr -> forall l r post, tr = EClick l r :: post -> False.
Proof. destruct 1; discriminate. Qed.

Lemma dismiss_log_clicks (ls : list locator) (tr : trace) :
  dismiss_log ls tr -> clicks_follow_checks tr.
Proof.
  induction 1 as [|l ls tr H IH|l ls e tr H IH|l ls e tr H IH|l ls e tr H IH|l ls].
  - apply clicks_follow_checks_nil.
  - apply clicks_follow_checks_skip; [discriminate|assumption|].
    now apply dismiss_log_head with (ls:=ls).
  - apply clicks_follow_checks_skip; [discriminate|assumption|].
    now apply dismiss_log_head with (ls:=ls).
  - change (clicks_follow_checks
              ([EIsVisible l 1000 (Ok true); EClick l (Raised e)] ++ tr)).
    apply clicks_follow_checks_app; [|assumption].
    intros [|x [|y pre]] l' r post Heq; cbn in Heq; try discriminate.
    + injection Heq as <- <- <- <-. now exists [].
    + injection Heq as _ _ Heq. now destruct pre.
  - change (clicks_follow_checks
              ([EIsVisible l 1000 (Ok true); EClick l (Ok tt);
                EWaitForTimeout 1000 (Raised e)] ++ tr)).
    apply clicks_follow_checks_app; [|assumption].
    intros [|x [|y [|z pre]]] l' r post Heq; cbn in Heq; try discriminate.
    + injection Heq as <- <- <- <-. now exists [].
    + injection Heq as _ _ _ Heq. now destruct pre.
  - intros [|x [|y [|z pre]]] l' r post Heq; cbn in Heq; try discriminate.
    + injection Heq as <- <- <- <-. now exists [].
    + injection Heq as _ _ _ Heq. now destruct pre.
Qed.

(** X8. [_handle_popups] clicks nothing it has not just seen: every click
    in its log comes right after a visibility check of the same element
    that answered visible. *)
Theorem handle_popups_clicks_only_what_it_saw (w : world) :
  clicks_follow_checks (snd (call_function HomePage._handle_popups w)).
Proof.
  rewrite handle_popups_loops. unfold call_function, bind.
  pose proof (dismiss_loop_log testid_all_locator HomePage.cookie_test_ids w) as H1.
  destruct (dismiss_loop testid_all_locator HomePage.cookie_test_ids w) as [[o1 w1] t1].
  destruct H1 as [-> H1].
  pose proof (dismiss_loop_log css_locator HomePage.cookie_selectors w1) as H2.
  destruct (dismiss_loop css_locator HomePage.cookie_selectors w1) as [[o2 w2] t2].
  destruct H2 as [-> H2].
  pose proof (dismiss_loop_log testid_all_locator HomePage.close_test_ids w2) as H3.
  destruct (dismiss_loop testid_all_locator HomePage.close_test_ids w2) as [[o3 w3] t3].
  destruct H3 as [-> H3].
  pose proof (dismiss_loop_log css_locator HomePage.close_selectors w3) as H4.
  destruct (dismiss_loop css_locator HomePage.close_selectors w3) as [[o4 w4] t4].
  destruct H4 as [-> H4].
  cbn [snd].
  repeat apply clicks_follow_checks_app; eapply dismiss_log_clicks; eassumption.
Qed.

End HandlePopups.

(** * Navigation and its failures *)
Section PropagationFacts.
Context {world : Type} {B : Browser world}.
Variable failure : event -> bool.

Lemma propagates_of_absorbs {R A} (m : M (world:=world) R A) :
  absorbs failure m -> propagates failure m.
Proof.
  intros H w. specialize (H w). destruct (m w) as [[o w1] t].
  destruct H as [H Ho]. destruct o; [assumption..|contradiction].
Qed.

Lemma propagates_bind {R A C} (m : M (world:=world) R A) (f : A -> M R C) :
  propagates failure m -> (forall a, propagates failure (f a)) ->
  propagates failure (bind m f).
Proof.
  intros Hm Hf w. unfold bind. specialize (Hm w).
  destruct (m w) as [[[a|v|e] w1] t1]; try assumption.
  specialize (Hf a w1). destruct (f a w1) as [[[c|v|e] w2] t2].
  - rewrite existsb_app, Hm, Hf. reflexivity.
  - rewrite existsb_app, Hm, Hf. reflexivity.
  - destruct Hf as (pre & c & -> & Hc & He & Hp).
    exists (t1 ++ pre), c. rewrite app_assoc, existsb_app, Hm, Hp. auto.
Qed.

Lemma propagates_ret {R A} (a : A) : propagates failure (ret (world:=world) (R:=R) a).
Proof. intros w. reflexivity. Qed.

Lemma propagates_emit {R} (e : event) :
  failure e = false -> propagates failure (emit (world:=world) (R:=R) e).
Proof. intros H w. cbn. now rewrite H. Qed.

Lemma propagates_driver {R A} (f : world -> result A * world) (ev : result A -> event) :
  (forall a, failure (ev (Ok a)) = false) ->
  (forall e, failure (ev (Raised e)) = true /\ exception_of (ev (Raised e)) = Some e) ->
  propagates failure (driver (R:=R) f ev).
Proof.
  intros Hok Hr w. unfold driver. destruct (f w) as [[a|e] w1].
  - cbn. now rewrite Hok.
  - destruct (Hr e) as [H1 H2]. exists [], (ev (Raised e)). auto.
Qed.

Lemma propagates_invoke {R A} (body : M (world:=world) A A) :
  propagates failure body -> propagates failure (invoke (R:=R) body).
Proof.
  intros H w. unfold invoke. specialize (H w).
  destruct (body w) as [[[a|v|e] w1] t]; assumption.
Qed.

Lemma absorbs_try_except {R A} (body : M (world:=world) R A)
      (handler : exn -> M R A) :
  silent failure body -> (forall e, absorbs failure (handler e)) ->
  absorbs failure (try_except body handler).
Proof.
  intros Hb Hh w. unfold try_except. specialize (Hb w).
  destruct (body w) as [[[a|v|e] w1] t1]; cbn [snd] in Hb; try (split; [assumption|exact I]).
  specialize (Hh e w1). destruct (handler e w1) as [[o w2] t2].
  destruct Hh as [Hh Ho]. rewrite existsb_app, Hb, Hh. split; [reflexivity|assumption].
Qed.

Lemma absorbs_emit {R} (e : event) :
  failure e = false -> absorbs failure (emit (world:=world) (R:=R) e).
Proof. intros H w. cbn. rewrite H. auto. Qed.

Lemma absorbs_ret {R A} (a : A) : absorbs failure (ret (world:=world) (R:=R) a).
Proof. intros w. cbn. auto. Qed.

End PropagationFacts.

Section NavigateFailures.
Context {world : Type} {B : Browser world}.
Variable expected_viewport : viewport.

Lemma ensure_full_screen_propagates :
  propagates navigation_failure (HomePage._ensure_full_screen expected_viewport).
Proof.
  unfold HomePage._ensure_full_screen.
  apply propagates_bind; [intros w; reflexivity|intros cur].
  destruct (viewport_neq cur expected_viewport).
  - repeat (apply propagates_bind; [|intros ?]);
      try (apply propagates_emit; reflexivity);
      apply propagates_driver; intros; auto.
  - apply propagates_emit; reflexivity.
Qed.

Lemma probe_key_elements_absorbs (chain : list locator) :
  absorbs navigation_failure (HomePage.probe_key_elements (world:=world) (R:=unit) chain).
Proof.
  intros w. pose proof (probe_key_elements_spec chain w) as Hs.
  assert (Hq : silent navigation_failure
                 (HomePage.probe_key_elements (world:=world) (R:=unit) chain)).
  { unfold HomePage.probe_key_elements.
    apply (silent_for_each (world:=world)). intros x s. silence. }
  specialize (Hq w).
  destruct (HomePage.probe_key_elements chain w) as [[o w1] t]. cbn [snd] in Hq.
  split; [assumption|]. destruct o as [[|]| |]; auto.
Qed.

Lemma navigate_log (w : world) :
  let '(o, _, t) := HomePage.navigate expected_viewport w in
  match o with
  | Raise e =>
      exists pre c r,
        t = pre ++ c :: navigation_error_report r /\
        navigation_failure c = true /\ exception_of c = Some e /\
        existsb navigation_failure pre = false
  | _ => existsb navigation_failure t = false
  end.
Proof.
  unfold HomePage.navigate, try_except at 1.
  match goal with
  | |- context [let (_, _) := ?body w in _] =>
      assert (Hb : propagates navigation_failure body)
  end.
  { apply propagates_bind;
      [apply propagates_invoke, ensure_full_screen_propagates|intros _].
    apply propagates_bind; [apply propagates_emit; reflexivity|intros _].
    apply propagates_bind; [apply propagates_driver; intros; auto|intros _].
    apply propagates_bind; [apply propagates_driver; intros; auto|intros u].
    apply propagates_bind; [apply propagates_emit; reflexivity|intros _].
    apply propagates_bind.
    { apply propagates_of_absorbs, absorbs_try_except; [silence|].
      intros e. apply absorbs_emit. reflexivity. }
    intros _. apply propagates_bind.
    { apply propagates_of_absorbs, absorbs_try_except; [silence|].
      intros e. apply absorbs_emit. reflexivity. }
    intros _. apply propagates_bind; [apply propagates_emit; reflexivity|intros _].
    apply propagates_bind;
      [apply propagates_of_absorbs, probe_key_elements_absorbs|intros found].
    apply propagates_bind.
    { destruct found; cbn [negb];
        [apply propagates_ret|apply propagates_emit; reflexivity]. }
    intros _. apply propagates_bind;
      [apply propagates_invoke, ensure_full_screen_propagates|intros _].
    apply propagates_of_absorbs, absorbs_try_except; [silence|].
    intros e. apply absorbs_emit. reflexivity. }
  specialize (Hb w).
  match goal with
  | |- context [let (_, _) := ?body w in _] => destruct (body w) as [[[[]|[]|e] w1] t1]
  end; cbv beta iota; try assumption.
  destruct Hb as (pre & c & -> & Hc & He & Hp).
  run_step.
  destruct (screenshot false w1) as [[[]|e'] w2]; cbv beta iota;
    [exists pre, c, (Ok tt) | exists pre, c, (Raised e')];
    (split; [rewrite <- app_assoc; reflexivity|auto]).
Qed.

(** X9. [navigate] fails only through the calls it makes outside its
    inner [try] blocks: the viewport guard, [goto] and the read of the
    address.  Without such a failure it returns, whatever the load-state
    waits, the element checks and the final screenshot do.  With one, that
    call is the last before the error report, the report tries a single
    screenshot, and the exception that comes out is the one the call
    raised, whether the screenshot succeeds or not. *)
Theorem navigate_raises_what_failed (w : world) :
  let run := call_function (HomePage.navigate expected_viewport) w in
  match fst (fst run) with
  | Ok _ => existsb navigation_failure (snd run) = false
  | Raised e =>
      exists pre c r,
        snd run = pre ++ c :: navigation_error_report r /\
        navigation_failure c = true /\ exception_of c = Some e /\
        existsb navigation_failure pre = false
  end.
Proof.
  pose proof (navigate_log w) as H. unfold call_function.
  destruct (HomePage.navigate expected_viewport w) as [[[[]|[]|e] w1] t]; exact H.
Qed.

End NavigateFailures.

(** * The labels of the guest picker *)
Section Labels.

Lemma digits_value_uint (d : Decimal.uint) (acc : Z) (b : bool) :
  d <> Decimal.Nil \/ b = true ->
  digits_value acc b (list_ascii_of_string (NilEmpty.string_of_uint d))
  = Some (uint_val acc d).
Proof.
  revert acc b.
  induction d as [|d IH|d IH|d IH|d IH|d IH|d IH|d IH|d IH|d IH|d IH];
    intros acc b H;
    [destruct H as [H| ->]; [congruence|reflexivity] | ..];
    cbn [NilEmpty.string_of_uint list_ascii_of_string digits_value];
    match goal with
    | |- context [digit_value ?c] =>
        let v := eval vm_compute in (digit_value c) in
        change (digit_value c) with v
    end; cbv iota; apply IH; now right.
Qed.

Lemma digits_value_stops (d : Decimal.uint) (acc : Z) (b : bool)
      (c : ascii) (rest : list ascii) :
  digit_value c = None -> Ascii.eqb c "_" = false ->
  digits_value acc b (list_ascii_of_string (NilEmpty.string_of_uint d) ++ c :: rest)
  = None.
Proof.
  intros Hc Hu. revert acc b.
  induction d as [|d IH|d IH|d IH|d IH|d IH|d IH|d IH|d IH|d IH|d IH];
    intros acc b;
    [cbn; now rewrite Hc, Hu | ..];
    cbn [NilEmpty.string_of_uint list_ascii_of_string digits_value app];
    match goal with
    | |- context [digit_value ?c] =>
        let v := eval vm_compute in (digit_value c) in
        change (digit_value c) with v
    end; cbv iota; apply IH.
Qed.

Lemma uint_val_of_uint_acc (d : Decimal.uint) (acc : positive) :
  Zpos (Pos.of_uint_acc d acc) = uint_val (Zpos acc) d.
Proof.
  revert acc.
  induction d as [|d IH|d IH|d IH|d IH|d IH|d IH|d IH|d IH|d IH|d IH];
    intros acc; cbn [Pos.of_uint_acc uint_val]; [reflexivity|..];
    rewrite IH; f_equal; lia.
Qed.

Lemma uint_val_of_uint (d : Decimal.uint) : Z.of_N (Pos.of_uint d) = uint_val 0 d.
Proof.
  induction d as [|d IH|d IH|d IH|d IH|d IH|d IH|d IH|d IH|d IH|d IH];
    cbn [Pos.of_uint uint_val]; [reflexivity|exact IH|..];
    cbn [Z.of_N]; rewrite uint_val_of_uint_acc; reflexivity.
Qed.

(** [str(n)] is a string of digits that writes [n]. *)
Lemma py_str_digits (n : Z) :
  0 <= n ->
  exists d, d <> Decimal.Nil /\ py_str n = NilEmpty.string_of_uint d /\ uint_val 0 d = n.
Proof.
  intros Hn. destruct n as [|p|p]; [| |lia].
  - exists (Decimal.D0 Decimal.Nil). repeat split. discriminate.
  - exists (Pos.to_uint p). split; [apply DecimalPos.Unsigned.to_uint_nonnil|]. split.
    + unfold py_str. cbn [Z.to_int NilZero.string_of_int].
      unfold NilZero.string_of_uint.
      pose proof (DecimalPos.Unsigned.to_uint_nonnil p).
      destruct (Pos.to_uint p); [congruence|reflexivity..].
    + rewrite <- uint_val_of_uint, DecimalPos.Unsigned.of_to. reflexivity.
Qed.

Lemma digits_not_space (d : Decimal.uint) :
  Forall (fun c => is_space c = false) (list_ascii_of_string (NilEmpty.string_of_uint d)).
Proof.
  induction d; cbn [NilEmpty.string_of_uint list_ascii_of_string];
    constructor; (reflexivity || assumption).
Qed.

Lemma lstrip_head (c : ascii) (cs : list ascii) :
  is_space c = false -> lstrip (c :: cs) = c :: cs.
Proof. intros H. cbn. now rewrite H. Qed.

Lemma list_ascii_app (a b : string) :
  list_ascii_of_string (a ++ b) = list_ascii_of_string a ++ list_ascii_of_string b.
Proof. induction a as [|c a IH]; cbn; [reflexivity|now rewrite IH]. Qed.

(** Stripping a text whose first and last characters are not spaces. *)
Lemma strip_tight (c : ascii) (mid : list ascii) (z : ascii) :
  is_space c = false -> is_space z = false ->
  strip (c :: mid ++ [z]) = c :: mid ++ [z].
Proof.
  intros Hc Hz. unfold strip. rewrite lstrip_head by assumption.
  change (c :: mid ++ [z]) with ((c :: mid) ++ [z]).
  rewrite rev_app_distr. cbn [rev app]. rewrite lstrip_head by assumption.
  change (z :: rev mid ++ [c]) with ([z] ++ rev (c :: mid)).
  rewrite rev_app_distr, rev_involutive. reflexivity.
Qed.

Lemma strip_single (c : ascii) : is_space c = false -> strip [c] = [c].
Proof. intros Hc. unfold strip. cbn. rewrite Hc. cbn. now rewrite Hc. Qed.

(** Stripping digits followed by one space. *)
Lemma strip_digits_space (d : Decimal.uint) :
  d <> Decimal.Nil ->
  strip (list_ascii_of_string (NilEmpty.string_of_uint d) ++ [" "%char])
  = list_ascii_of_string (NilEmpty.string_of_uint d).
Proof.
  intros Hd. pose proof (digits_not_space d) as Hs.
  destruct (list_ascii_of_string (NilEmpty.string_of_uint d)) as [|c cs] eqn:E.
  { destruct d; cbn in E; congruence. }
  unfold strip. inversion Hs as [|? ? Hc Hcs]; subst.
  cbn [app]. rewrite lstrip_head by assumption.
  change (c :: cs ++ [" "%char]) with ((c :: cs) ++ [" "%char]).
  rewrite rev_app_distr. cbn [rev app lstrip].
  change (is_space " ") with true. cbv iota.
  assert (Hr : Forall (fun c => is_space c = false) (rev cs ++ [c])).
  { apply Forall_app. split; [now apply Forall_rev|now constructor]. }
  destruct (rev cs ++ [c]) as [|x xs] eqn:Er.
  { destruct (rev cs); discriminate. }
  inversion Hr; subst. rewrite lstrip_head by assumption.
  rewrite <- Er. change (rev cs ++ [c]) with (rev (c :: cs)).
  now rewrite rev_involutive.
Qed.

Lemma digits_head (d : Decimal.uint) :
  d <> Decimal.Nil ->
  exists c cs, list_ascii_of_string (NilEmpty.string_of_uint d) = c :: cs /\
               Ascii.eqb c "-" = false /\ Ascii.eqb c "+" = false /\
               is_space c = false.
Proof.
  intros Hd. destruct d; [congruence|..];
    cbn [NilEmpty.string_of_uint list_ascii_of_string]; eauto 10.
Qed.

Lemma py_int_digits_space (d : Decimal.uint) :
  d <> Decimal.Nil ->
  py_int (NilEmpty.string_of_uint d ++ " ") = Ok (uint_val 0 d).
Proof.
  intros Hd. unfold py_int. rewrite list_ascii_app.
  change (list_ascii_of_string " ") with [" "%char].
  rewrite (strip_digits_space Hd).
  destruct (digits_head Hd) as (c & cs & E & H1 & H2 & _).
  pose proof (@digits_value_uint d 0 false (or_introl Hd)) as Hv.
  rewrite E in *. rewrite H1, H2, Hv. reflexivity.
Qed.

(** [s.split(sep)[0]] on digits, a space, then [sep]. *)
Lemma split_first_digits (d : Decimal.uint) (g : ascii) (sep' rest : string) :
  digit_value g = None -> Ascii.eqb g " " = false ->
  split_first (String g sep')
              (NilEmpty.string_of_uint d ++ " " ++ String g sep' ++ rest)
  = (NilEmpty.string_of_uint d ++ " ")%string.
Proof.
  intros Hg Hs.
  assert (Hne : forall c s, digit_value c <> None \/ c = " "%char ->
                            String.prefix (String g sep') (String c s) = false).
  { intros c s Hc. cbn [String.prefix].
    destruct (ascii_dec g c) as [->|]; [|reflexivity].
    destruct Hc as [Hc| ->]; [congruence|]. now rewrite Ascii.eqb_refl in Hs. }
  induction d; cbn [NilEmpty.string_of_uint append split_first];
    rewrite ?Hne by (left; discriminate); try (f_equal; assumption).
  rewrite Hne by now right. f_equal.
  cbn [String.prefix]. destruct (ascii_dec g g); [|congruence].
  assert (Hp : forall a b, String.prefix a (a ++ b) = true).
  { induction a as [|x a IH]; intros b; cbn; [now destruct b|].
    destruct (ascii_dec x x); [apply IH|congruence]. }
  rewrite Hp.
  destruct (String g sep' ++ rest)%string; reflexivity.
Qed.


Lemma split_first_singular (d : Decimal.uint) :
  split_first "guests" (NilEmpty.string_of_uint d ++ " guest")
  = (NilEmpty.string_of_uint d ++ " guest")%string.
Proof.
  induction d; cbn [NilEmpty.string_of_uint append];
    [reflexivity|..];
    cbn [split_first String.prefix];
    match goal with
    | |- context [ascii_dec ?a ?b] => destruct (ascii_dec a b); [discriminate|]
    end; f_equal; assumption.
Qed.

Lemma py_int_singular (d : Decimal.uint) :
  d <> Decimal.Nil ->
  py_int (NilEmpty.string_of_uint d ++ " guest")
  = Raised (ValueError "invalid literal for int() with base 10").
Proof.
  intros Hd. unfold py_int. rewrite list_ascii_app.
  destruct (digits_head Hd) as (c & cs & E & H1 & H2 & H3).
  change (list_ascii_of_string " guest") with [" "; "g"; "u"; "e"; "s"; "t"]%char.
  assert (Es : strip (list_ascii_of_string (NilEmpty.string_of_uint d)
                      ++ [" "; "g"; "u"; "e"; "s"; "t"]%char)
               = list_ascii_of_string (NilEmpty.string_of_uint d)
                 ++ " "%char :: ["g"; "u"; "e"; "s"; "t"]%char).
  { rewrite E.
    replace ((c :: cs) ++ [" "; "g"; "u"; "e"; "s"; "t"]%char)
      with (c :: (cs ++ [" "; "g"; "u"; "e"; "s"]%char) ++ ["t"%char])
      by (cbn [app]; now rewrite <- app_assoc).
    now rewrite strip_tight by (assumption || reflexivity). }
  rewrite Es.
  pose proof (@digits_value_stops d 0 false " "%char ["g"; "u"; "e"; "s"; "t"]%char
                eq_refl eq_refl) as Hv.
  rewrite E in *. cbn [app] in *. rewrite H1, H2, Hv. reflexivity.
Qed.

Lemma guest_labels_parse_singular (n : Z) :
  0 <= n ->
  py_int (split_first "guests" (py_str n ++ " guest"))
  = Raised (ValueError "invalid literal for int() with base 10").
Proof.
  intros Hn. destruct (py_str_digits Hn) as (d & Hd & -> & Hv).
  rewrite split_first_singular. now apply py_int_singular.
Qed.

(** X10. What the operations read off the labels of the guest picker:
    for every count [n], the text of [n] followed by [ guests] parses to
    [n], and so do [ child] and [ children] for the children's label; the
    singular [ guest] does not contain the separator, and parsing it
    raises [ValueError]. *)
Theorem guest_labels_parse (n : Z) :
  0 <= n ->
  py_int (split_first "guests" (py_str n ++ " guests")) = Ok n /\
  py_int (split_first "child" (py_str n ++ " child")) = Ok n /\
  py_int (split_first "child" (py_str n ++ " children")) = Ok n /\
  py_int (split_first "guests" (py_str n ++ " guest"))
  = Raised (ValueError "invalid literal for int() with base 10").
Proof.
  intros Hn. destruct (py_str_digits Hn) as (d & Hd & -> & Hv).
  repeat split.
  - change (NilEmpty.string_of_uint d ++ " guests")%string
      with (NilEmpty.string_of_uint d ++ " " ++ "guests" ++ "")%string.
    rewrite split_first_digits by reflexivity.
    now rewrite py_int_digits_space, Hv.
  - change (NilEmpty.string_of_uint d ++ " child")%string
      with (NilEmpty.string_of_uint d ++ " " ++ "child" ++ "")%string.
    rewrite split_first_digits by reflexivity.
    now rewrite py_int_digits_space, Hv.
  - change (NilEmpty.string_of_uint d ++ " children")%string
      with (NilEmpty.string_of_uint d ++ " " ++ "child" ++ "ren")%string.
    rewrite split_first_digits by reflexivity.
    now rewrite py_int_digits_space, Hv.
  - rewrite split_first_singular. now apply py_int_singular.
Qed.

End Labels.

Section SingleGuest.
Context {world : Type} {B : Browser world}.

(** X11. On a listing whose guest button reads a singular label ([1
    guest]), removing children fails with [ValueError] on the first
    label it reads: the guest picker is not opened, nothing is clicked and
    no failure screenshot is taken. *)
Theorem singular_guest_label_raises_before_any_click
        (n new_child_count : Z) (w w1 : world) :
  0 <= n ->
  inner_text SearchResultsPage.guests_button w = (Ok (py_str n ++ " guest")%string, w1) ->
  call_function
    (SearchResultsPage.remove_kids_from__highest_rated_listing new_child_count) w
  = (Raised (ValueError "invalid literal for int() with base 10"), w1,
     [EInnerText SearchResultsPage.guests_button (Ok (py_str n ++ " guest")%string)]).
Proof.
  intros Hn H. pose proof (guest_labels_parse_singular Hn) as E.
  unfold SearchResultsPage.remove_kids_from__highest_rated_listing.
  run_step. rewrite H, E. reflexivity.
Qed.
End SingleGuest.

(** * Removing children, in general *)
Section RemoveKids.
Context {world : Type} {B : Browser world}.

(** The loop of clicks on the decrease control. *)
Lemma decrease_loop (xs : list Z) (w : world) :
  let '(o, _, tr) :=
    for_each (R:=unit) xs tt
      (fun _ _ => driver (click SearchResultsPage.reduce_child_count_element) (EClick SearchResultsPage.reduce_child_count_element) ;; ret (KeepGoing tt)) w in
  match o with
  | Normal _ =>
      tr = repeat (EClick SearchResultsPage.reduce_child_count_element (Ok tt)) (List.length xs)
  | Return _ => False
  | Raise e =>
      exists k, (k < List.length xs)%nat /\
                tr = repeat (EClick SearchResultsPage.reduce_child_count_element (Ok tt)) k ++ [EClick SearchResultsPage.reduce_child_count_element (Raised e)]
  end.
Proof.
  revert w. induction xs as [|x xs IH]; intros w.
  - reflexivity.
  - cbn [for_each]. run_step. ask.
    + destruct a. specialize (IH w0).
      destruct (for_each xs tt _ w0) as [[[[]|[]|e] w1] t1]; cbn.
      * now rewrite IH.
      * contradiction.
      * destruct IH as (k & Hk & ->). exists (S k). split; [lia|reflexivity].
    + exists 0%nat. cbn. split; [lia|reflexivity].
Qed.

Lemma inner_texts_app (t1 t2 : trace) :
  inner_texts (t1 ++ t2) = inner_texts t1 ++ inner_texts t2.
Proof. apply flat_map_app. Qed.

Lemma inner_texts_clicks (l : locator) (r : result unit) (n : nat) :
  inner_texts (repeat (EClick l r) n) = [].
Proof. induction n; cbn; auto. Qed.

Lemma clicks_repeat (l : locator) (r : result unit) (n : nat) :
  clicks (repeat (EClick l r) n) = repeat (l, r) n.
Proof. induction n; cbn; [reflexivity|now f_equal]. Qed.

(** X12. What a normal return of the removal certifies, for every target:
    the operation read the total, opened the picker, read the number of
    children, clicked the decrease control once per child to remove (and
    nothing else), read the two labels again, and found the children at
    the target and the total lower by the number of clicks; when there was
    nothing to remove the total has to be lower by one all the same. *)
Theorem removal_postcondition (new_child_count : Z) (w : world) :
  let run := call_function
               (SearchResultsPage.remove_kids_from__highest_rated_listing
                  new_child_count) w in
  fst (fst run) = Ok tt ->
  exists t0 t1 t2 t3 total children,
    inner_texts (snd run)
    = [(SearchResultsPage.guests_button, Ok t0); (SearchResultsPage.current_child_count_element, Ok t1); (SearchResultsPage.current_child_count_element, Ok t2); (SearchResultsPage.guests_button, Ok t3)] /\
    py_int (split_first "guests" t0) = Ok total /\
    py_int (split_first "child" t1) = Ok children /\
    clicks (snd run)
    = (SearchResultsPage.guests_button, Ok tt)
        :: repeat (SearchResultsPage.reduce_child_count_element, Ok tt) (Z.to_nat (children - new_child_count)) /\
    py_int (split_first "child" t2) = Ok new_child_count /\
    py_int (split_first "guests" t3)
    = Ok (total - (if new_child_count <? children
                   then children - new_child_count else 1)).
Proof.
  unfold SearchResultsPage.remove_kids_from__highest_rated_listing.
  run_step.
  ask; [|cbn; discriminate].
  destruct (py_int (split_first "guests" a)) as [total|e0] eqn:P0; [|cbn; discriminate].
  cbv beta iota.
  ask; [|cbn; destruct (is_AssertionError e); [ask|]; cbn; discriminate].
  ask; [|cbn; destruct (is_AssertionError e); [ask|]; cbn; discriminate].
  destruct (py_int (split_first "child" a1)) as [children|e1] eqn:P1;
    [|cbn; destruct (is_AssertionError e1); [ask|]; cbn; discriminate].
  cbv beta iota.
  destruct (new_child_count <? children) eqn:Elt.
  - match goal with
    | |- context [for_each ?xs tt ?body ?w'] =>
        pose proof (decrease_loop xs w') as L;
        change (for_each xs tt _ w') with (for_each xs tt body w') in L;
        destruct (for_each xs tt body w') as [[[[]|[]|e] wl] tl]; [|contradiction|]
    end.
    2:{ cbn. destruct (is_AssertionError e); [ask|]; cbn; discriminate. }
    rewrite range_length in L. subst tl. cbv beta iota.
    ask; [|cbn; destruct (is_AssertionError e); [ask|]; cbn; discriminate].
    destruct (py_int (split_first "child" a2)) as [c2|e2] eqn:P2;
      [|cbn; destruct (is_AssertionError e2); [ask|]; cbn; discriminate].
    cbv beta iota.
    ask; [|cbn; destruct (is_AssertionError e); [ask|]; cbn; discriminate].
    destruct (py_int (split_first "guests" a3)) as [g3|e3] eqn:P3;
      [|cbn; destruct (is_AssertionError e3); [ask|]; cbn; discriminate].
    cbv beta iota.
    destruct (new_child_count =? c2) eqn:Ea1; cbv beta iota;
      [|cbn; ask; cbn; discriminate].
    destruct (g3 =? total - (children - new_child_count)) eqn:Ea2; cbv beta iota;
      [|cbn; ask; cbn; discriminate].
    ask; [|cbn; destruct (is_AssertionError e); [ask|]; cbn; discriminate].
    apply Z.eqb_eq in Ea1, Ea2. subst c2 g3. destruct a0.
    intros _. exists a, a1, a2, a3, total, children.
    cbn [snd]. rewrite !inner_texts_app, !clicks_app, ?inner_texts_clicks, ?clicks_repeat.
    cbn. rewrite ?inner_texts_app, ?clicks_app, ?inner_texts_clicks, ?clicks_repeat.
    cbn. rewrite ?app_nil_r, Elt. auto 10.
  - cbv beta iota.
    ask; [|cbn; destruct (is_AssertionError e); [ask|]; cbn; discriminate].
    destruct (py_int (split_first "child" a2)) as [c2|e2] eqn:P2;
      [|cbn; destruct (is_AssertionError e2); [ask|]; cbn; discriminate].
    cbv beta iota.
    ask; [|cbn; destruct (is_AssertionError e); [ask|]; cbn; discriminate].
    destruct (py_int (split_first "guests" a3)) as [g3|e3] eqn:P3;
      [|cbn; destruct (is_AssertionError e3); [ask|]; cbn; discriminate].
    cbv beta iota.
    destruct (new_child_count =? c2) eqn:Ea1; cbv beta iota;
      [|cbn; ask; cbn; discriminate].
    destruct (g3 =? total - 1) eqn:Ea2; cbv beta iota;
      [|cbn; ask; cbn; discriminate].
    ask; [|cbn; destruct (is_AssertionError e); [ask|]; cbn; discriminate].
    apply Z.eqb_eq in Ea1, Ea2. subst c2 g3. destruct a0.
    intros _. exists a, a1, a2, a3, total, children.
    rewrite Elt. apply Z.ltb_ge in Elt.
    replace (Z.to_nat (children - new_child_count)) with 0%nat by lia.
    cbn. auto 10.
Qed.

End RemoveKids.

Section RemoveKidsReport.
Context {world : Type} {B : Browser world}.

Lemma silent_try_except_AssertionError (trig : event -> bool) {R A}
      (body : M (world:=world) R A) (handler : exn -> M R A) :
  silent trig body -> (forall e, silent trig (handler e)) ->
  silent trig (try_except_AssertionError body handler).
Proof.
  intros Hm Hf w. unfold try_except_AssertionError. specialize (Hm w).
  destruct (body w) as [[[a| |e] w1] t1]; simpl in *; try assumption.
  destruct (is_AssertionError e); [|assumption].
  specialize (Hf e w1). destruct (handler e w1) as [[o w2] t2]. simpl in *.
  now rewrite existsb_app, Hm, Hf.
Qed.

Lemma silent_py_assert (trig : event -> bool) {R} (b : bool) :
  silent (world:=world) trig (py_assert (R:=R) b).
Proof. destruct b; intros w; reflexivity. Qed.

Ltac hush :=
  repeat first
    [ apply silent_bind; [|intros ?]
    | apply silent_try_except_AssertionError; [|intros ?]
    | apply silent_try_except; [|intros ?]
    | apply silent_invoke
    | apply silent_for_each; intros ? ?
    | apply silent_if
    | apply silent_ret
    | apply silent_return
    | apply silent_raise
    | apply silent_read
    | apply silent_lift
    | apply silent_py_assert
    | apply silent_emit; reflexivity
    | apply silent_driver; intros []; reflexivity ].

Lemma clicks_on_outside (allowed : list locator) (l : locator) (tr : trace) :
  existsb (click_outside allowed) tr = false ->
  existsb (locator_eqb l) allowed = false ->
  clicks_on l tr = [].
Proof.
  intros H Hl. induction tr as [|e tr IH]; [reflexivity|].
  cbn in H. apply orb_false_iff in H. destruct H as [He H].
  unfold clicks_on in *. cbn [flat_map]. rewrite (IH H), app_nil_r.
  destruct e; try reflexivity. cbn in He.
  destruct (locator_eqb l l0) eqn:El; [|reflexivity].
  apply locator_eqb_eq in El. subst l0.
  rewrite Hl in He. discriminate.
Qed.

(** X13. Whatever the target and whatever the page does, removing
    children clicks nothing but the guest button and the decrease control
    of the stepper.  The increase control is never clicked: a target above
    the number shown is not acted on. *)
Theorem removal_never_clicks_increase (new_child_count : Z) (w : world) :
  let tr := snd (call_function
                   (SearchResultsPage.remove_kids_from__highest_rated_listing
                      new_child_count) w) in
  existsb (click_outside [SearchResultsPage.guests_button; SearchResultsPage.reduce_child_count_element]) tr = false /\
  clicks_on SearchResultsPage.increase_child_count_element tr = [].
Proof.
  assert (Hs : silent (click_outside [SearchResultsPage.guests_button; SearchResultsPage.reduce_child_count_element])
                 (SearchResultsPage.remove_kids_from__highest_rated_listing
                    (world:=world) new_child_count)).
  { unfold SearchResultsPage.remove_kids_from__highest_rated_listing. hush. }
  specialize (Hs w). unfold call_function.
  destruct (SearchResultsPage.remove_kids_from__highest_rated_listing _ w)
    as [[[[]|[]|e] w1] tr]; cbn [snd] in *;
    (split; [assumption|eapply clicks_on_outside; [exact Hs|reflexivity]]).
Qed.

Lemma split_at_first_hit (P : event -> bool) (l : trace) (x : event) (tl : trace) :
  existsb P l = false -> P x = true ->
  forall pre e post,
    l ++ x :: tl = pre ++ e :: post -> P e = true ->
    existsb P tl = false ->
    pre = l /\ e = x /\ post = tl.
Proof.
  induction l as [|y l IH]; simpl; intros Hl Hx pre e post Heq He Htl.
  - destruct pre as [|z pre]; simpl in Heq.
    + injection Heq as -> <-. auto.
    + injection Heq as -> Heq.
      assert (In e tl) by (rewrite Heq; apply in_elt).
      pose proof (existsb_false_In _ _ e Htl H). congruence.
  - apply orb_false_iff in Hl. destruct Hl as [Hy Hl].
    destruct pre as [|z pre]; simpl in Heq.
    + injection Heq as -> _. congruence.
    + injection Heq as -> Heq.
      destruct (IH Hl Hx _ _ _ Heq He Htl) as (-> & -> & ->). auto.
Qed.

Lemma removal_report_log (new_child_count : Z) (w : world) :
  let '(o, _, tr) :=
    SearchResultsPage.remove_kids_from__highest_rated_listing new_child_count w in
  existsb removal_failed tr = false \/
  exists pre,
    existsb removal_failed pre = false /\
    ((tr = pre ++ [ELog INFO "updating the child number failed: {e}";
                   EScreenshot false (Ok tt);
                   EAttach "failure updating child number error" PNG] /\
      o = Raise AssertionError) \/
     exists e', tr = pre ++ [ELog INFO "updating the child number failed: {e}";
                             EScreenshot false (Raised e')] /\
                o = Raise e').
Proof.
  unfold SearchResultsPage.remove_kids_from__highest_rated_listing.
  unfold bind at 1, driver at 1.
  destruct (inner_text SearchResultsPage.guests_button w) as [[t0|e0] w0]; [|left; reflexivity].
  unfold bind at 1.
  destruct (py_int (split_first "guests" t0)) as [total|e0]; [|left; reflexivity].
  cbn [lift ret].
  unfold try_except_AssertionError.
  match goal with
  | |- context [let (_, _) := ?body w0 in _] =>
      assert (Hb : silent removal_failed body) by hush;
      specialize (Hb w0); destruct (body w0) as [[[[]|[]|e] w1] t1]
  end; cbn [snd] in Hb; cbv beta iota.
  1,2: left; cbn; assumption.
  destruct e; cbn [is_AssertionError]; cbv iota;
    try (left; cbn; assumption).
  run_step.
  destruct (screenshot false w1) as [[[]|e'] w2]; cbv beta iota;
    right; exists (EInnerText SearchResultsPage.guests_button (Ok t0) :: t1);
    (split; [cbn; assumption|]).
  - left. split; [|reflexivity]. cbn. reflexivity.
  - right. exists e'. split; [|reflexivity]. reflexivity.
Qed.

(** X14. The failure report of the removal is written only for a failed
    assertion, and its screenshot is not guarded: after the line that
    announces the failure comes one screenshot; when it succeeds the
    attachment follows and [AssertionError] comes out, when it raises, its
    exception comes out in place of the [AssertionError]. *)
Theorem removal_failure_report (new_child_count : Z) (w : world) :
  let run := call_function
               (SearchResultsPage.remove_kids_from__highest_rated_listing
                  new_child_count) w in
  forall pre post,
    snd run = pre ++ ELog INFO "updating the child number failed: {e}" :: post ->
    (post = [EScreenshot false (Ok tt);
             EAttach "failure updating child number error" PNG] /\
     fst (fst run) = Raised AssertionError) \/
    (exists e', post = [EScreenshot false (Raised e')] /\
                fst (fst run) = Raised e').
Proof.
  pose proof (removal_report_log new_child_count w) as H.
  unfold call_function.
  destruct (SearchResultsPage.remove_kids_from__highest_rated_listing _ w)
    as [[o w1] tr].
  assert (Hrun : forall pre post,
             tr = pre ++ ELog INFO "updating the child number failed: {e}" :: post ->
             (post = [EScreenshot false (Ok tt);
                      EAttach "failure updating child number error" PNG] /\
              o = Raise AssertionError) \/
             (exists e', post = [EScreenshot false (Raised e')] /\ o = Raise e')).
  { intros pre post Heq.
    destruct H as [H|(pre0 & Hp & [[-> ->]|(e' & -> & ->)])].
    - exfalso. subst tr.
      assert (Hin : In (ELog INFO "updating the child number failed: {e}")
                       (pre ++ ELog INFO "updating the child number failed: {e}" :: post))
        by apply in_elt.
      pose proof (existsb_false_In _ _ _ H Hin). discriminate.
    - left.
      destruct (@split_at_first_hit removal_failed pre0
                  (ELog INFO "updating the child number failed: {e}")
                  [EScreenshot false (Ok tt);
                   EAttach "failure updating child number error" PNG]
                  Hp eq_refl pre _ post Heq eq_refl eq_refl) as (_ & _ & <-).
      split; reflexivity.
    - right. exists e'.
      destruct (@split_at_first_hit removal_failed pre0
                  (ELog INFO "updating the child number failed: {e}")
                  [EScreenshot false (Raised e')]
                  Hp eq_refl pre _ post Heq eq_refl eq_refl) as (_ & _ & <-).
      split; reflexivity. }
  cbv zeta. intros pre post Heq.
  destruct o as [[]|[]|e]; cbn [fst snd] in *;
    destruct (Hrun pre post Heq) as [[-> Ho]|(e' & -> & Ho)];
    try discriminate; injection Ho as ->; [left|right]; eauto.
Qed.

End RemoveKidsReport.

(** * The reserve button *)
Section ReserveButton.
Context {world : Type} {B : Browser world}.

(** X15. The reservation clicks the second match of the reserve button
    and nothing else.  When the page has fewer than two matches nothing is
    clicked: once the address has been read, indexing the matches raises
    [IndexError]. *)
Theorem reserve_needs_a_second_match (adults_count : Z) (w : world) :
  let run := call_function (SearchResultsPage.reserve_and_validate adults_count) w in
  let tr := snd run in
  (clicks tr = [] \/ exists r, clicks tr = [(reserve_button, r)]) /\
  forall l n,
    In (EAll l (Ok n)) tr -> (n < 2)%nat ->
    clicks tr = [] /\
    ((exists u, urls_read tr = [Ok u] /\ fst (fst run) = Raised IndexError) \/
     (exists e, urls_read tr = [Raised e] /\ fst (fst run) = Raised e)).
Proof.
  assert (Hfind : forall l n a (tl : trace),
             In (EAll l (Ok n))
                (EAll (Locator popup (attr_selector "data-testid" "homes-pdp-cta-btn"))
                      (Ok a) :: tl) ->
             existsb (fun e => match e with EAll _ _ => true | _ => false end) tl = false ->
             n = a).
  { intros l n a tl [H|H] Htl; [now injection H|].
    pose proof (existsb_false_In _ _ _ Htl H). discriminate. }
  unfold SearchResultsPage.reserve_and_validate. run_step.
  ask; [|cbn; split; [auto|intros l n [H|[]]; discriminate]].
  ask.
  2:{ cbn. split; [auto|]. intros l n H Hn.
      split; [reflexivity|right; eauto]. }
  destruct (1 <? a)%nat eqn:Ea.
  - apply Nat.ltb_lt in Ea.
    ask; [ask; [match goal with
                | |- context [negb (String.eqb ?x ?y)] =>
                    destruct (negb (String.eqb x y));
                    [match goal with
                     | |- context [truthy ?v] => destruct (truthy v)
                     end|]
                end|]|].
    all: cbv beta iota; cbn [fst snd app].
    all: split; [right; cbn; eauto|].
    all: intros l n H Hlt; apply Hfind in H; [lia|reflexivity].
  - apply Nat.ltb_ge in Ea. cbn. split; [auto|]. intros l n H Hlt.
    split; [reflexivity|left; eauto].
Qed.

End ReserveButton.

(** * A page that goes away during the readiness detection *)
Section PageGone.
Context {world : Type} {B : Browser world}.
Variable expected_viewport : viewport.

Ltac open_blocks :=
  unfold SearchResultsPage.probe_load_indicators,
    SearchResultsPage.probe_generic_selectors,
    SearchResultsPage._ensure_full_screen, SearchResultsPage._is_page_available.

Lemma ends_guarded (gone : string) (rest : M (world:=world) unit unit) :
  existsb (String.eqb gone) gone_messages = true ->
  ends page_gone tail_page_gone handler_log rest ->
  ends page_gone tail_page_gone handler_log
       (available <- invoke SearchResultsPage._is_page_available ;;
        (if negb available
         then emit (ELog ERROR gone) ;; return_ tt
         else ret tt) ;;
        rest).
Proof.
  intros Hg Hr w. open_blocks. run_step.
  destruct (url primary w) as [[u|e] w1]; cbv beta iota.
  - cbn [negb]. cbv beta iota. specialize (Hr w1).
    destruct (rest w1) as [[o w2] t2].
    destruct o; cbn [app after page_gone andb]; assumption.
  - cbn [negb app after page_gone tail_page_gone andb]. now rewrite Hg.
Qed.

Lemma indicator_loop_gone (locate : string -> locator)
      (gone found not_found : string) (names : list string) :
  existsb (String.eqb gone) gone_messages = true ->
  passes (world:=world) page_gone tail_page_gone
         (indicator_loop locate gone found not_found names).
Proof.
  intros Hg. unfold indicator_loop, SearchResultsPage._is_page_available.
  induction names as [|name names IH]; intros w.
  - cbn. auto.
  - cbn [for_each]. run_step.
    destruct (url primary w) as [[u|e] w1]; cbv beta iota.
    2:{ cbn [negb app after page_gone tail_page_gone andb]. rewrite Hg. auto. }
    cbn [negb]. cbv beta iota.
    destruct (is_visible (locate name) 2000 w1) as [[[|]|e] w2]; cbv beta iota.
    + cbn. auto.
    + specialize (IH w2). destruct (for_each names tt _ w2) as [[o w3] t3].
      destruct IH as [Ha Ho]. cbn [app after page_gone andb existsb orb].
      split; [assumption|]. destruct o; assumption.
    + specialize (IH w2). destruct (for_each names tt _ w2) as [[o w3] t3].
      destruct IH as [Ha Ho]. cbn [app after page_gone andb existsb orb].
      split; [assumption|]. destruct o; assumption.
Qed.

Lemma page_gone_ends_detection (timeout : Z) (w : world) :
  after page_gone tail_page_gone
        (snd (call_function
                (SearchResultsPage.wait_for_page_load expected_viewport timeout) w))
  = true.
Proof.
  unfold SearchResultsPage.wait_for_page_load.
  apply ends_call with (th := handler_log); [|intros e w'; eexists; reflexivity].
  do 2 (apply ends_bind;
        [reflexivity | apply passes_of_silent; open_blocks; solve [silence] | intros ?]).
  apply ends_guarded; [reflexivity|].
  do 3 (apply ends_bind;
        [reflexivity | apply passes_of_silent; open_blocks; solve [silence] | intros ?]).
  apply ends_guarded; [reflexivity|].
  do 2 (apply ends_bind;
        [reflexivity | apply passes_of_silent; open_blocks; solve [silence] | intros ?]).
  apply ends_bind; [reflexivity| |intros ?].
  { rewrite probe_load_indicators_loop. now apply indicator_loop_gone. }
  apply ends_bind; [reflexivity| |intros ?].
  { rewrite probe_generic_selectors_loop. now apply indicator_loop_gone. }
  intros w1. open_blocks. run_step.
  repeat (ask; cbv beta iota); reflexivity.
Qed.

Lemma tail_page_gone_spec (post : trace) :
  tail_page_gone post = true ->
  (exists m, post = [ELog ERROR m] /\ In m gone_messages) \/
  post = [EScreenshot false (Ok tt);
          EAttach "Page loaded without specific indicators" PNG;
          ELog INFO "Page loaded without finding specific indicators"] \/
  exists e, post = [EScreenshot false (Raised e);
                    ELog WARNING "Failed to take final screenshot: {screenshot_error}";
                    ELog INFO "Page loaded without finding specific indicators"].
Proof.
  destruct post as [|[] post]; try discriminate.
  - destruct full_page; [discriminate|].
    destruct r as [[]|e]; (destruct post as [|[] post]; try discriminate).
    + destruct kind; try discriminate.
      destruct post as [|[] post]; try discriminate.
      destruct lvl; try discriminate. destruct post; try discriminate.
      cbn. intros H. apply andb_true_iff in H. destruct H as [H1 H2].
      apply String.eqb_eq in H1, H2. subst. auto.
    + destruct lvl; try discriminate.
      destruct post as [|[] post]; try discriminate.
      destruct lvl; try discriminate. destruct post; try discriminate.
      cbn. intros H. apply andb_true_iff in H. destruct H as [H1 H2].
      apply String.eqb_eq in H1, H2. subst. eauto.
  - destruct lvl; try discriminate. destruct post; try discriminate.
    cbn [tail_page_gone]. intros H. left. exists msg. split; [reflexivity|].
    apply existsb_exists in H. destruct H as (m & Hin & Hm).
    apply String.eqb_eq in Hm. now subst.
Qed.

(** X16. Once a check finds the page gone (reading its address raises),
    [wait_for_page_load] asks nothing more of it: it logs that the page is
    no longer available and returns, or, at the check before the wait for
    any content, skips that wait and closes with the final screenshot and
    log line.  No visibility check, wait or resize follows. *)
Theorem page_gone_stops_the_detection (timeout : Z) (w : world) :
  let run := call_function
               (SearchResultsPage.wait_for_page_load expected_viewport timeout) w in
  fst (fst run) = Ok tt /\
  forall pre e post,
    snd run = pre ++ EUrl primary (Raised e) :: post ->
    (exists m, post = [ELog ERROR m] /\ In m gone_messages) \/
    post = [EScreenshot false (Ok tt);
            EAttach "Page loaded without specific indicators" PNG;
            ELog INFO "Page loaded without finding specific indicators"] \/
    exists e', post = [EScreenshot false (Raised e');
                       ELog WARNING "Failed to take final screenshot: {screenshot_error}";
                       ELog INFO "Page loaded without finding specific indicators"].
Proof.
  split; [apply wait_for_page_load_returns|].
  intros pre e post Heq. apply tail_page_gone_spec.
  eapply after_spec;
    [apply (page_gone_ends_detection timeout w) | exact Heq | reflexivity].
Qed.

End PageGone.

(** * Checking the destination of the results *)
Section VerifySearchResults.
Context {world : Type} {B : Browser world} {C : Collaborators world}.

(** A loop over candidates that keeps its flag or sets it on a text
    that shows [needle]. *)
Lemma content_loop (needle : string) {X : Type} (xs : list X) (s : bool)
      (body : X -> bool -> M (world:=world) bool (ctl bool)) :
  (forall x s' w,
      let '(o, _, t) := body x s' w in
      existsb content_error t = false /\
      match o with
      | Normal (KeepGoing s'') => s'' = s'
      | Normal (BreakWith s'') => existsb (shows needle) t = true
      | Return _ => False
      | Raise _ => True
      end) ->
  forall w,
    let '(o, _, t) := for_each xs s body w in
    existsb content_error t = false /\
    match o with
    | Normal s' => s' = true -> s = true \/ existsb (shows needle) t = true
    | Return _ => False
    | Raise _ => True
    end.
Proof.
  intros Hb. revert s. induction xs as [|x xs IH]; intros s w.
  - cbn. auto.
  - cbn [for_each]. specialize (Hb x s w).
    destruct (body x s w) as [[[[s1|s1]|v|e] w1] t1]; destruct Hb as [Hq Ho].
    + subst s1. specialize (IH s w1).
      destruct (for_each xs s body w1) as [[o w2] t2]. destruct IH as [Hq2 Ho2].
      rewrite existsb_app, Hq, Hq2. split; [reflexivity|].
      destruct o; auto. intros Hs. destruct (Ho2 Hs) as [?|H2]; [auto|].
      right. rewrite existsb_app, H2. apply orb_true_r.
    + split; [assumption|]. auto.
    + contradiction.
    + auto.
Qed.

Lemma guarded_check_step (needle : string) (l : locator) (s : bool) (w : world) :
  let '(o, _, t) :=
    try_except (R:=bool)
      (v <- driver (is_visible l 1000) (EIsVisible l 1000) ;;
       if v
       then
         txt <- driver (inner_text l) (EInnerText l) ;;
         if contains needle (lower txt)
         then ret (BreakWith true)
         else ret (KeepGoing s)
       else ret (KeepGoing s))
      (fun _ => ret (KeepGoing s)) w in
  existsb content_error t = false /\
  match o with
  | Normal (KeepGoing s'') => s'' = s
  | Normal (BreakWith s'') => existsb (shows needle) t = true
  | Return _ => False
  | Raise _ => True
  end.
Proof.
  run_step. ask; [destruct a|]; cbv beta iota; [ask|..]; cbv beta iota;
    try (cbn; auto; fail).
  destruct (contains needle (lower a)) eqn:Ec; cbn; rewrite ?Ec; auto.
Qed.

Lemma unguarded_check_step (needle : string) (l : locator) (s : bool) (w : world) :
  let '(o, _, t) :=
    (v <- driver (R:=bool) (is_visible l 1000) (EIsVisible l 1000) ;;
     if v
     then
       txt <- driver (inner_text l) (EInnerText l) ;;
       if contains needle (lower txt)
       then ret (BreakWith true)
       else ret (KeepGoing s)
     else ret (KeepGoing s)) w in
  existsb content_error t = false /\
  match o with
  | Normal (KeepGoing s'') => s'' = s
  | Normal (BreakWith s'') => existsb (shows needle) t = true
  | Return _ => False
  | Raise _ => True
  end.
Proof.
  run_step. ask; [destruct a|]; cbv beta iota; [ask|..]; cbv beta iota;
    try (cbn; auto; fail).
  destruct (contains needle (lower a)) eqn:Ec; cbn; rewrite ?Ec; auto.
Qed.

(** What [verify_search_results] does once the address, the title and
    the screenshot are had. *)
Lemma verify_search_results_content (destination u t : string) (w w1 w2 w3 : world) :
  url primary w = (Ok u, w1) ->
  title w1 = (Ok t, w2) ->
  screenshot_path "test-results/verify-search-results.png" w2 = (Ok tt, w3) ->
  let '(o, _, tr) := SearchResultsPage.verify_search_results destination w in
  exists in_content,
    o = Return (contains (lower destination) (lower u)
                || contains (lower destination) (lower t) || in_content) /\
    (in_content = true -> existsb (shows (lower destination)) tr = true) /\
    (existsb content_error tr = true -> in_content = false).
Proof.
  intros Hu Ht Hs. unfold SearchResultsPage.verify_search_results.
  unfold bind at 1, driver at 1. rewrite Hu.
  unfold bind at 1, unlogged at 1. rewrite Ht.
  unfold bind at 1, unlogged at 1. rewrite Hs.
  unfold bind at 1, try_except at 1.
  set (needle := lower destination).
  unfold bind at 1.
  match goal with
  | |- context [for_each ?xs false ?body w3] =>
      pose proof (@content_loop needle _ xs false body) as L1;
      match type of L1 with
      | ?P -> _ => assert (H1 : P); [|specialize (L1 H1 w3); clear H1]
      end
  end.
  { intros x s' w'. apply guarded_check_step. }
  match goal with
  | |- context [for_each ?xs false ?body w3] =>
      destruct (for_each xs false body w3) as [[[s1|v|e] w4] t1]
  end; destruct L1 as [Q1 L1]; [|contradiction|].
  2:{ run_step. exists false. cbn. rewrite ?app_nil_r.
      repeat split; auto; discriminate. }
  unfold bind at 1.
  match goal with
  | |- context [for_each ?xs s1 ?body w4] =>
      pose proof (@content_loop needle _ xs s1 body) as L2;
      match type of L2 with
      | ?P -> _ => assert (H2 : P); [|specialize (L2 H2 w4); clear H2]
      end
  end.
  { intros x s' w'. apply unguarded_check_step. }
  match goal with
  | |- context [for_each ?xs s1 ?body w4] =>
      destruct (for_each xs s1 body w4) as [[[s2|v|e] w5] t2]
  end; destruct L2 as [Q2 L2]; [|contradiction|].
  2:{ run_step. exists false. cbn. rewrite ?app_nil_r.
      repeat split; auto; discriminate. }
  unfold bind at 1.
  match goal with
  | |- context [for_each ?xs s2 ?body w5] =>
      pose proof (@content_loop needle _ xs s2 body) as L3;
      match type of L3 with
      | ?P -> _ => assert (H3 : P); [|specialize (L3 H3 w5); clear H3]
      end
  end.
  { intros x s' w'. apply guarded_check_step. }
  match goal with
  | |- context [for_each ?xs s2 ?body w5] =>
      destruct (for_each xs s2 body w5) as [[[s3|v|e] w6] t3]
  end; destruct L3 as [Q3 L3]; [|contradiction|].
  2:{ run_step. exists false. cbn. rewrite ?app_nil_r.
      repeat split; auto; discriminate. }
  assert (Hshown : forall tl,
             s3 = true ->
             existsb (shows needle) (EUrl primary (Ok u) :: (t1 ++ t2 ++ t3 ++ tl))
             = true).
  { intros tl Hs3. cbn [existsb shows orb]. rewrite !existsb_app.
    destruct (L3 Hs3) as [Hs2| ->]; [|now rewrite !orb_true_r].
    destruct (L2 Hs2) as [Hs1| ->]; [|now rewrite !orb_true_r].
    destruct (L1 Hs1) as [?| ->]; [discriminate|reflexivity]. }
  assert (Hquiet : forall tl,
             existsb content_error tl = false ->
             existsb content_error (EUrl primary (Ok u) :: (t1 ++ t2 ++ t3 ++ tl))
             = false).
  { intros tl Htl. cbn [existsb content_error orb].
    now rewrite !existsb_app, Q1, Q2, Q3, Htl. }
  destruct s3; cbn [negb]; cbv iota.
  - run_step. exists true. cbn [app]. rewrite ?app_nil_r, <- ?app_assoc.
    split; [reflexivity|]. split.
    + intros _. pose proof (Hshown [] eq_refl) as H. now rewrite app_nil_r in H.
    + pose proof (Hquiet [] eq_refl) as H. rewrite app_nil_r in H.
      rewrite H. discriminate.
  - match goal with
    | |- context [for_each ?xs false ?body w6] =>
        pose proof (@content_loop needle _ xs false body) as L4;
        match type of L4 with
        | ?P -> _ => assert (H4 : P); [|specialize (L4 H4 w6); clear H4]
        end
    end.
    { intros x s' w'. apply unguarded_check_step. }
    match goal with
    | |- context [for_each ?xs false ?body w6] =>
        destruct (for_each xs false body w6) as [[[s4|v|e] w7] t4]
    end; destruct L4 as [Q4 L4]; [|contradiction|].
    2:{ run_step. exists false. cbn. rewrite ?app_nil_r.
        repeat split; auto; discriminate. }
    run_step. exists s4. cbn [app]. rewrite ?app_nil_r, <- ?app_assoc.
    split; [reflexivity|]. split.
    + intros Hs4. cbn [existsb shows orb]. rewrite !existsb_app.
      destruct (L4 Hs4) as [?| ->]; [discriminate|]. now rewrite !orb_true_r.
    + rewrite (Hquiet t4 Q4). discriminate.
Qed.

End VerifySearchResults.

(** * Deciding whether a search succeeded *)
Section SearchSuccess.
Context {world : Type} {B : Browser world} {C : Collaborators world}.

Lemma forallb_app' (t1 t2 : trace) :
  forallb hidden_check t1 = true -> forallb hidden_check t2 = true ->
  forallb hidden_check (t1 ++ t2) = true.
Proof. intros H1 H2. now rewrite forallb_app, H1, H2. Qed.

Lemma screened_bind {A C'} (m : M (world:=world) bool A) (f : A -> M bool C') :
  (forall w, let '(o, _, t) := m w in screened o t) ->
  (forall a w, let '(o, _, t) := f a w in screened o t) ->
  forall w, let '(o, _, t) := bind m f w in screened o t.
Proof.
  intros Hm Hf w. unfold bind. specialize (Hm w).
  destruct (m w) as [[[a|v|e] w1] t1]; try assumption.
  specialize (Hf a w1). destruct (f a w1) as [[[c|v|e] w2] t2]; cbn in *.
  - now apply forallb_app'.
  - destruct Hf as (pre & l & tmo & -> & Hp & ->).
    exists (t1 ++ pre), l, tmo. rewrite app_assoc. split; [reflexivity|].
    split; [now apply forallb_app'|reflexivity].
  - now apply forallb_app'.
Qed.

Lemma decided_bind {A C'} (m : M (world:=world) bool A) (f : A -> M bool C') :
  (forall w, let '(o, _, t) := m w in screened o t) ->
  (forall a w, let '(o, w', t) := f a w in decided o w' t) ->
  forall w, let '(o, w', t) := bind m f w in decided o w' t.
Proof.
  intros Hm Hf w. unfold bind. specialize (Hm w).
  destruct (m w) as [[[a|v|e] w1] t1]; [|left; exact Hm|left; exact Hm].
  cbn in Hm.
  specialize (Hf a w1). destruct (f a w1) as [[[c|v|e] w2] t2]; cbn in *.
  - assumption.
  - destruct Hf as [(pre & l & tmo & -> & Hp & ->)|(pre & u & -> & Hp & Hu)].
    + left. exists (t1 ++ pre), l, tmo. rewrite app_assoc.
      split; [reflexivity|]. split; [now apply forallb_app'|reflexivity].
    + right. exists (t1 ++ pre), u. rewrite app_assoc.
      split; [reflexivity|]. split; [now apply forallb_app'|assumption].
  - destruct Hf as [Hf|(pre & r & -> & Hp)].
    + left. now apply forallb_app'.
    + right. exists (t1 ++ pre), r. rewrite app_assoc.
      split; [reflexivity|]. now apply forallb_app'.
Qed.

(** A loop of checks behind [try]: a check that raises is passed over. *)
Lemma guarded_loop (tmo : Z) (locate : string -> locator) (names : list string)
      (w : world) :
  let '(o, _, t) :=
    for_each (R:=bool) names tt
      (fun name _ =>
         try_except
           (v <- driver (is_visible (locate name) tmo) (EIsVisible (locate name) tmo) ;;
            if v then return_ (tmo =? 2000) else ret (KeepGoing tt))
           (fun _ => ret (KeepGoing tt))) w in
  screened o t.
Proof.
  revert w. induction names as [|name names IH]; intros w; [reflexivity|].
  cbn [for_each]. run_step.
  ask; [destruct a|]; cbv beta iota.
  - exists [], (locate name), tmo. auto.
  - specialize (IH w0). destruct (for_each names tt _ w0) as [[[[]|v|e] w1] t1];
      cbn in *; try assumption.
    destruct IH as (pre & l & tmo' & -> & Hp & ->).
    exists (EIsVisible (locate name) tmo (Ok false) :: pre), l, tmo'. auto.
  - specialize (IH w0). destruct (for_each names tt _ w0) as [[[[]|v|e'] w1] t1];
      cbn in *; try assumption.
    destruct IH as (pre & l & tmo' & -> & Hp & ->).
    exists (EIsVisible (locate name) tmo (Raised e) :: pre), l, tmo'. auto.
Qed.

(** A loop of checks outside any [try]: a check that raises ends it. *)
Lemma unguarded_loop (tmo : Z) (locate : string -> locator) (names : list string)
      (w : world) :
  let '(o, _, t) :=
    for_each (R:=bool) names tt
      (fun name _ =>
         v <- driver (is_visible (locate name) tmo) (EIsVisible (locate name) tmo) ;;
         if v then return_ (tmo =? 2000) else ret (KeepGoing tt)) w in
  screened o t.
Proof.
  revert w. induction names as [|name names IH]; intros w; [reflexivity|].
  cbn [for_each]. run_step.
  ask; [destruct a|]; cbv beta iota.
  - exists [], (locate name), tmo. auto.
  - specialize (IH w0). destruct (for_each names tt _ w0) as [[[[]|v|e] w1] t1];
      cbn in *; try assumption.
    destruct IH as (pre & l & tmo' & -> & Hp & ->).
    exists (EIsVisible (locate name) tmo (Ok false) :: pre), l, tmo'. auto.
  - reflexivity.
Qed.


Lemma is_search_successful_body (w w0 : world) :
  screenshot_path "test-results/check-search-success.png" w = (Ok tt, w0) ->
  exists body handler,
    SearchResultsPage.is_search_successful w = try_except body handler w0 /\
    (forall w', let '(o, w'', t) := body w' in decided o w'' t) /\
    handler = (fun e =>
                 driver (screenshot false) (EScreenshot false) ;;
                 emit (EAttach "Search success check error" PNG) ;;
                 emit (EAttach "Error details" TEXT) ;;
                 return_ false).
Proof.
  intros Hs. unfold SearchResultsPage.is_search_successful.
  unfold bind at 1, unlogged at 1. rewrite Hs.
  match goal with
  | |- context [try_except ?b ?h w0] => exists b, h
  end.
  split.
  { match goal with
    | |- (let (p, t2) := ?x in _) = _ => destruct x as [[o w1] t]
    end. reflexivity. }
  split; [|reflexivity].
  apply decided_bind.
  { exact (guarded_loop 2000 (fun test_id =>
             First (Locator primary ("[data-testid='" ++ test_id ++ "']")%string))
             SearchResultsPage.result_test_ids). }
  intros _. apply decided_bind.
  { exact (unguarded_loop 2000 (fun selector => First (Locator primary selector))
             SearchResultsPage.result_selectors). }
  intros _. apply decided_bind.
  { intros w'. run_step. ask; [destruct a|]; cbv beta iota; cbn; auto.
    exists [], (Locator primary "[data-testid='no-results-section']"), 1000. auto. }
  intros _. apply decided_bind.
  { exact (unguarded_loop 1000 (fun selector => First (Locator primary selector))
             SearchResultsPage.empty_selectors). }
  intros _. apply decided_bind.
  { exact (guarded_loop 1000 (fun test_id =>
             Locator primary ("[data-testid='" ++ test_id ++ "']")%string)
             SearchResultsPage.homepage_test_ids). }
  intros _. apply decided_bind.
  { exact (unguarded_loop 1000 (fun selector => First (Locator primary selector))
             SearchResultsPage.homepage_selectors). }
  intros _ w'. unfold SearchResultsPage.get_results_count. run_step.
  ask; cbv beta iota.
  - destruct (contains "/s/" (lower a) || contains "search_type" (lower a)) eqn:Ea;
      cbv beta iota.
    + right. exists [], a. rewrite Ea. auto.
    + unfold unlogged.
      destruct (search_results_get_results_count w1) as [[n|e] w2] eqn:En;
        cbv beta iota.
      * right. exists [], a. rewrite Ea. cbn. repeat split. eauto.
      * right. exists [], (Ok a). auto.
  - right. exists [], (Raised e). auto.
Qed.


Lemma hidden_checks_quiet (t : trace) :
  forallb hidden_check t = true ->
  (forall tmo, existsb (seen_within tmo) t = false) /\
  existsb results_address t = false /\ urls_read t = [] /\
  existsb success_check_error t = false /\ screenshots t = [].
Proof.
  induction t as [|e t IH]; [cbn; auto|].
  cbn [forallb]. intros H. apply andb_true_iff in H. destruct H as [He H].
  destruct (IH H) as (H1 & H2 & H3 & H4 & H5).
  destruct e; try discriminate. destruct r as [[|]|]; try discriminate;
    cbn; repeat split; auto.
Qed.

Lemma calm_log_quiet (t : trace) :
  forallb (fun e => hidden_check e || match e with EUrl _ _ => true | _ => false end)
          t = true ->
  (forall tmo, existsb (seen_within tmo) t = false) /\
  existsb success_check_error t = false.
Proof.
  induction t as [|e t IH]; [cbn; auto|].
  cbn [forallb]. intros H. apply andb_true_iff in H. destruct H as [He H].
  destruct (IH H) as (H1 & H2).
  destruct e; try discriminate; cbn [existsb seen_within success_check_error orb];
    try (split; [intros; apply H1|assumption]).
  destruct r as [[|]|]; try discriminate; (split; [intros; apply H1|assumption]).
Qed.

(** The log and the answer of [is_search_successful]. *)
Lemma is_search_successful_log (w : world) :
  let '(o, w', tr) := SearchResultsPage.is_search_successful w in
  (tr = [] /\ exists e, o = Raise e) \/
  (exists pre l tmo,
      tr = pre ++ [EIsVisible l tmo (Ok true)] /\ forallb hidden_check pre = true /\
      o = Return (tmo =? 2000)) \/
  (exists pre u,
      tr = pre ++ [EUrl primary (Ok u)] /\ forallb hidden_check pre = true /\
      if contains "/s/" (lower u) || contains "search_type" (lower u)
      then o = Return true
      else exists w1 n,
          search_results_get_results_count w1 = (Ok n, w') /\ o = Return (0 <? n)) \/
  (exists pre r,
      forallb (fun e => hidden_check e || match e with EUrl _ _ => true | _ => false end)
              pre = true /\
      ((tr = pre ++ [EScreenshot false (Ok tt);
                     EAttach "Search success check error" PNG;
                     EAttach "Error details" TEXT] /\ o = Return false) \/
       exists e, tr = pre ++ [EScreenshot false (Raised e)] /\ o = Raise e /\ r = e)).
Proof.
  destruct (screenshot_path "test-results/check-search-success.png" w)
    as [[[]|e] w0] eqn:Hs.
  2:{ unfold SearchResultsPage.is_search_successful.
      unfold bind at 1, unlogged at 1. rewrite Hs. left. eauto. }
  destruct (@is_search_successful_body w w0 Hs) as (body & handler & -> & Hb & ->).
  unfold try_except. specialize (Hb w0).
  destruct (body w0) as [[[a|v|e] w1] t]; cbn in Hb.
  - contradiction.
  - destruct Hb as [(pre & l & tmo & -> & Hp & ->)|(pre & u & -> & Hp & Hu)].
    + right. left. exists pre, l, tmo. auto.
    + right. right. left. exists pre, u.
      split; [reflexivity|]. split; [assumption|].
      destruct (contains "/s/" (lower u) || contains "search_type" (lower u));
        [now subst|].
      destruct Hu as (w2 & n & Hn & ->). eauto 6.
  - assert (Hpre : forallb (fun e => hidden_check e
                                    || match e with EUrl _ _ => true | _ => false end)
                           t = true).
    { destruct Hb as [Hb|(pre & r & -> & Hp)].
      - apply forallb_forall. intros x Hx.
        rewrite forallb_forall in Hb. now rewrite (Hb x Hx).
      - rewrite forallb_app. cbn [forallb hidden_check].
        rewrite ?orb_true_r, ?andb_true_r.
        apply forallb_forall. intros x Hx.
        rewrite forallb_forall in Hp. now rewrite (Hp x Hx). }
    run_step.
    destruct (screenshot false w1) as [[[]|e'] w2]; cbv beta iota;
      right; right; right.
    + exists t, e. split; [assumption|]. left. auto.
    + exists t, e'. split; [assumption|]. right. exists e'. auto.
Qed.

(** X17. [is_search_successful] answers [True] only on evidence: a
    result container seen (the checks made with the timeout 2000), an
    address that contains [/s/] or [search_type], or a positive count of
    results, the last thing asked of the page.  An empty-state or home-page element seen (the checks made
    with the timeout 1000) gives [False] at once, before the address is
    read. *)
Theorem search_success_needs_evidence (w : world) :
  let run := call_function SearchResultsPage.is_search_successful w in
  let tr := snd run in
  (fst (fst run) = Ok true ->
   existsb (seen_within 2000) tr = true \/
   existsb results_address tr = true \/
   exists w1 n,
     search_results_get_results_count w1 = (Ok n, snd (fst run)) /\ 0 < n) /\
  (existsb (seen_within 1000) tr = true ->
   fst (fst run) = Ok false /\ urls_read tr = []).
Proof.
  pose proof (is_search_successful_log w) as H. unfold call_function.
  destruct (SearchResultsPage.is_search_successful w) as [[o w1] tr].
  destruct H as [(-> & e & ->)
                |[(pre & l & tmo & -> & Hp & ->)
                 |[(pre & u & -> & Hp & Hu)
                  |(pre & r & Hp & [[-> ->]|(e & -> & -> & _)])]]];
    cbv zeta; cbn [fst snd].
  - split; discriminate.
  - destruct (hidden_checks_quiet _ Hp) as (H1 & H2 & H3 & H4 & H5).
    split.
    + intros [= E2]. left. rewrite existsb_app. cbn. rewrite E2.
      now rewrite orb_true_r.
    + intros Hs. rewrite existsb_app, H1 in Hs. cbn in Hs.
      rewrite orb_false_r in Hs. apply Z.eqb_eq in Hs. subst tmo.
      split; [reflexivity|].
      unfold urls_read. rewrite flat_map_app. fold (urls_read pre).
      now rewrite H3.
  - destruct (hidden_checks_quiet _ Hp) as (H1 & H2 & H3 & H4 & H5).
    destruct (contains "/s/" (lower u) || contains "search_type" (lower u)) eqn:Eu;
      [subst o|destruct Hu as (w2 & n & Hn & ->)]; cbn [fst snd]; split.
    + intros _. right. left. rewrite existsb_app. cbn. rewrite Eu.
      now rewrite orb_true_r.
    + intros Hs. rewrite existsb_app, H1 in Hs. discriminate.
    + intros [= Hn']. right. right. exists w2, n.
      split; [assumption|]. now apply Z.ltb_lt.
    + intros Hs. rewrite existsb_app, H1 in Hs. discriminate.
  - split; [discriminate|]. intros Hseen. exfalso.
    destruct (calm_log_quiet _ Hp) as [Hq _].
    rewrite existsb_app, Hq in Hseen. discriminate.
  - split; [discriminate|]. intros Hseen. exfalso.
    destruct (calm_log_quiet _ Hp) as [Hq _].
    rewrite existsb_app, Hq in Hseen. discriminate.
Qed.

(** X18. Inside [is_search_successful] an exception gives the answer
    [False]: the error is reported with a screenshot and two attachments.
    An exception comes out of the call in two cases only: the screenshot
    taken before anything else raised (the log is empty), or the
    screenshot of the error report raised (it is the last event). *)
Theorem search_success_turns_errors_into_false (w : world) :
  let run := call_function SearchResultsPage.is_search_successful w in
  let tr := snd run in
  (existsb success_check_error tr = true -> fst (fst run) = Ok false) /\
  (forall e, fst (fst run) = Raised e ->
             tr = [] \/ exists pre, tr = pre ++ [EScreenshot false (Raised e)]).
Proof.
  pose proof (is_search_successful_log w) as H. unfold call_function.
  destruct (SearchResultsPage.is_search_successful w) as [[o w1] tr].
  destruct H as [(-> & e & ->)
                |[(pre & l & tmo & -> & Hp & ->)
                 |[(pre & u & -> & Hp & Hu)
                  |(pre & r & Hp & [[-> ->]|(e & -> & -> & _)])]]];
    cbv zeta; cbn [fst snd].
  - split; [discriminate|auto].
  - destruct (hidden_checks_quiet _ Hp) as (H1 & H2 & H3 & H4 & H5).
    split; [|discriminate].
    intros Hs. rewrite existsb_app, H4 in Hs. discriminate.
  - destruct (hidden_checks_quiet _ Hp) as (H1 & H2 & H3 & H4 & H5).
    assert (Ho : exists v, o = Return v).
    { destruct (contains "/s/" (lower u) || contains "search_type" (lower u));
        [eauto|]. destruct Hu as (w2 & n & Hn & ->). eauto. }
    destruct Ho as (v & ->). cbn [fst snd]. split; [|discriminate].
    intros Hs. rewrite existsb_app, H4 in Hs. discriminate.
  - split; [reflexivity|discriminate].
  - split; [|intros e' [= <-]; right; eauto].
    intros Hseen. exfalso.
    destruct (calm_log_quiet _ Hp) as [_ Hq].
    rewrite existsb_app, Hq in Hseen. discriminate.
Qed.

End SearchSuccess.

Section DestinationTheorems.
Context {world : Type} {B : Browser world} {C : Collaborators world}.

(** X19. Once the address and the title are read and the screenshot is
    taken, [verify_search_results] never raises.  It answers [True] when
    the destination occurs in the address or in the title, letter case
    apart; otherwise it answers [True] only when a text read off the page
    shows the destination, and a check of the page content that raised
    (the error attachment is in the log) discards what the headings
    showed. *)
Theorem destination_check_answer (destination u t : string) (w w1 w2 w3 : world) :
  url primary w = (Ok u, w1) ->
  title w1 = (Ok t, w2) ->
  screenshot_path "test-results/verify-search-results.png" w2 = (Ok tt, w3) ->
  let run := call_function (SearchResultsPage.verify_search_results destination) w in
  exists in_content,
    fst (fst run)
    = Ok (contains (lower destination) (lower u)
          || contains (lower destination) (lower t) || in_content) /\
    (in_content = true -> existsb (shows (lower destination)) (snd run) = true) /\
    (existsb content_error (snd run) = true -> in_content = false).
Proof.
  intros Hu Ht Hs.
  pose proof (@verify_search_results_content _ _ _ destination u t w w1 w2 w3 Hu Ht Hs)
    as H.
  unfold call_function.
  destruct (SearchResultsPage.verify_search_results destination w) as [[o w'] tr].
  destruct H as (b & -> & H1 & H2). exists b. auto.
Qed.

Lemma contains_empty (s : string) : contains EmptyString s = true.
Proof. destruct s; reflexivity. Qed.

(** X20. With an empty destination the check cannot fail: the empty text
    occurs in every address, so the answer is [True] on any page whose
    address and title can be read. *)
Theorem empty_destination_is_always_found (u t : string) (w w1 w2 w3 : world) :
  url primary w = (Ok u, w1) ->
  title w1 = (Ok t, w2) ->
  screenshot_path "test-results/verify-search-results.png" w2 = (Ok tt, w3) ->
  fst (fst (call_function (SearchResultsPage.verify_search_results EmptyString) w))
  = Ok true.
Proof.
  intros Hu Ht Hs.
  pose proof (@verify_search_results_content _ _ _ EmptyString u t w w1 w2 w3 Hu Ht Hs)
    as H.
  unfold call_function.
  destruct (SearchResultsPage.verify_search_results EmptyString w) as [[o w'] tr].
  destruct H as (b & -> & _). cbn [lower fst]. now rewrite contains_empty.
Qed.

End DestinationTheorems.

(** * Validating the details of the listing *)
Section ListingDetails.
Context {world : Type} {B : Browser world} {C : Collaborators world}.

Lemma validate_details_log
      (adults_count child_count check_in check_out : Z) (w : world) :
  let '(o, _, tr) :=
    SearchResultsPage.validate_highest_rated_listing_details
      adults_count child_count check_in check_out w in
  existsb hidden_answer tr = false \/
  (o = Normal tt /\ inner_texts tr = [] /\ screenshots tr = []).
Proof.
  unfold SearchResultsPage.validate_highest_rated_listing_details.
  unfold bind at 1, unlogged at 1.
  destruct (search_bar_calc_dates check_in check_out w) as [[[ci co]|e] w0];
    [|left; reflexivity].
  unfold bind at 1, emit at 1. unfold bind at 1, unlogged at 1.
  destruct (popup_wait_for_load_state "networkidle" 30000 w0) as [[[]|e] w1];
    [|left; reflexivity].
  unfold bind at 1, emit at 1. unfold bind at 1, unlogged at 1.
  destruct (popup_screenshot w1) as [[[]|e] w2]; [|left; reflexivity].
  unfold bind at 1, emit at 1. unfold bind at 1, driver at 1.
  match goal with
  | |- context [is_visible ?x 5000 w2] =>
      destruct (is_visible x 5000 w2) as [[[|]|e] w3]
  end.
  - match goal with
    | |- context [let (_, _) := ?k w3 in _] =>
        assert (Hs : silent hidden_answer k);
        [|specialize (Hs w3); destruct (k w3) as [[o w4] t4]; cbn [snd] in Hs]
    end.
    { repeat first
        [ apply silent_bind; [|intros ?]
        | apply silent_try_except_AssertionError; [|intros ?]
        | apply silent_ret
        | apply silent_raise
        | apply silent_lift
        | apply silent_py_assert
        | apply silent_emit; reflexivity
        | apply silent_driver; intros []; reflexivity
        | intros w'; unfold unlogged;
          match goal with
          | |- context [search_results_convert_date_format ?x w'] =>
              destruct (search_results_convert_date_format x w') as [[?|?] ?]
          end; reflexivity ]. }
    left. destruct o; cbn [snd app existsb hidden_answer orb]; exact Hs.
  - right. cbn. auto.
  - left. reflexivity.
Qed.

(** X21. [validate_highest_rated_listing_details] checks the listing only
    when it sees the check-in date: if that element is not visible within
    its timeout, the call returns normally without having read a label,
    compared anything or taken the error screenshot, whatever the listing
    shows. *)
Theorem hidden_check_in_validates_nothing
        (adults_count child_count check_in check_out : Z) (w : world) :
  let run := call_function
               (SearchResultsPage.validate_highest_rated_listing_details
                  adults_count child_count check_in check_out) w in
  forall l tmo,
    In (EIsVisible l tmo (Ok false)) (snd run) ->
    fst (fst run) = Ok tt /\ inner_texts (snd run) = [] /\
    screenshots (snd run) = [].
Proof.
  pose proof (validate_details_log adults_count child_count check_in check_out w) as H.
  unfold call_function.
  destruct (SearchResultsPage.validate_highest_rated_listing_details _ _ _ _ w)
    as [[o w1] tr].
  cbv zeta. intros l tmo Hin.
  destruct H as [Hq|(-> & H1 & H2)].
  - pose proof (existsb_false_In _ _ _ Hq (ltac:(destruct o; exact Hin))).
    discriminate.
  - cbn [fst snd]. auto.
Qed.

End ListingDetails.

(** * The theorems at work on the scripted browser *)
Module Witnesses.
Import Mock.

Ltac valid_day := unfold valid, june, MINYEAR, MAXYEAR; cbn; lia.
Ltac earlier := right; unfold lt, june; cbn; lia.

Ltac hyps3 H1 H2 H3 := split; [exact H1 | split; [exact H2 | split; [exact H3 |]]].


(** June 15 to June 10 is refused. *)
Lemma invalid_range_witness :
  lt (june 10) (june 15) /\
  call_function (SearchResultsPage.is_date_range_blocked (june 15) (june 10)) listing
  = (Raised (ValueError "Start date must be before end date"), listing, []).
Proof.
  assert (H : lt (june 10) (june 15)) by (unfold lt, june; cbn; lia).
  split; [exact H|]. exact (invalid_range_raises_immediately listing H).
Defined.

(** June 12: the probe key is 12/06/2025 and reads day 12, the anchor key
    is 06/12/2025 and reads month 6 first; the two locators differ. *)
Lemma probe_key_witness :
  valid (june 12) /\
  strftime_dmY (june 12) = "12/06/2025" /\ strftime_mdY (june 12) = "06/12/2025" /\
  py_int (substring 0 2 (strftime_dmY (june 12))) = Ok 12 /\
  py_int (substring 0 2 (strftime_mdY (june 12))) = Ok 6 /\
  day_locator (june 12) <> anchor_locator (june 12).
Proof.
  assert (Hv : valid (june 12)) by valid_day.
  split; [exact Hv|]. split; [reflexivity|]. split; [reflexivity|].
  pose proof (probe_key_differs_from_anchor_key listing Hv) as H. cbv zeta in H.
  destruct H as ((_ & _ & _ & Hd & _) & (_ & _ & _ & Hm & _) & _ & Hiff & (Hp & Ha) & _).
  split; [exact Hd|]. split; [exact Hm|].
  rewrite Hp, Ha. intros E. apply Hiff in E. cbn in E. lia.
Defined.

(** June 10 to 11, both free: Clear after two probes. *)
Lemma clear_range_witness :
  let run := call_function
               (SearchResultsPage.is_date_range_blocked (june 10) (june 11)) listing in
  valid (june 10) /\ valid (june 11) /\ le (june 10) (june 11) /\
  existsb blocked_observation (snd run) = false /\
  existsb query_raised (snd run) = false /\
  fst (fst run) = Ok (false, None) /\
  probed (snd run) = [day_locator (june 10); day_locator (june 11)].
Proof.
  intros run.
  assert (H10 : valid (june 10)) by valid_day.
  assert (H11 : valid (june 11)) by valid_day.
  assert (Hle : le (june 10) (june 11)) by earlier.
  assert (Hb : existsb blocked_observation (snd run) = false)
    by (vm_compute; reflexivity).
  assert (Hq : existsb query_raised (snd run) = false)
    by (vm_compute; reflexivity).
  hyps3 H10 H11 Hle. split; [exact Hb|]. split; [exact Hq|].
  destruct (clear_range_scans_every_day listing H10 H11 Hle Hb Hq)
    as (Hr & Hp & _).
  split; [exact Hr|]. fold run in Hp. rewrite Hp. vm_compute. reflexivity.
Defined.

(** June 8 and 9 are not rendered: the anchor click is tried for each, fails,
    and the scan still answers. *)
Lemma render_gap_witness :
  let run := call_function
               (SearchResultsPage.is_date_range_blocked (june 8) (june 10)) listing in
  valid (june 8) /\ valid (june 10) /\ le (june 8) (june 10) /\
  clicks_on (anchor_locator (june 8)) (snd run)
  = [Raised timeout_error; Raised timeout_error] /\
  exists v, fst (fst run) = Ok v.
Proof.
  intros run.
  assert (H8 : valid (june 8)) by valid_day.
  assert (H10 : valid (june 10)) by valid_day.
  assert (Hle : le (june 8) (june 10)) by earlier.
  hyps3 H8 H10 Hle. split; [vm_compute; reflexivity|].
  destruct (render_gap_is_absorbed listing H8 H10 Hle) as (_ & _ & H).
  apply H. vm_compute. reflexivity.
Defined.

(** The logo is not visible, the header is: the probe stops at the header. *)
Lemma probe_witness :
  chain_stopped_at_first_visible
    HomePage.selectors_to_try
    (visibility_checks
       (snd (HomePage.probe_key_elements (R:=unit) HomePage.selectors_to_try listing))).
Proof.
  pose proof (proj1 probe_stops_at_first_visible_candidate
                    HomePage.selectors_to_try listing) as H.
  set (run := HomePage.probe_key_elements _ listing) in *.
  assert (E : fst (fst run) = Normal true) by (vm_compute; reflexivity).
  destruct run as [[o w] tr]. cbn [fst snd] in *. subst o. exact H.
Defined.

(** The scripted browser keeps the viewport it was given. *)
Lemma keeps_viewport_mock : keeps_viewport (B:=browser).
Proof.
  split; [|split].
  - intros v w w' H. cbn in H. injection H as <-. reflexivity.
  - intros w w' H. cbn in H. injection H as <-. reflexivity.
  - intros ms w w' H. cbn in H. injection H as <-. reflexivity.
Defined.

(** A drifted viewport is reset once; the next check finds it OK. *)
Lemma viewport_guard_witness :
  let expected := Viewport 1920 1080 in
  let first := call_function (SearchResultsPage._ensure_full_screen expected) drifted in
  let second := call_function (SearchResultsPage._ensure_full_screen expected)
                              (snd (fst first)) in
  keeps_viewport (B:=browser) /\
  resizes (snd first) = [expected] /\
  fst (fst first) = Ok tt /\
  resizes (snd second) = [].
Proof.
  intros expected first second.
  assert (Hok : fst (fst first) = Ok tt) by (vm_compute; reflexivity).
  split; [exact keeps_viewport_mock|]. split; [vm_compute; reflexivity|].
  split; [exact Hok|].
  destruct (proj2 (viewport_guard_is_idempotent drifted expected)
                  keeps_viewport_mock _ (or_intror eq_refl) Hok) as (_ & _ & H & _).
  exact H.
Defined.

(** On a page where only the wait for the parsed document times out, the
    detector goes on to the first indicator and stops at the fourth, the
    first one visible.  On a page where the load states, the indicators
    and the last resort all time out, all ten indicators are checked after
    the wait, then the wait for any content is made, and the detector
    returns with its closing line; [navigate] makes its two waits and
    checks its six key elements. *)
Lemma page_readiness_witness :
  let expected := Viewport 1920 1080 in
  let slow := snd (call_function (SearchResultsPage.wait_for_page_load expected 60000)
                                 MockSuite.slow_document) in
  let run := call_function (SearchResultsPage.wait_for_page_load expected 60000) stalled in
  let tr := snd run in
  let tr_navigate := snd (call_function (HomePage.navigate expected) stalled) in
  (slow = firstn 5 slow
          ++ EWaitForLoadState "domcontentloaded" 15000 (Raised timeout_error)
          :: skipn 6 slow /\
   (exists b, In (EIsVisible (testid_locator "card-container") 2000 (Ok b))
                 (skipn 10 slow)) /\
   slow = firstn 21 slow
          ++ EIsVisible (testid_locator "little-search") 2000 (Ok true)
          :: skipn 22 slow /\
   exists m, skipn 22 slow = [EAttach "Page Load Success" TEXT; ELog INFO m]) /\
  fst (fst run) = Ok tt /\
  (tr = firstn 36 tr ++ EWaitForSelector "body > *" 5000 (Raised timeout_error)
                     :: skipn 37 tr /\
   exists shot outcome,
     skipn 37 tr = [ELog WARNING "No content found on page: {e}";
                    EScreenshot false shot; outcome;
                    ELog INFO "Page loaded without finding specific indicators"]) /\
  (existsb detection_failure tr = false /\
   exists load checks content pre,
     chain_exhausted indicator_chain checks /\
     readiness_calls tr
     = EWaitForLoadState "domcontentloaded" 15000 load
       :: map (check_event 2000) checks ++ [EWaitForSelector "body > *" 5000 content] /\
     tr = pre ++ [ELog INFO "Page loaded without finding specific indicators"]) /\
  (tr_navigate = firstn 6 tr_navigate
                 ++ EWaitForLoadState "networkidle" 30000 (Raised timeout_error)
                 :: skipn 7 tr_navigate /\
   exists m r' post1 post2,
     skipn 7 tr_navigate
     = ELog WARNING m :: post1 ++ EIsVisible HomePage.logo 5000 r' :: post2) /\
  (existsb navigation_failure tr_navigate = false /\
   exists idle dom checks,
     readiness_calls tr_navigate
     = EWaitForLoadState "networkidle" 30000 idle
       :: EWaitForLoadState "domcontentloaded" 15000 dom
       :: map (check_event 5000) checks /\
     (chain_stopped_at_first_visible HomePage.selectors_to_try checks \/
      chain_exhausted HomePage.selectors_to_try checks)).
Proof.
  intros expected slow run tr tr_navigate.
  pose proof (page_readiness_waits_are_soft MockSuite.slow_document expected 60000) as S.
  pose proof (page_readiness_waits_are_soft stalled expected 60000) as H.
  cbv zeta in S, H. fold slow in S. fold run in H. fold tr in H. fold tr_navigate in H.
  destruct S as (_ & Ssoft & Sfound & _).
  destruct H as (Hr & _ & _ & Hfall & Hnav & Hcalm & Hcalm_nav).
  split; [|split; [exact Hr|split; [|split; [|split]]]].
  - assert (E1 : slow = firstn 5 slow
                        ++ EWaitForLoadState "domcontentloaded" 15000
                                             (Raised timeout_error)
                        :: skipn 6 slow) by (vm_compute; reflexivity).
    assert (E2 : slow = firstn 21 slow
                        ++ EIsVisible (testid_locator "little-search") 2000 (Ok true)
                        :: skipn 22 slow) by (vm_compute; reflexivity).
    split; [exact E1|]. split; [|split; [exact E2 | exact (Sfound _ _ _ _ E2)]].
    destruct (Ssoft _ _ _ _ _ E1) as (r' & post' & Hp & Hreach).
    assert (E3 : skipn 6 slow
                 = ELog WARNING "DOM content loaded timed out: {dom_error}"
                   :: EAttach "Load State Timeout" TEXT
                   :: ELog INFO "Waiting for JS execution..."
                   :: EWaitForTimeout 3000 (Ok tt) :: skipn 10 slow)
      by (vm_compute; reflexivity).
    rewrite E3 in Hp. injection Hp as <- <-.
    apply Hreach; vm_compute; reflexivity.
  - assert (E : tr = firstn 36 tr
                     ++ EWaitForSelector "body > *" 5000 (Raised timeout_error)
                     :: skipn 37 tr) by (vm_compute; reflexivity).
    split; [exact E | exact (Hfall _ _ _ _ _ E)].
  - assert (Hc : existsb detection_failure tr = false) by (vm_compute; reflexivity).
    split; [exact Hc|].
    destruct (Hcalm Hc) as (load & checks & [[Hs Hq]|(Hx & content & pre & Hq & Hl)]).
    + exfalso.
      assert (Hnf : existsb found_visible (readiness_calls tr) = false)
        by (vm_compute; reflexivity).
      destruct Hs as (_ & seen & l & -> & _).
      rewrite Hq, map_app in Hnf. cbn [existsb found_visible orb] in Hnf.
      rewrite existsb_app in Hnf. cbn in Hnf. rewrite orb_true_r in Hnf.
      discriminate Hnf.
    + exists load, checks, content, pre. auto.
  - assert (E : tr_navigate
                = firstn 6 tr_navigate
                  ++ EWaitForLoadState "networkidle" 30000 (Raised timeout_error)
                  :: skipn 7 tr_navigate) by (vm_compute; reflexivity).
    split; [exact E | exact (Hnav _ _ _ _ _ E)].
  - assert (Hc : existsb navigation_failure tr_navigate = false)
      by (vm_compute; reflexivity).
    split; [exact Hc | exact (Hcalm_nav Hc)].
Defined.

(** Two adults and one child: one click on the decrease control, both
    assertions hold. *)
Lemma reducing_one_child_witness :
  inner_text SearchResultsPage.guests_button listing = (Ok "3 guests", listing) /\
  py_int (split_first "guests" "3 guests") = Ok 3 /\
  click SearchResultsPage.guests_button listing = (Ok tt, listing) /\
  inner_text SearchResultsPage.current_child_count_element listing
  = (Ok "1 child", listing) /\
  py_int (split_first "child" "1 child") = Ok 1 /\
  let run := call_function
               (SearchResultsPage.remove_kids_from__highest_rated_listing 0) listing in
  clicks_on SearchResultsPage.reduce_child_count_element (snd run) = [Ok tt] /\
  fst (fst run) = Ok tt.
Proof.
  assert (H1 : inner_text SearchResultsPage.guests_button listing
               = (Ok "3 guests", listing)) by reflexivity.
  assert (P1 : py_int (split_first "guests" "3 guests") = Ok 3) by reflexivity.
  assert (H2 : click SearchResultsPage.guests_button listing = (Ok tt, listing))
    by reflexivity.
  assert (H3 : inner_text SearchResultsPage.current_child_count_element listing
               = (Ok "1 child", listing)) by reflexivity.
  assert (P2 : py_int (split_first "child" "1 child") = Ok 1) by reflexivity.
  do 5 (split; [assumption|]).
  destruct (reducing_one_child_outcome _ H1 P1 H2 H3 P2) as [Hc Hr].
  split; [rewrite Hc; reflexivity|].
  exact (Hr (set_children 0 listing) (set_children 0 listing) (set_children 0 listing)
            "0 children" "2 guests" 0 2
            eq_refl eq_refl eq_refl eq_refl eq_refl
            ltac:(intros e E; discriminate E)).
Defined.

(** The address after the click contains book but no numberOfAdults: the
    assertion passes. *)
Lemma reserve_witness :
  let run := call_function (SearchResultsPage.reserve_and_validate 2) listing in
  urls_read (snd run)
  = [Ok "https://www.airbnb.com/rooms/1"; Ok "https://www.airbnb.com/rooms/1book/stays"] /\
  contains "numberOfAdults=2" "https://www.airbnb.com/rooms/1book/stays" = false /\
  fst (fst run) = Ok tt.
Proof.
  intros run.
  assert (Hu : urls_read (snd run)
               = [Ok "https://www.airbnb.com/rooms/1";
                  Ok "https://www.airbnb.com/rooms/1book/stays"])
    by (vm_compute; reflexivity).
  split; [exact Hu|]. split; [vm_compute; reflexivity|].
  apply (proj2 (proj2 (reserve_assertion_ignores_adults_count listing 2))).
  exists "https://www.airbnb.com/rooms/1", "https://www.airbnb.com/rooms/1book/stays".
  split; [exact Hu|]. split; [|vm_compute; reflexivity].
  intros E. apply (f_equal String.length) in E. vm_compute in E. discriminate E.
Defined.
(** The scenarios of the specification, run. *)
Example single_blocked_day :
  fst (fst (call_function
              (SearchResultsPage.is_date_range_blocked (june 12) (june 12)) listing))
  = Ok (true, Some "12/06/2025").
Proof. vm_compute. reflexivity. Qed.

Example single_free_day_is_probed_once :
  let run := call_function
               (SearchResultsPage.is_date_range_blocked (june 10) (june 10)) listing in
  fst (fst run) = Ok (false, None) /\ probed (snd run) = [day_locator (june 10)].
Proof. vm_compute. split; reflexivity. Qed.

Example stalled_page_is_degraded :
  let run := call_function
               (SearchResultsPage.wait_for_page_load (Viewport 1920 1080) 60000)
               stalled in
  fst (fst run) = Ok tt /\
  List.length (visibility_checks (snd run)) = 10%nat /\
  last (snd run) (ELog INFO EmptyString)
  = ELog INFO "Page loaded without finding specific indicators".
Proof. vm_compute. repeat split; reflexivity. Qed.

Example visible_indicator_ends_detection :
  let run := call_function
               (SearchResultsPage.wait_for_page_load (Viewport 1920 1080) 60000)
               listing in
  fst (fst run) = Ok tt /\
  map snd (visibility_checks (snd run))
  = [Ok false; Ok false; Ok false; Ok true].
Proof. vm_compute. split; reflexivity. Qed.

Example month_end_is_crossed :
  days_of_range (Datetime 2024 2 28) (Datetime 2024 3 1)
  = [Datetime 2024 2 28; Datetime 2024 2 29; Datetime 2024 3 1].
Proof. vm_compute. reflexivity. Qed.
End Witnesses.


(** * The further theorems at work on the scripted browser *)
Module MoreWitnesses.
Import Mock MockSuite.

Ltac calendar_day := unfold valid, june, MINYEAR, MAXYEAR; cbn; lia.

(** The texts of June 10 and June 12 are scanned as the two days: Blocked
    for June 12. *)
Lemma date_strings_witness :
  valid (june 10) /\ valid (june 12) /\
  fst (fst (call_function
              (SearchResultsPage.is_date_range_blocked_str
                 (strftime_Ymd (june 10)) (strftime_Ymd (june 12))) listing))
  = Ok (true, Some "12/06/2025").
Proof.
  assert (H10 : valid (june 10)) by calendar_day.
  assert (H12 : valid (june 12)) by calendar_day.
  split; [exact H10|]. split; [exact H12|].
  rewrite (scan_of_date_strings_is_scan_of_dates listing H10 H12).
  vm_compute. reflexivity.
Defined.

(** 2025-13-01 names no day: refused as a start and as an end, the page
    untouched. *)
Lemma impossible_date_witness :
  ~ valid (Datetime 2025 13 1) /\ valid (june 10) /\
  (exists msg,
     call_function
       (SearchResultsPage.is_date_range_blocked_str (Ymd 2025 13 1) "2025-06-12")
       listing
     = (Raised (ValueError msg), listing, [])) /\
  (exists msg,
     call_function
       (SearchResultsPage.is_date_range_blocked_str
          (strftime_Ymd (june 10)) (Ymd 2025 13 1)) listing
     = (Raised (ValueError msg), listing, [])).
Proof.
  assert (Hn : ~ valid (Datetime 2025 13 1))
    by (unfold valid, MINYEAR, MAXYEAR; cbn; lia).
  assert (H10 : valid (june 10)) by calendar_day.
  split; [exact Hn|]. split; [exact H10|].
  apply (impossible_date_is_refused_before_any_query "2025-06-12" listing);
    [lia | lia | lia | exact Hn | exact H10].
Defined.

(** June 15 to June 10 in the tab: the check-in button is clicked, then the
    scan refuses the range. *)
Lemma inverted_range_witness :
  valid (june 15) /\ valid (june 10) /\ lt (june 10) (june 15) /\
  let run := call_function
               (SearchResultsPage.check_availability
                  (strftime_Ymd (june 15)) (strftime_Ymd (june 10))) listing_tab in
  exists r,
    snd run = [ELog INFO "Checking availability for {checkin_date} and {checkout_date}";
               EClick SearchResultsPage.check_in_button_element r] /\
    fst (fst run)
    = Raised (match r with
              | Ok _ => ValueError "Start date must be before end date"
              | Raised e => e
              end).
Proof.
  assert (H15 : valid (june 15)) by calendar_day.
  assert (H10 : valid (june 10)) by calendar_day.
  assert (Hlt : lt (june 10) (june 15)) by (unfold lt, june; cbn; lia).
  split; [exact H15|]. split; [exact H10|]. split; [exact Hlt|].
  exact (inverted_range_costs_one_click listing_tab H15 H10 Hlt).
Defined.

(** June 10 to 12 in the tab, June 12 blocked: the answer is [False], the
    calendar is saved and the reserve button is clicked all the same. *)
Lemma blocked_range_is_reserved_witness :
  valid (june 10) /\ valid (june 12) /\ le (june 10) (june 12) /\
  let run := call_function
               (SearchResultsPage.check_availability
                  (strftime_Ymd (june 10)) (strftime_Ymd (june 12))) listing_tab in
  fst (fst run) = Ok false /\
  existsb blocked_observation (snd run) = true /\
  clicks (snd run)
  = [(SearchResultsPage.check_in_button_element, Ok tt);
     (SearchResultsPage.close_cal, Ok tt);
     (reserve_button, Ok tt)].
Proof.
  assert (H10 : valid (june 10)) by calendar_day.
  assert (H12 : valid (june 12)) by calendar_day.
  assert (Hle : le (june 10) (june 12)) by (right; unfold lt, june; cbn; lia).
  split; [exact H10|]. split; [exact H12|]. split; [exact Hle|].
  intros run.
  assert (Hr : fst (fst run) = Ok false) by (vm_compute; reflexivity).
  destruct (availability_answer_and_reservation listing_tab H10 H12 Hle Hr)
    as (Ha & _ & cs & _ & Hc).
  split; [exact Hr|]. split.
  - fold run in Ha. destruct (existsb blocked_observation (snd run));
      [reflexivity | discriminate Ha].
  - vm_compute. reflexivity.
Defined.

(** Three guests, three children: the labels parse to 3; [3 guest] does
    not parse. *)
Lemma guest_labels_witness :
  0 <= 3 /\
  py_int (split_first "guests" "3 guests") = Ok 3 /\
  py_int (split_first "child" "3 child") = Ok 3 /\
  py_int (split_first "child" "3 children") = Ok 3 /\
  py_int (split_first "guests" "3 guest")
  = Raised (ValueError "invalid literal for int() with base 10").
Proof.
  assert (H : 0 <= 3) by lia.
  split; [exact H|]. exact (guest_labels_parse H).
Defined.

(** The guest button reads [1 guest]: the removal raises on that label. *)
Lemma single_guest_witness :
  0 <= 1 /\
  inner_text SearchResultsPage.guests_button single_guest_tab
  = (Ok "1 guest", single_guest_tab) /\
  call_function (SearchResultsPage.remove_kids_from__highest_rated_listing 0)
                single_guest_tab
  = (Raised (ValueError "invalid literal for int() with base 10"), single_guest_tab,
     [EInnerText SearchResultsPage.guests_button (Ok "1 guest")]).
Proof.
  assert (H : 0 <= 1) by lia.
  assert (Ht : inner_text SearchResultsPage.guests_button single_guest_tab
               = (Ok (py_str 1 ++ " guest")%string, single_guest_tab))
    by reflexivity.
  split; [exact H|]. split; [exact Ht|].
  exact (singular_guest_label_raises_before_any_click 0 single_guest_tab H Ht).
Defined.

(** Two adults and one child, target no child: the removal returns, so the
    labels read before and after are as the theorem says. *)
Lemma removal_postcondition_witness :
  let run := call_function
               (SearchResultsPage.remove_kids_from__highest_rated_listing 0) listing in
  fst (fst run) = Ok tt /\
  inner_texts (snd run)
  = [(SearchResultsPage.guests_button, Ok "3 guests");
     (SearchResultsPage.current_child_count_element, Ok "1 child");
     (SearchResultsPage.current_child_count_element, Ok "0 children");
     (SearchResultsPage.guests_button, Ok "2 guests")] /\
  clicks (snd run)
  = [(SearchResultsPage.guests_button, Ok tt);
     (SearchResultsPage.reduce_child_count_element, Ok tt)].
Proof.
  intros run.
  assert (Hr : fst (fst run) = Ok tt) by (vm_compute; reflexivity).
  split; [exact Hr|].
  destruct (removal_postcondition 0 listing Hr)
    as (t0 & t1 & t2 & t3 & total & kids & Hi & _ & P1 & Hc & _).
  fold run in Hi, Hc.
  assert (Hi' : inner_texts (snd run)
                = [(SearchResultsPage.guests_button, Ok "3 guests");
                   (SearchResultsPage.current_child_count_element, Ok "1 child");
                   (SearchResultsPage.current_child_count_element, Ok "0 children");
                   (SearchResultsPage.guests_button, Ok "2 guests")])
    by (vm_compute; reflexivity).
  split; [exact Hi'|].
  rewrite Hi' in Hi. injection Hi as _ E1 _ _. subst t1.
  assert (Ek : kids = 1) by (vm_compute in P1; congruence).
  rewrite Hc, Ek. reflexivity.
Defined.

(** Target five children with one shown: nothing is clicked down, the
    assertion fails, the report takes its screenshot and [AssertionError]
    comes out. *)
Lemma removal_failure_witness :
  let run := call_function
               (SearchResultsPage.remove_kids_from__highest_rated_listing 5) listing in
  snd run
  = firstn 6 (snd run) ++ ELog INFO "updating the child number failed: {e}"
                       :: skipn 7 (snd run) /\
  skipn 7 (snd run) = [EScreenshot false (Ok tt);
                       EAttach "failure updating child number error" PNG] /\
  fst (fst run) = Raised AssertionError.
Proof.
  intros run.
  assert (Heq : snd run
                = firstn 6 (snd run)
                  ++ ELog INFO "updating the child number failed: {e}"
                  :: skipn 7 (snd run)) by (vm_compute; reflexivity).
  split; [exact Heq|].
  destruct (removal_failure_report 5 listing _ _ Heq) as [H | (e' & H & _)].
  - exact H.
  - vm_compute in H. discriminate H.
Defined.

(** The scripted page titles itself after Amsterdam: the destination is
    found in the title. *)
Lemma destination_witness :
  url primary listing = (Ok "https://www.airbnb.com/rooms/1", listing) /\
  title listing = (Ok "Amsterdam - Holiday Rentals", listing) /\
  screenshot_path "test-results/verify-search-results.png" listing = (Ok tt, listing) /\
  fst (fst (call_function (SearchResultsPage.verify_search_results "Amsterdam") listing))
  = Ok true.
Proof.
  assert (Hu : url primary listing = (Ok "https://www.airbnb.com/rooms/1", listing))
    by reflexivity.
  assert (Ht : title listing = (Ok "Amsterdam - Holiday Rentals", listing))
    by reflexivity.
  assert (Hs : screenshot_path "test-results/verify-search-results.png" listing
               = (Ok tt, listing)) by reflexivity.
  split; [exact Hu|]. split; [exact Ht|]. split; [exact Hs|].
  destruct (destination_check_answer "Amsterdam" listing Hu Ht Hs) as (c & Hr & _).
  rewrite Hr. reflexivity.
Defined.

(** No destination: found on the listing page. *)
Lemma empty_destination_witness :
  url primary listing = (Ok "https://www.airbnb.com/rooms/1", listing) /\
  title listing = (Ok "Amsterdam - Holiday Rentals", listing) /\
  screenshot_path "test-results/verify-search-results.png" listing = (Ok tt, listing) /\
  fst (fst (call_function (SearchResultsPage.verify_search_results EmptyString) listing))
  = Ok true.
Proof.
  assert (Hu : url primary listing = (Ok "https://www.airbnb.com/rooms/1", listing))
    by reflexivity.
  assert (Ht : title listing = (Ok "Amsterdam - Holiday Rentals", listing))
    by reflexivity.
  assert (Hs : screenshot_path "test-results/verify-search-results.png" listing
               = (Ok tt, listing)) by reflexivity.
  split; [exact Hu|]. split; [exact Ht|]. split; [exact Hs|].
  exact (empty_destination_is_always_found listing Hu Ht Hs).
Defined.

(** The listing does not show the check-in date: nothing is validated. *)
Lemma hidden_check_in_witness :
  let run := call_function
               (SearchResultsPage.validate_highest_rated_listing_details 2 1 1 3)
               listing in
  In (EIsVisible SearchResultsPage.check_in_button_element 5000 (Ok false)) (snd run) /\
  fst (fst run) = Ok tt /\ inner_texts (snd run) = [] /\ screenshots (snd run) = [].
Proof.
  intros run.
  assert (Hin : In (EIsVisible SearchResultsPage.check_in_button_element 5000 (Ok false))
                   (snd run))
    by (vm_compute; do 3 right; left; reflexivity).
  split; [exact Hin|].
  exact (hidden_check_in_validates_nothing 2 1 1 3 listing _ _ Hin).
Defined.

(** A page of another site is not the home page: no element is checked. *)
Lemma off_site_witness :
  let run := call_function HomePage._verify_on_homepage elsewhere in
  urls_read (snd run) = [Ok "https://example.org/"] /\
  contains "airbnb.com" (lower "https://example.org/") = false /\
  fst (fst run) = Ok false /\ visibility_checks (snd run) = [].
Proof.
  intros run.
  pose proof (verify_on_homepage_answer elsewhere) as H. cbv zeta in H.
  fold run in H. destruct H as (Hr & r & Hu & Hv).
  assert (Hu' : urls_read (snd run) = [Ok "https://example.org/"])
    by (vm_compute; reflexivity).
  assert (Hc : contains "airbnb.com" (lower "https://example.org/") = false)
    by (vm_compute; reflexivity).
  rewrite Hu' in Hu. injection Hu as <-.
  split; [exact Hu'|]. split; [exact Hc|].
  pose proof (Hv Hc) as Hn. split; [|exact Hn].
  rewrite Hr. vm_compute. reflexivity.
Defined.

(** The check of the logo raises: it is the only check and the answer is
    [False]. *)
Lemma broken_logo_witness :
  let run := call_function HomePage._verify_on_homepage broken_logo in
  existsb check_raised (visibility_checks (snd run)) = true /\
  map fst (visibility_checks (snd run)) = [HomePage.logo] /\
  fst (fst run) = Ok false.
Proof.
  intros run.
  assert (Hx : existsb check_raised (visibility_checks (snd run)) = true)
    by (vm_compute; reflexivity).
  split; [exact Hx|].
  pose proof (verify_on_homepage_stops_at_failing_check broken_logo) as H.
  cbv zeta in H. fold run in H. destruct H as (Ho & _ & Hr).
  split; [rewrite Ho; vm_compute; reflexivity | exact (Hr Hx)].
Defined.

(** A cookie banner with an accept button: the button is clicked, after
    the check that saw it. *)
Lemma cookie_banner_witness :
  let tr := snd (call_function HomePage._handle_popups cookie_banner) in
  clicks tr = [(First (Locator primary "button[aria-label*='Accept']"), Ok tt)] /\
  clicks_follow_checks tr.
Proof.
  intros tr. split; [vm_compute; reflexivity|].
  exact (handle_popups_clicks_only_what_it_saw cookie_banner).
Defined.

(** The site cannot be reached: [goto] raises, the report takes its
    screenshot and the exception of [goto] comes out. *)
Lemma unreachable_witness :
  let run := call_function (HomePage.navigate (Viewport 1920 1080)) unreachable in
  fst (fst run) = Raised timeout_error /\
  exists pre c r,
    snd run = pre ++ c :: navigation_error_report r /\
    navigation_failure c = true /\ exception_of c = Some timeout_error /\
    existsb navigation_failure pre = false.
Proof.
  intros run.
  assert (Hr : fst (fst run) = Raised timeout_error) by (vm_compute; reflexivity).
  split; [exact Hr|].
  pose proof (navigate_raises_what_failed (Viewport 1920 1080) unreachable) as H.
  cbv zeta in H. fold run in H. rewrite Hr in H. exact H.
Defined.

(** One reserve button only: nothing is clicked, [IndexError]. *)
Lemma one_button_witness :
  let run := call_function (SearchResultsPage.reserve_and_validate 2) one_button_tab in
  In (EAll (Locator popup (attr_selector "data-testid" "homes-pdp-cta-btn")) (Ok 1%nat))
     (snd run) /\
  clicks (snd run) = [] /\ fst (fst run) = Raised IndexError.
Proof.
  intros run.
  assert (Hin : In (EAll (Locator popup (attr_selector "data-testid" "homes-pdp-cta-btn"))
                         (Ok 1%nat)) (snd run))
    by (vm_compute; left; reflexivity).
  split; [exact Hin|].
  pose proof (reserve_needs_a_second_match 2 one_button_tab) as H.
  cbv zeta in H. fold run in H.
  destruct (proj2 H _ _ Hin (Nat.lt_succ_diag_r 1))
    as (Hc & [(u & _ & Hr) | (e & Hu & _)]).
  - split; [exact Hc | exact Hr].
  - vm_compute in Hu. discriminate Hu.
Defined.

(** The page is gone at the first check: one error line and the detector
    returns. *)
Lemma gone_witness :
  let run := call_function
               (SearchResultsPage.wait_for_page_load (Viewport 1920 1080) 60000) gone in
  fst (fst run) = Ok tt /\
  snd run = firstn 3 (snd run) ++ EUrl primary (Raised timeout_error)
                               :: [ELog ERROR "Page is no longer available"] /\
  In "Page is no longer available" gone_messages.
Proof.
  intros run.
  pose proof (page_gone_stops_the_detection (Viewport 1920 1080) 60000 gone) as H.
  cbv zeta in H. fold run in H. destruct H as (Hr & Hp).
  split; [exact Hr|].
  assert (Heq : snd run
                = firstn 3 (snd run) ++ EUrl primary (Raised timeout_error)
                                     :: [ELog ERROR "Page is no longer available"])
    by (vm_compute; reflexivity).
  split; [exact Heq|].
  destruct (Hp _ _ _ Heq) as [(m & Hm & Hin) | [Hm | (e' & Hm)]];
    [|discriminate Hm|discriminate Hm].
  injection Hm as <-. exact Hin.
Defined.

(** The home page is still shown after the search: [False], and the
    address is not read. *)
Lemma still_home_witness :
  let run := call_function SearchResultsPage.is_search_successful still_home in
  existsb (seen_within 1000) (snd run) = true /\
  fst (fst run) = Ok false /\ urls_read (snd run) = [].
Proof.
  intros run.
  assert (Hs : existsb (seen_within 1000) (snd run) = true)
    by (vm_compute; reflexivity).
  split; [exact Hs|].
  pose proof (search_success_needs_evidence still_home) as H.
  cbv zeta in H. fold run in H. exact (proj2 H Hs).
Defined.

(** The address cannot be read: the error is reported and the answer is
    [False]. *)
Lemma unreadable_address_witness :
  let run := call_function SearchResultsPage.is_search_successful gone in
  existsb success_check_error (snd run) = true /\ fst (fst run) = Ok false.
Proof.
  intros run.
  assert (Hs : existsb success_check_error (snd run) = true)
    by (vm_compute; reflexivity).
  split; [exact Hs|].
  pose proof (search_success_turns_errors_into_false gone) as H.
  cbv zeta in H. fold run in H. exact (proj1 H Hs).
Defined.
End MoreWitnesses.
